(** * Road hazard mapping: speed recommendation engine and GPS simulators

    A shallow embedding of [backend/routes/speed_routes.py] and
    [backend/utils/gps_simulator.py], and of the rows of
    [backend/models/hazard.py], the nearby and route handlers of
    [backend/routes/hazard_routes.py] and the generator of
    [backend/data/dummy_data_generator.py].

    Python's [float] is read in two ways.  The speed engine is written once,
    over an interface of float operations ([PyFloat]), and interpreted
      - in exact rational arithmetic ([exact], over [Q]), where the general
        theorems are proved, and
      - in IEEE-754 double precision ([binary64], over the kernel's
        primitive floats), where it is evaluated on concrete inputs.
    The route handlers and the simulators are interpreted over [Q] only.

    The exceptions that the engine can raise on numbers ([ValueError] from
    [math.sqrt], [OverflowError] from the conversion of a large [int]) and
    the [except] branches of the speed handlers are embedded in the module
    [Raising]; the statements on speed limits beyond 2^53, where the
    conversion to a double rounds, are made there.

    The functions of Python's [math] module are an interface too
    ([MathLib]); general theorems hold for every implementation of it. *)

From Stdlib Require Import ZArith QArith Qround List Bool String Lia Lqa.
From Stdlib Require Import PrimFloat SpecFloat FloatOps.
Import ListNotations.

Local Open Scope Z_scope.

(** ** Float operations *)

(** The operations of Python's [float] used by the sources, together with
    the conversions from and to [int]. *)
Class PyFloat : Type := {
  F : Type;
  fadd : F -> F -> F;
  fsub : F -> F -> F;
  fmul : F -> F -> F;
  (** [x / y] for a divisor known to be non-zero *)
  fdiv : F -> F -> F;
  (** [x <= y] *)
  fleb : F -> F -> bool;
  (** [x < y] *)
  fltb : F -> F -> bool;
  (** the implicit conversion of an [int] operand *)
  of_int : Z -> F;
  (** [int(x)]: truncation toward zero *)
  to_int : F -> Z
}.

(** [math.sin], [math.cos], [math.sqrt], [math.atan2] and [math.pi]. *)
Class MathLib (A : Type) : Type := {
  m_sin : A -> A;
  m_cos : A -> A;
  m_sqrt : A -> A;
  m_atan2 : A -> A -> A;
  m_pi : A
}.

Declare Scope py_scope.
Delimit Scope py_scope with py.
Infix "+" := fadd : py_scope.
Infix "-" := fsub : py_scope.
Infix "*" := fmul : py_scope.
Infix "/" := fdiv : py_scope.
Infix "<=?" := fleb : py_scope.
Infix "<?" := fltb : py_scope.

Section Literals.
Context {N : PyFloat}.

(** The decimal literal [m * 10^-k], e.g. [dec 75 2] for [0.75]. *)
Definition dec (m : Z) (k : nat) : F := (of_int m / of_int (10 ^ Z.of_nat k))%py.

(** Python's built-in [min(a, b)] on two arguments: [b] when [b < a],
    otherwise [a]. *)
Definition py_min (a b : F) : F := if (b <? a)%py then b else a.

(** Python's built-in [max(a, b)]: [b] when [b > a], otherwise [a]. *)
Definition py_max (a b : F) : F := if (a <? b)%py then b else a.

(** [math.radians(x)], which multiplies by [pi / 180]. *)
Definition radians {M : MathLib F} (x : F) : F := (x * (m_pi / of_int 180))%py.

End Literals.

(** *** Exact rationals *)

(** [int(x)] on a rational: the quotient rounded toward zero. *)
Definition Qtruncate (x : Q) : Z := Z.quot (Qnum x) (Zpos (Qden x)).

Definition Qltb (x y : Q) : bool := negb (Qle_bool y x).

#[export] Instance exact : PyFloat | 0 := {|
  F := Q;
  fadd := Qplus;
  fsub := Qminus;
  fmul := Qmult;
  fdiv := Qdiv;
  fleb := Qle_bool;
  fltb := Qltb;
  of_int := inject_Z;
  to_int := Qtruncate
|}.

(** *** Double precision *)

(** Conversion of an [int] to the nearest double (ties to even). *)
Definition b64_of_int (n : Z) : float :=
  SF2Prim (binary_normalize prec emax n 0 false).

(** [int(x)] on a double.  Python raises on infinities and NaN; they do
    not arise from the finite operands used here and are mapped to [0]. *)
Definition b64_to_int (x : float) : Z :=
  match Prim2SF x with
  | S754_finite s m e =>
      let v := match e with
               | Z0 => Zpos m
               | Zpos p => Zpos m * 2 ^ Zpos p
               | Zneg p => Zpos m / 2 ^ Zpos p
               end in
      if s then - v else v
  | _ => 0
  end.

#[export] Instance binary64 : PyFloat | 9 := {|
  F := float;
  fadd := PrimFloat.add;
  fsub := PrimFloat.sub;
  fmul := PrimFloat.mul;
  fdiv := PrimFloat.div;
  fleb := PrimFloat.leb;
  fltb := PrimFloat.ltb;
  of_int := b64_of_int;
  to_int := b64_to_int
|}.

(** ** models/hazard.py *)

Inductive HazardType : Set := POTHOLE | CRACK | DEBRIS | CONSTRUCTION | FLOODING.

Inductive SeverityLevel : Set := LOW | MEDIUM | HIGH.

(** The columns of [Hazard] read by the route-recommendation handlers. *)
Record Hazard {N : PyFloat} : Type := {
  id : Z;
  latitude : F;
  longitude : F;
  hazard_type : HazardType;
  severity_level : SeverityLevel;
  road_name : string
}.

(** A location dictionary [{'lat': ..., 'lng': ...}]. *)
Record Location {N : PyFloat} : Type := { lat : F; lng : F }.

(** ** routes/speed_routes.py: SpeedRecommendationEngine *)

Module SpeedRecommendationEngine.
Section Engine.
Context {N : PyFloat} {M : MathLib F}.
Local Open Scope py_scope.

Definition SPEED_FACTORS (s : SeverityLevel) : F :=
  match s with
  | HIGH => dec 5 1
  | MEDIUM => dec 75 2
  | LOW => dec 90 2
  end.

(** The dictionary literal, in the order it is written. *)
Definition DISTANCE_FACTORS : list (F * F) :=
  [ (dec 1 1, of_int 1);
    (dec 2 1, dec 8 1);
    (dec 5 1, dec 5 1);
    (of_int 1, dec 2 1);
    (of_int 2, dec 1 1) ].

(** Tuple comparison [(t1, f1) < (t2, f2)]: the first components decide
    unless they are equal. *)
Definition item_ltb (x y : F * F) : bool :=
  if fst x <? fst y then true
  else if fst y <? fst x then false
  else snd x <? snd y.

Fixpoint insert_item (x : F * F) (l : list (F * F)) : list (F * F) :=
  match l with
  | [] => [x]
  | y :: l' => if item_ltb x y then x :: y :: l' else y :: insert_item x l'
  end.

(** [sorted(items)]: a stable sort into ascending order. *)
Definition sorted (l : list (F * F)) : list (F * F) :=
  fold_left (fun acc x => insert_item x acc) l [].

Definition calculate_distance (lat1 lng1 lat2 lng2 : F) : F :=
  let R := of_int 6371 in
  let lat1_rad := radians lat1 in
  let lat2_rad := radians lat2 in
  let delta_lat := radians (lat2 - lat1) in
  let delta_lng := radians (lng2 - lng1) in
  let a := m_sin (delta_lat / of_int 2) * m_sin (delta_lat / of_int 2)
           + m_cos lat1_rad * m_cos lat2_rad
             * m_sin (delta_lng / of_int 2) * m_sin (delta_lng / of_int 2) in
  let c := of_int 2 * m_atan2 (m_sqrt a) (m_sqrt (of_int 1 - a)) in
  R * c.

(** The loop of [get_distance_factor] over the sorted items. *)
Fixpoint first_threshold (distance_km : F) (items : list (F * F)) : F :=
  match items with
  | [] => of_int 0
  | (threshold, factor) :: rest =>
      if distance_km <=? threshold then factor
      else first_threshold distance_km rest
  end.

Definition get_distance_factor (distance_km : F) : F :=
  first_threshold distance_km (sorted DISTANCE_FACTORS).

(** One iteration of the loop over [hazards]. *)
Definition add_impact (loc : Location) (total_impact : F) (hazard : Hazard) : F :=
  let distance :=
    calculate_distance (lat loc) (lng loc) (latitude hazard) (longitude hazard) in
  let distance_factor := get_distance_factor distance in
  let severity_factor := SPEED_FACTORS (severity_level hazard) in
  if of_int 0 <? distance_factor then
    let impact := (of_int 1 - severity_factor) * distance_factor in
    total_impact + impact
  else total_impact.

(** [total_impact] when the loop ends. *)
Definition total_impact_of (loc : Location) (hazards : list Hazard) : F :=
  fold_left (add_impact loc) hazards (of_int 0).

Definition calculate_recommended_speed
    (current_location : Location) (hazards : list Hazard) (base_speed_limit : Z) : Z :=
  let total_impact := total_impact_of current_location hazards in
  let total_impact := py_min total_impact (dec 8 1) in
  let recommended_speed := to_int (of_int base_speed_limit * (of_int 1 - total_impact)) in
  Z.max recommended_speed 20.

End Engine.
End SpeedRecommendationEngine.

(** ** An implementation of the math interface

    Truncated Taylor series for the trigonometric functions, written over
    the float operations so that both interpretations share them.  They are
    accurate for the small angles of the concrete examples, and agree with
    the C library where it is exact: [sin 0 = 0], [cos 0 = 1],
    [atan2(0, x) = 0] for positive [x]. *)

Section Series.
Context {N : PyFloat}.
Local Open Scope py_scope.

Definition series_sin (x : F) : F :=
  let x2 := x * x in
  x * (of_int 1 - x2 / of_int 6 * (of_int 1 - x2 / of_int 20 * (of_int 1 - x2 / of_int 42))).

Definition series_cos (x : F) : F :=
  let x2 := x * x in
  of_int 1 - x2 / of_int 2 * (of_int 1 - x2 / of_int 12 * (of_int 1 - x2 / of_int 30
    * (of_int 1 - x2 / of_int 56))).

Definition series_atan (t : F) : F :=
  let t2 := t * t in
  t * (of_int 1 - t2 * (of_int 1 / of_int 3 - t2 * (of_int 1 / of_int 5 - t2 / of_int 7))).

Definition series_atan2 (pi y x : F) : F :=
  if of_int 0 <? x then series_atan (y / x)
  else if x <? of_int 0 then
    (if y <? of_int 0 then series_atan (y / x) - pi else series_atan (y / x) + pi)
  else if of_int 0 <? y then pi / of_int 2
  else if y <? of_int 0 then of_int 0 - pi / of_int 2
  else of_int 0.

End Series.

(** A rational cut to 20 decimal places, which keeps the numerators of
    the exact interpretation small. *)
Definition trim (x : Q) : Q := Qfloor (x * inject_Z (10 ^ 20)) # 10 ^ 20.

(** The square root of a rational to 15 decimal places, [0] below zero. *)
Definition Qsqrt_approx (x : Q) : Q :=
  let x := trim x in
  match Qnum x with
  | Zpos n => Z.sqrt (Zpos n * Zpos (Qden x) * 10 ^ 30) # (Qden x * 10 ^ 15)
  | _ => 0
  end.

Definition Qpi_approx : Q := 3141592653589793 # 1000000000000000.

#[export] Instance approx_math : MathLib Q := {|
  m_sin := fun x => trim (series_sin (N := exact) (trim x));
  m_cos := fun x => trim (series_cos (N := exact) (trim x));
  m_sqrt := Qsqrt_approx;
  m_atan2 := fun y x => trim (series_atan2 (N := exact) Qpi_approx (trim y) (trim x));
  m_pi := Qpi_approx
|}.

#[export] Instance b64_math : MathLib float := {|
  m_sin := series_sin (N := binary64);
  m_cos := series_cos (N := binary64);
  m_sqrt := PrimFloat.sqrt;
  m_atan2 := series_atan2 (N := binary64) 0x1.921fb54442d18p+1%float;
  m_pi := 0x1.921fb54442d18p+1%float
|}.

(** ** Exceptions and rounding of the Python runtime *)

Inductive exn : Set :=
  TypeError | ZeroDivisionError | IndexError | ValueError | OverflowError.

Inductive result (A : Type) : Type :=
| Ok (a : A)
| Raise (e : exn).
Arguments Ok {A} a.
Arguments Raise {A} e.

(** [x / y] on floats, which raises on a zero divisor. *)
Definition py_div (x y : Q) : result Q :=
  if Qeq_bool y 0 then Raise ZeroDivisionError else Ok (x / y)%Q.

(** [round(x, ndigits)]: to the nearest multiple of [10^-ndigits], a tie
    going to the even one. *)
Definition py_round (x : Q) (ndigits : nat) : Q :=
  let s := inject_Z (10 ^ Z.of_nat ndigits) in
  let y := (x * s)%Q in
  let lo := Qfloor y in
  let r := (y - inject_Z lo)%Q in
  let n := if Qltb r (1 # 2) then lo
           else if Qltb (1 # 2) r then lo + 1
           else if Z.even lo then lo else lo + 1 in
  (inject_Z n / s)%Q.

(** ** routes/speed_routes.py: the route handlers *)

Module SpeedRoutes.
Import SpeedRecommendationEngine.

(** An element of the request's ['waypoints']; ['speed_limit'] may be
    absent. *)
Record Waypoint : Type := {
  wp_lat : Q;
  wp_lng : Q;
  wp_speed_limit : option Z
}.

(** The JSON body of the request: ['waypoints'] (an absent key reads as the
    empty list) and the optional ['search_radius_km']. *)
Record Request : Type := {
  req_waypoints : list Waypoint;
  req_search_radius_km : option Q
}.

(** An element of a recommendation's ['hazards']; type and severity stand
    for the [.value] strings of the enumeration members. *)
Record HazardDetail : Type := {
  hd_id : Z;
  hd_type : HazardType;
  hd_severity : SeverityLevel;
  distance_km : Q;
  hd_road_name : string
}.

Record Recommendation : Type := {
  waypoint_index : nat;
  location : Location (N := exact);
  speed_limit : Z;
  recommended_speed : Z;
  speed_reduction : Z;
  hazards_count : nat;
  hazards : list HazardDetail
}.

Inductive SafetyLevel : Set := safe | low_risk | moderate_risk | high_risk.

(** The value of ['route_analysis']. *)
Record RouteAnalysis : Type := {
  total_waypoints : nat;
  total_hazards : nat;
  average_speed_reduction : Q;
  safety_level : SafetyLevel;
  hazard_distribution : list (HazardType * nat);
  severity_distribution : nat * nat * nat;
  most_dangerous_segment : option Recommendation;
  estimated_extra_time_minutes : Q
}.

Inductive Body : Type :=
| ErrorBody (error : string)
| RecommendationsBody (recommendations : list Recommendation)
    (search_radius_km : Q) (total_waypoints : nat)
| RouteAnalysisBody (route_analysis : RouteAnalysis)
    (detailed_recommendations : list Recommendation).

(** What a handler returns: [jsonify(...)] alone, or the tuple
    [(jsonify(...), status)]. *)
Inductive Returned : Type :=
| Response (body : Body)
| ResponseWithStatus (body : Body) (status : Z).

(** [r[0]]: the first component of a tuple; a bare response object has no
    item access. *)
Definition getitem0 (r : Returned) : result Body :=
  match r with
  | ResponseWithStatus body _ => Ok body
  | Response _ => Raise TypeError
  end.

(** [str(e)] for the exceptions of this model. *)
Definition str (e : exn) : string :=
  match e with
  | TypeError => "'Response' object is not subscriptable"
  | ZeroDivisionError => "division by zero"
  | IndexError => "list index out of range"
  | ValueError => "math domain error"
  | OverflowError => "int too large to convert to float"
  end.

Section Handlers.
Context {M : MathLib Q}.
Local Open Scope Q_scope.

(** [Hazard.query.filter(and_(...)).all()] over the rows of the table, in
    the order the database returns them. *)
Definition query_hazards (db : list (Hazard (N := exact))) (lat lng radius_deg : Q)
  : list Hazard :=
  filter (fun h : Hazard =>
            Qle_bool (lat - radius_deg) (latitude h)
            && Qle_bool (latitude h) (lat + radius_deg)
            && Qle_bool (lng - radius_deg) (longitude h)
            && Qle_bool (longitude h) (lng + radius_deg)) db.

(** The loop that builds [hazard_details]. *)
Fixpoint hazard_details_of (lat lng search_radius_km : Q) (hazards : list Hazard)
  : list HazardDetail :=
  match hazards with
  | [] => []
  | hazard :: rest =>
      let distance := calculate_distance lat lng (latitude hazard) (longitude hazard) in
      if Qle_bool distance search_radius_km then
        {| hd_id := id hazard;
           hd_type := hazard_type hazard;
           hd_severity := severity_level hazard;
           distance_km := py_round distance 2;
           hd_road_name := road_name hazard |}
        :: hazard_details_of lat lng search_radius_km rest
      else hazard_details_of lat lng search_radius_km rest
  end.

(** The body of the loop over [enumerate(waypoints)]. *)
Definition recommend_waypoint (db : list Hazard) (search_radius_km : Q)
    (i : nat) (waypoint : Waypoint) : Recommendation :=
  let lat := wp_lat waypoint in
  let lng := wp_lng waypoint in
  let speed_limit := match wp_speed_limit waypoint with Some v => v | None => 50%Z end in
  let radius_deg := search_radius_km / 111 in
  let hazards := query_hazards db lat lng radius_deg in
  let recommended_speed :=
    calculate_recommended_speed {| lat := lat; lng := lng |} hazards speed_limit in
  let hazard_details := hazard_details_of lat lng search_radius_km hazards in
  {| waypoint_index := i;
     location := {| lat := lat; lng := lng |};
     speed_limit := speed_limit;
     recommended_speed := recommended_speed;
     speed_reduction := (speed_limit - recommended_speed)%Z;
     hazards_count := List.length hazard_details;
     hazards := hazard_details |}.

Fixpoint recommend_from (db : list Hazard) (search_radius_km : Q)
    (i : nat) (waypoints : list Waypoint) : list Recommendation :=
  match waypoints with
  | [] => []
  | waypoint :: rest =>
      recommend_waypoint db search_radius_km i waypoint
      :: recommend_from db search_radius_km (S i) rest
  end.

(** The answer of the handler when nothing is raised in its [try] block;
    the handler with its [except] branch is
    [Raising.get_speed_recommendations] below. *)
Definition get_speed_recommendations (request : Request) (db : list Hazard) : Returned :=
  let waypoints := req_waypoints request in
  let search_radius_km :=
    match req_search_radius_km request with Some r => r | None => 1 end in
  match waypoints with
  | [] => ResponseWithStatus (ErrorBody "No waypoints provided") 400
  | _ :: _ =>
      Response (RecommendationsBody
                  (recommend_from db search_radius_km 0 waypoints)
                  search_radius_km (List.length waypoints))
  end.

End Handlers.

(** [max(recommendations, key=lambda x: x['speed_reduction'])]: the first
    element whose key is maximal. *)
Fixpoint max_by_reduction (best : Recommendation) (rest : list Recommendation)
  : Recommendation :=
  match rest with
  | [] => best
  | x :: rest' =>
      if (speed_reduction best <? speed_reduction x)%Z
      then max_by_reduction x rest'
      else max_by_reduction best rest'
  end.

(** [hazard_types[t] = hazard_types.get(t, 0) + 1] on a dictionary kept in
    insertion order. *)
Fixpoint count_type (t : HazardType) (d : list (HazardType * nat))
  : list (HazardType * nat) :=
  match d with
  | [] => [(t, 1%nat)]
  | (k, n) :: d' =>
      if match k, t with
         | POTHOLE, POTHOLE | CRACK, CRACK | DEBRIS, DEBRIS
         | CONSTRUCTION, CONSTRUCTION | FLOODING, FLOODING => true
         | _, _ => false
         end
      then (k, S n) :: d'
      else (k, n) :: count_type t d'
  end.

(** [severity_distribution[s] += 1] on the counts of (low, medium, high). *)
Definition count_severity (s : SeverityLevel) (d : nat * nat * nat) : nat * nat * nat :=
  let '(l, m, h) := d in
  match s with
  | LOW => (S l, m, h)
  | MEDIUM => (l, S m, h)
  | HIGH => (l, m, S h)
  end.

(** The summary computed from the list of recommendations (from
    [# Analyze route safety] to the returned dictionary). *)
Definition route_analysis_of (n_waypoints : nat) (recommendations : list Recommendation)
  : RouteAnalysis :=
  let total_hazards := fold_left (fun acc r => (acc + hazards_count r)%nat) recommendations 0%nat in
  let total_speed_reduction :=
    fold_left (fun acc r => (acc + speed_reduction r)%Z) recommendations 0%Z in
  let avg_speed_reduction :=
    match recommendations with
    | [] => 0%Q
    | _ :: _ => (inject_Z total_speed_reduction
                 / inject_Z (Z.of_nat (List.length recommendations)))%Q
    end in
  let safety_level :=
    if (total_hazards =? 0)%nat then safe
    else if Qle_bool avg_speed_reduction 10 then low_risk
    else if Qle_bool avg_speed_reduction 20 then moderate_risk
    else high_risk in
  let most_dangerous :=
    match recommendations with
    | [] => None
    | r :: rest => Some (max_by_reduction r rest)
    end in
  let all_hazards := flat_map hazards recommendations in
  {| total_waypoints := n_waypoints;
     total_hazards := total_hazards;
     average_speed_reduction := py_round avg_speed_reduction 1;
     safety_level := safety_level;
     hazard_distribution :=
       fold_left (fun d h => count_type (hd_type h) d) all_hazards [];
     severity_distribution :=
       fold_left (fun d h => count_severity (hd_severity h) d) all_hazards (0, 0, 0)%nat;
     most_dangerous_segment := most_dangerous;
     estimated_extra_time_minutes :=
       py_round (inject_Z total_speed_reduction * (1 # 10)) 1 |}.

(** The handler calls [get_speed_recommendations()] and reads
    [recommendations_response[0].get_json()]; an exception is turned into
    a 500 response by the [except] branch. *)
Definition analyze_route_safety {M : MathLib Q} (request : Request) (db : list Hazard)
  : Returned :=
  let waypoints := req_waypoints request in
  match waypoints with
  | [] => ResponseWithStatus (ErrorBody "No waypoints provided") 400
  | _ :: _ =>
      let recommendations_response := get_speed_recommendations request db in
      match getitem0 recommendations_response with
      | Raise e => ResponseWithStatus (ErrorBody (str e)) 500
      | Ok recommendations_data =>
          match recommendations_data with
          | RecommendationsBody recommendations _ _ =>
              Response (RouteAnalysisBody
                          (route_analysis_of (List.length waypoints) recommendations)
                          recommendations)
          | _ => ResponseWithStatus (ErrorBody "Failed to get recommendations") 500
          end
      end
  end.

End SpeedRoutes.

(** ** utils/gps_simulator.py *)

(** *** The [random] module

    The generator is global state: an unbounded sequence of draws from
    [0, 1) and a cursor into it.  Code that draws is written in the state
    monad [Rand]. *)

Record Rng : Type := { draws : nat -> Q; cursor : nat }.

Definition Rand (A : Type) : Type := Rng -> A * Rng.

Definition ret {A : Type} (a : A) : Rand A := fun g => (a, g).

Definition bind {A B : Type} (m : Rand A) (k : A -> Rand B) : Rand B :=
  fun g => let (a, g') := m g in k a g'.

Notation "x <- m ;; k" := (bind m (fun x => k))
  (at level 61, m at next level, right associativity).

(** [random.random()] *)
Definition random : Rand Q :=
  fun g => (draws g (cursor g), {| draws := draws g; cursor := S (cursor g) |}).

(** [random.uniform(a, b)], which is [a + (b - a) * random()]. *)
Definition uniform (a b : Q) : Rand Q :=
  u <- random ;; ret (a + (b - a) * u)%Q.

(** [random.randint(a, b)], read as one draw scaled to [a..b]. *)
Definition randint (a b : Z) : Rand Z :=
  u <- random ;; ret (a + Qfloor (u * inject_Z (b - a + 1)))%Z.

(** [x % m] on floats, for a positive [m]. *)
Definition py_mod (x m : Q) : Q := (x - m * inject_Z (Qfloor (x / m)))%Q.

Inductive RoadName : Type :=
| Named (name : string)
(** [f"Local Road {n}"] *)
| LocalRoad (n : Z).

(** The dictionary returned by [get_current_position]. *)
Record Position : Type := {
  pos_timestamp : string;
  pos_latitude : Q;
  pos_longitude : Q;
  pos_speed : Q;
  pos_heading : Q;
  pos_accuracy : Q;
  pos_altitude : Q;
  pos_road_name : RoadName
}.

Module GPSSimulator.

Record t : Type := {
  current_lat : Q;
  current_lng : Q;
  speed_kmh : Q;
  heading : Q;
  accuracy : Q
}.

Section Methods.
Context {M : MathLib Q}.
Local Open Scope Q_scope.

(** [__init__]; [speed_kmh] defaults to 50. *)
Definition init (start_lat start_lng speed_kmh : Q) : Rand t :=
  heading <- uniform 0 360 ;;
  accuracy <- uniform 3 8 ;;
  ret {| current_lat := start_lat;
         current_lng := start_lng;
         speed_kmh := speed_kmh;
         heading := heading;
         accuracy := accuracy |}.

Definition calculate_new_position (self : t) (time_delta_seconds : Q) : Q * Q :=
  let speed_ms := speed_kmh self * 1000 / 3600 in
  let distance_m := speed_ms * time_delta_seconds in
  let distance_deg := distance_m / 111320 in
  let lat_change := distance_deg * m_cos (radians (N := exact) (heading self)) in
  let lng_change := distance_deg * m_sin (radians (N := exact) (heading self)) in
  let new_lat := current_lat self + lat_change in
  let new_lng := current_lng self + lng_change in
  (new_lat, new_lng).

Definition add_noise (self : t) (lat lng : Q) : Rand (Q * Q) :=
  let noise_range := accuracy self / 111320 in
  lat_noise <- uniform (- noise_range) noise_range ;;
  lng_noise <- uniform (- noise_range) noise_range ;;
  ret (lat + lat_noise, lng + lng_noise).

Definition update_heading (self : t) : Rand t :=
  r <- random ;;
  if Qltb r (1 # 10) then
    heading_change <- uniform (-30) 30 ;;
    ret {| current_lat := current_lat self;
           current_lng := current_lng self;
           speed_kmh := speed_kmh self;
           heading := py_mod (heading self + heading_change) 360;
           accuracy := accuracy self |}
  else ret self.

Definition update_speed (self : t) : Rand t :=
  r <- random ;;
  if Qltb r (5 # 100) then
    speed_change <- uniform (-10) 10 ;;
    ret {| current_lat := current_lat self;
           current_lng := current_lng self;
           speed_kmh :=
             py_max (N := exact) 20 (py_min (N := exact) 80 (speed_kmh self + speed_change));
           heading := heading self;
           accuracy := accuracy self |}
  else ret self.

Definition get_road_name (lat lng : Q) : Rand RoadName :=
  if Qle_bool (3401 # 100) lat && Qle_bool lat (3402 # 100)
     && Qle_bool (7151 # 100) lng && Qle_bool lng (7153 # 100)
  then ret (Named "University Road")
  else if Qle_bool 34 lat && Qle_bool lat (3401 # 100)
          && Qle_bool (7154 # 100) lng && Qle_bool lng (7157 # 100)
  then ret (Named "GT Road")
  else if Qle_bool (3398 # 100) lat && Qle_bool lat 34
          && Qle_bool (7147 # 100) lng && Qle_bool lng (715 # 10)
  then ret (Named "Ring Road")
  else if Qle_bool 34 lat && Qle_bool lat (3401 # 100)
          && Qle_bool (7153 # 100) lng && Qle_bool lng (7155 # 100)
  then ret (Named "Jamrud Road")
  else n <- randint 1 100 ;; ret (LocalRoad n).

(** [now] is the reading of [datetime.utcnow().isoformat()]. *)
Definition get_current_position (self : t) (now : string) : Rand Position :=
  noisy <- add_noise self (current_lat self) (current_lng self) ;;
  let (noisy_lat, noisy_lng) := (noisy : Q * Q) in
  altitude <- uniform 300 600 ;;
  road <- get_road_name noisy_lat noisy_lng ;;
  ret {| pos_timestamp := now;
         pos_latitude := py_round noisy_lat 6;
         pos_longitude := py_round noisy_lng 6;
         pos_speed := py_round (speed_kmh self) 1;
         pos_heading := py_round (heading self) 1;
         pos_accuracy := py_round (accuracy self) 1;
         pos_altitude := altitude;
         pos_road_name := road |}.

Definition move (self : t) (time_delta_seconds : Q) : Rand t :=
  let (new_lat, new_lng) := calculate_new_position self time_delta_seconds in
  let self := {| current_lat := new_lat;
                 current_lng := new_lng;
                 speed_kmh := speed_kmh self;
                 heading := heading self;
                 accuracy := accuracy self |} in
  self <- update_heading self ;;
  self <- update_speed self ;;
  accuracy <- uniform 3 8 ;;
  ret {| current_lat := current_lat self;
         current_lng := current_lng self;
         speed_kmh := speed_kmh self;
         heading := heading self;
         accuracy := accuracy |}.

(** A run of [move] calls, one per time delta. *)
Fixpoint moves (self : t) (time_deltas : list Q) : Rand t :=
  match time_deltas with
  | [] => ret self
  | dt :: rest => self <- move self dt ;; moves self rest
  end.

End Methods.
End GPSSimulator.

Module RouteSimulator.

Record t : Type := {
  waypoints : list (Location (N := exact));
  current_waypoint_index : nat;
  speed_kmh : Q;
  progress : Q;
  gps_simulator : GPSSimulator.t
}.

Section Methods.
Context {M : MathLib Q}.
Local Open Scope Q_scope.

(** [__init__]; [speed_kmh] defaults to 50.  [waypoints[0]] raises on an
    empty list, before the embedded simulator draws. *)
Definition init (waypoints : list Location) (speed_kmh : Q) : Rand (result t) :=
  match waypoints with
  | [] => ret (Raise IndexError)
  | first :: _ =>
      gps <- GPSSimulator.init (lat first) (lng first) speed_kmh ;;
      ret (Ok {| waypoints := waypoints;
                 current_waypoint_index := 0;
                 speed_kmh := speed_kmh;
                 progress := 0;
                 gps_simulator := gps |})
  end.

(** [self.current_waypoint_index >= len(self.waypoints) - 1] *)
Definition at_end (self : t) : bool :=
  (Z.of_nat (List.length (waypoints self)) - 1 <=? Z.of_nat (current_waypoint_index self))%Z.

(** The static method, a second copy of the engine's haversine formula. *)
Definition calculate_distance (lat1 lng1 lat2 lng2 : Q) : Q :=
  let R := 6371 in
  let lat1_rad := radians (N := exact) lat1 in
  let lat2_rad := radians (N := exact) lat2 in
  let delta_lat := radians (N := exact) (lat2 - lat1) in
  let delta_lng := radians (N := exact) (lng2 - lng1) in
  let a := m_sin (delta_lat / 2) * m_sin (delta_lat / 2)
           + m_cos lat1_rad * m_cos lat2_rad
             * m_sin (delta_lng / 2) * m_sin (delta_lng / 2) in
  let c := 2 * m_atan2 (m_sqrt a) (m_sqrt (1 - a)) in
  R * c.

Definition get_current_position (self : t) (now : string) : Rand (result (Position * t)) :=
  if at_end self then
    p <- GPSSimulator.get_current_position (gps_simulator self) now ;;
    ret (Ok (p, self))
  else
    match nth_error (waypoints self) (current_waypoint_index self),
          nth_error (waypoints self) (current_waypoint_index self + 1) with
    | Some current, Some next_wp =>
        let lat' := lat current + (lat next_wp - lat current) * progress self in
        let lng' := lng current + (lng next_wp - lng current) * progress self in
        let gps := {| GPSSimulator.current_lat := lat';
                      GPSSimulator.current_lng := lng';
                      GPSSimulator.speed_kmh := GPSSimulator.speed_kmh (gps_simulator self);
                      GPSSimulator.heading := GPSSimulator.heading (gps_simulator self);
                      GPSSimulator.accuracy := GPSSimulator.accuracy (gps_simulator self) |} in
        p <- GPSSimulator.get_current_position gps now ;;
        ret (Ok (p, {| waypoints := waypoints self;
                       current_waypoint_index := current_waypoint_index self;
                       speed_kmh := speed_kmh self;
                       progress := progress self;
                       gps_simulator := gps |}))
    | _, _ => ret (Raise IndexError)
    end.

(** [distance_increment], when the division does not raise. *)
Definition distance_increment (self : t) (time_delta_seconds : Q)
    (current next_wp : Location) : result Q :=
  let speed_ms := speed_kmh self * 1000 / 3600 in
  let distance_m := speed_ms * time_delta_seconds in
  let total_distance :=
    calculate_distance (lat current) (lng current) (lat next_wp) (lng next_wp) in
  py_div distance_m (total_distance * 1000).

(** [move] draws nothing and does not touch the embedded simulator. *)
Definition move (self : t) (time_delta_seconds : Q) : result t :=
  if at_end self then Ok self
  else
    match nth_error (waypoints self) (current_waypoint_index self),
          nth_error (waypoints self) (current_waypoint_index self + 1) with
    | Some current, Some next_wp =>
        match distance_increment self time_delta_seconds current next_wp with
        | Raise e => Raise e
        | Ok distance_increment =>
            let progress' := progress self + distance_increment in
            if Qle_bool 1 progress' then
              Ok {| waypoints := waypoints self;
                    current_waypoint_index := current_waypoint_index self + 1;
                    speed_kmh := speed_kmh self;
                    progress := 0;
                    gps_simulator := gps_simulator self |}
            else
              Ok {| waypoints := waypoints self;
                    current_waypoint_index := current_waypoint_index self;
                    speed_kmh := speed_kmh self;
                    progress := progress';
                    gps_simulator := gps_simulator self |}
        end
    | _, _ => Raise IndexError
    end.

(** The simulators obtained from a constructed one by calls of [move]
    that return. *)
Inductive reachable (s0 : t) : t -> Prop :=
| reach_init : reachable s0 s0
| reach_move : forall s s' dt, reachable s0 s -> move s dt = Ok s' -> reachable s0 s'.

End Methods.
End RouteSimulator.

(** * Notions used by the statements *)

Import SpeedRecommendationEngine.
Import SpeedRoutes.

(** The step function as the specification words it: among the thresholds
    that are at least the distance, the smallest one gives the factor; [0]
    when the distance exceeds every threshold. *)
Definition reference_thresholds : list (Q * Q) :=
  [ (1 # 10, 1); (2 # 10, 8 # 10); (5 # 10, 5 # 10); (1, 2 # 10); (2, 1 # 10) ]%Q.

Definition smaller_threshold (best x : Q * Q) : Q * Q :=
  if Qltb (fst x) (fst best) then x else best.

Definition reference_distance_factor (d : Q) : Q :=
  match filter (fun tf => Qle_bool d (fst tf)) reference_thresholds with
  | [] => 0%Q
  | tf :: rest => snd (fold_left smaller_threshold rest tf)
  end.

(** The entry of ['hazards'] built for one hazard. *)
Definition detail_of {M : MathLib Q} (lat lng : Q) (hazard : Hazard (N := exact))
  : HazardDetail :=
  {| hd_id := id hazard;
     hd_type := hazard_type hazard;
     hd_severity := severity_level hazard;
     distance_km :=
       py_round (calculate_distance lat lng (latitude hazard) (longitude hazard)) 2;
     hd_road_name := road_name hazard |}.

(** [distance <= search_radius_km] *)
Definition within_radius {M : MathLib Q} (lat lng search_radius_km : Q)
    (hazard : Hazard (N := exact)) : bool :=
  Qle_bool (calculate_distance lat lng (latitude hazard) (longitude hazard))
           search_radius_km.

(** The distances of a list of details are in ascending order. *)
Fixpoint ascending (l : list Q) : bool :=
  match l with
  | [] => true
  | x :: rest =>
      match rest with
      | [] => true
      | y :: _ => Qle_bool x y && ascending rest
      end
  end.

(** What the haversine formula needs of the math library where two points
    coincide: [sin 0 = 0], [sqrt 0 = 0], [sqrt 1 > 0] and [atan2(0, x) = 0]
    for positive [x]. *)
Record MathAtZero (M : MathLib Q) : Prop := {
  sin_zero : forall x : Q, (x == 0)%Q -> (m_sin x == 0)%Q;
  sqrt_zero : forall x : Q, (x == 0)%Q -> (m_sqrt x == 0)%Q;
  sqrt_one : forall x : Q, (x == 1)%Q -> (0 < m_sqrt x)%Q;
  atan2_zero : forall y x : Q, (y == 0)%Q -> (0 < x)%Q -> (m_atan2 y x == 0)%Q
}.

(** [move] at a state short of the last waypoint where the progress,
    once incremented, reaches 1. *)
Definition advanced (s : RouteSimulator.t) : RouteSimulator.t :=
  {| RouteSimulator.waypoints := RouteSimulator.waypoints s;
     RouteSimulator.current_waypoint_index := RouteSimulator.current_waypoint_index s + 1;
     RouteSimulator.speed_kmh := RouteSimulator.speed_kmh s;
     RouteSimulator.progress := 0;
     RouteSimulator.gps_simulator := RouteSimulator.gps_simulator s |}.

(** [move] where the incremented progress stays below 1. *)
Definition progressed (s : RouteSimulator.t) (inc : Q) : RouteSimulator.t :=
  {| RouteSimulator.waypoints := RouteSimulator.waypoints s;
     RouteSimulator.current_waypoint_index := RouteSimulator.current_waypoint_index s;
     RouteSimulator.speed_kmh := RouteSimulator.speed_kmh s;
     RouteSimulator.progress := (RouteSimulator.progress s + inc)%Q;
     RouteSimulator.gps_simulator := RouteSimulator.gps_simulator s |}.

(** * Concrete inputs *)

(** A point on University Road, Peshawar, and a high-severity pothole
    reported at that very point. *)
Definition university_road {N : PyFloat} : Location :=
  {| lat := dec 340151 4; lng := dec 715249 4 |}.

Definition pothole_here {N : PyFloat} : Hazard :=
  {| id := 1;
     latitude := dec 340151 4;
     longitude := dec 715249 4;
     hazard_type := POTHOLE;
     severity_level := HIGH;
     road_name := "University Road" |}.

(** Two hazards north of that point, about 0.56 km and 0.11 km away, and
    a request with the point as its only waypoint. *)
Definition far_pothole : Hazard (N := exact) :=
  {| id := 1;
     latitude := dec 340201 4;
     longitude := dec 715249 4;
     hazard_type := POTHOLE;
     severity_level := LOW;
     road_name := "University Road" |}.

Definition near_crack : Hazard (N := exact) :=
  {| id := 2;
     latitude := dec 340161 4;
     longitude := dec 715249 4;
     hazard_type := CRACK;
     severity_level := MEDIUM;
     road_name := "University Road" |}.

Definition campus_waypoint (speed_limit : Z) : Waypoint :=
  {| wp_lat := dec (N := exact) 340151 4;
     wp_lng := dec (N := exact) 715249 4;
     wp_speed_limit := Some speed_limit |}.

Definition one_waypoint (speed_limit : Z) : Request :=
  {| req_waypoints := [ campus_waypoint speed_limit ];
     req_search_radius_km := None |}.

Definition first_hazards (r : Returned) : list HazardDetail :=
  match r with
  | Response (RecommendationsBody (rec :: _) _ _) => hazards rec
  | _ => []
  end.

(** The speed limits [lo], [lo + 1], ..., [lo + count - 1]. *)
Definition limits_from (lo : Z) (count : nat) : list Z :=
  map (fun k => lo + Z.of_nat k) (seq 0 count).

(** An empty waypoint list of a concrete request. *)
Definition no_waypoints : Request :=
  {| req_waypoints := []; req_search_radius_km := None |}.

(** The recommendations and their summary for one waypoint with speed
    limit 10 over an empty hazard table. *)
Definition slow_zone : list Recommendation :=
  recommend_from (M := approx_math) [] 1 0 [campus_waypoint 10].

(** A generator whose every draw is 0.125. *)
Definition steady_rng : Rng := {| draws := fun _ => 1 # 8; cursor := 0 |}.

(** Two waypoints, and the route simulator that [__init__] constructs
    for a route starting at the first of them, drawing from [steady_rng]. *)
Definition campus : Location (N := exact) :=
  {| lat := 340151 # 10000; lng := 715249 # 10000 |}.

Definition gt_road : Location (N := exact) :=
  {| lat := 340089 # 10000; lng := 715456 # 10000 |}.

Definition constructed (waypoints : list (Location (N := exact))) (speed : Q)
  : RouteSimulator.t :=
  {| RouteSimulator.waypoints := waypoints;
     RouteSimulator.current_waypoint_index := 0;
     RouteSimulator.speed_kmh := speed;
     RouteSimulator.progress := 0;
     RouteSimulator.gps_simulator :=
       fst (GPSSimulator.init (340151 # 10000) (715249 # 10000) speed steady_rng) |}.

(** The simulator of the route from the campus to GT Road, about 2.03 km
    long, as constructed and after one call of [move]; and a simulator
    whose route has a single waypoint, which is at its last waypoint from
    the start. *)
Definition campus_to_gt_road : RouteSimulator.t := constructed [campus; gt_road] 60.

Definition after_one_move : RouteSimulator.t :=
  match RouteSimulator.move (M := approx_math) campus_to_gt_road 1 with
  | Ok s => s
  | Raise _ => campus_to_gt_road
  end.

Definition parked : RouteSimulator.t := constructed [campus] 50.

(** * Further notions used by the statements *)

(** The contribution of one hazard to the total impact: what the loop adds
    for it. *)
Definition impact_of {M : MathLib Q} (loc : Location (N := exact))
    (hazard : Hazard (N := exact)) : Q :=
  add_impact loc 0%Q hazard.

(** The sum of the contributions of a list of hazards. *)
Definition sum_impacts {M : MathLib Q} (loc : Location (N := exact))
    (hazards : list (Hazard (N := exact))) : Q :=
  fold_right (fun h acc => (impact_of loc h + acc)%Q) 0%Q hazards.

(** The last two statements of [calculate_recommended_speed], as a
    function of the total impact. *)
Definition speed_at_impact (base_speed_limit : Z) (total_impact : Q) : Z :=
  Z.max (Qtruncate (inject_Z base_speed_limit
                    * (1 - py_min (N := exact) total_impact (8 # 10)))) 20.

(** The distance from a point to a hazard. *)
Definition distance_to {M : MathLib Q} (loc : Location (N := exact))
    (hazard : Hazard (N := exact)) : Q :=
  calculate_distance (lat loc) (lng loc) (latitude hazard) (longitude hazard).

(** Debris reported at the GT Road waypoint, a little more than 2 km from
    the point on University Road. *)
Definition gt_road_debris : Hazard (N := exact) :=
  {| id := 3;
     latitude := 340089 # 10000;
     longitude := 715456 # 10000;
     hazard_type := DEBRIS;
     severity_level := HIGH;
     road_name := "GT Road" |}.

(** The sum of the counts of a hazard-type histogram. *)
Definition histogram_total (d : list (HazardType * nat)) : nat :=
  fold_right (fun kn acc => (snd kn + acc)%nat) 0%nat d.

(** The sum of the three counts of the severity histogram. *)
Definition severity_total (d : nat * nat * nat) : nat :=
  let '(l, m, h) := d in (l + m + h)%nat.

(** The recommendations for the one-waypoint request over the table of
    the two hazards. *)
Definition campus_recommendations : list Recommendation :=
  recommend_from (M := approx_math) [far_pothole; near_crack] 1 0 [campus_waypoint 60].

(** Every draw of the generator lies in [0, 1), as [random.random()]
    promises. *)
Definition unit_draws (g : Rng) : Prop :=
  forall n : nat, (0 <= draws g n < 1)%Q.

(** A computation that draws advances the cursor and leaves the sequence
    of draws alone. *)
Definition keeps_draws {A : Type} (m : Rand A) : Prop :=
  forall g : Rng, draws (snd (m g)) = draws g.

(** * Further parts of the program *)

(** ** models/hazard.py: the whole row *)

(** [member.value] of the two enumerations. *)
Definition HazardType_value (t : HazardType) : string :=
  match t with
  | POTHOLE => "pothole"
  | CRACK => "crack"
  | DEBRIS => "debris"
  | CONSTRUCTION => "construction"
  | FLOODING => "flooding"
  end.

Definition SeverityLevel_value (s : SeverityLevel) : string :=
  match s with
  | LOW => "low"
  | MEDIUM => "medium"
  | HIGH => "high"
  end.

(** A row of the table: the columns read by the recommendation engine
    together with the others, the geometry apart.  The timestamp is kept
    in its ISO format. *)
Record HazardRow : Type := {
  columns : Hazard (N := exact);
  detection_timestamp : string;
  confidence_score : option Q;
  image_path : option string;
  row_speed_limit : Z;
  row_recommended_speed : Z;
  verified : option bool;
  area : string;
  weather_condition : option string
}.

(** The dictionary of [to_dict], key by key. *)
Record HazardDict : Type := {
  d_id : Z;
  d_latitude : Q;
  d_longitude : Q;
  d_hazard_type : string;
  d_severity_level : string;
  d_detection_timestamp : string;
  d_confidence_score : option Q;
  d_image_path : option string;
  d_speed_limit : Z;
  d_recommended_speed : Z;
  d_verified : option bool;
  d_road_name : string;
  d_area : string;
  d_weather_condition : option string
}.

Definition to_dict (self : HazardRow) : HazardDict :=
  {| d_id := id (columns self);
     d_latitude := latitude (columns self);
     d_longitude := longitude (columns self);
     d_hazard_type := HazardType_value (hazard_type (columns self));
     d_severity_level := SeverityLevel_value (severity_level (columns self));
     d_detection_timestamp := detection_timestamp self;
     d_confidence_score := confidence_score self;
     d_image_path := image_path self;
     d_speed_limit := row_speed_limit self;
     d_recommended_speed := row_recommended_speed self;
     d_verified := verified self;
     d_road_name := road_name (columns self);
     d_area := area self;
     d_weather_condition := weather_condition self |}.

(** [Hazard.query.filter(and_(latitude >= min_lat, latitude <= max_lat,
    longitude >= min_lng, longitude <= max_lng)).all()] over the rows of the
    table, in the order the database returns them. *)
Definition rows_in_box (db : list HazardRow) (min_lat max_lat min_lng max_lng : Q)
  : list HazardRow :=
  filter (fun h : HazardRow =>
            Qle_bool min_lat (latitude (columns h))
            && Qle_bool (latitude (columns h)) max_lat
            && Qle_bool min_lng (longitude (columns h))
            && Qle_bool (longitude (columns h)) max_lng) db.

(** [not x] for the value of [request.args.get(name, type=float)]: true
    for a parameter that is absent or unreadable, and for zero. *)
Definition not_ (x : option Q) : bool :=
  match x with
  | None => true
  | Some v => Qeq_bool v 0
  end.

(** ** routes/speed_routes.py: the recommendation for one location *)

Module SpeedLocationRoute.


(** The query parameters after conversion: [None] for one that is absent
    or does not convert. *)
Record Args : Type := {
  arg_lat : option Q;
  arg_lng : option Q;
  arg_speed_limit : option Z;
  arg_radius_km : option Q
}.

(** An element of ['hazards']: the keys of the route handler's element and
    ['recommended_speed']. *)
Record LocationHazardDetail : Type := {
  detail : HazardDetail;
  hd_recommended_speed : Z
}.

Record LocationBody : Type := {
  loc_location : Location (N := exact);
  loc_speed_limit : Z;
  loc_recommended_speed : Z;
  loc_speed_reduction : Z;
  loc_hazards_count : nat;
  loc_hazards : list LocationHazardDetail;
  safety_status : string
}.

Inductive LocationReturned : Type :=
| LocationResponse (body : LocationBody)
| LocationError (error : string) (status : Z).

Section Handler.
Context {M : MathLib Q}.
Local Open Scope Q_scope.

(** The loop that builds [hazard_details]. *)
Fixpoint location_details_of (lat lng radius_km : Q) (hazards : list HazardRow)
  : list LocationHazardDetail :=
  match hazards with
  | [] => []
  | hazard :: rest =>
      let distance :=
        calculate_distance lat lng (latitude (columns hazard)) (longitude (columns hazard)) in
      if Qle_bool distance radius_km then
        {| detail := {| hd_id := id (columns hazard);
                        hd_type := hazard_type (columns hazard);
                        hd_severity := severity_level (columns hazard);
                        distance_km := py_round distance 2;
                        hd_road_name := road_name (columns hazard) |};
           hd_recommended_speed := row_recommended_speed hazard |}
        :: location_details_of lat lng radius_km rest
      else location_details_of lat lng radius_km rest
  end.

(** As for the route handler, the answer when nothing is raised in the
    [try] block; the handler with its [except] branch is
    [Raising.get_location_speed_recommendation] below. *)
Definition get_location_speed_recommendation (args : Args) (db : list HazardRow)
  : LocationReturned :=
  let speed_limit := match arg_speed_limit args with Some v => v | None => 50%Z end in
  let radius_km := match arg_radius_km args with Some r => r | None => 1 end in
  if not_ (arg_lat args) || not_ (arg_lng args) then
    LocationError "Latitude and longitude are required" 400
  else
    match arg_lat args, arg_lng args with
    | Some lat, Some lng =>
        let radius_deg := radius_km / 111 in
        let hazards :=
          rows_in_box db (lat - radius_deg) (lat + radius_deg)
                         (lng - radius_deg) (lng + radius_deg) in
        let recommended_speed :=
          calculate_recommended_speed {| lat := lat; lng := lng |}
            (map columns hazards) speed_limit in
        let hazard_details := location_details_of lat lng radius_km hazards in
        LocationResponse
          {| loc_location := {| lat := lat; lng := lng |};
             loc_speed_limit := speed_limit;
             loc_recommended_speed := recommended_speed;
             loc_speed_reduction := (speed_limit - recommended_speed)%Z;
             loc_hazards_count := List.length hazard_details;
             loc_hazards := hazard_details;
             safety_status :=
               if (List.length hazard_details =? 0)%nat then "safe"
               else if Qltb (inject_Z speed_limit * (8 # 10)) (inject_Z recommended_speed)
                    then "caution"
                    else "danger" |}
    | _, _ => LocationError "Latitude and longitude are required" 400
    end.

End Handler.
End SpeedLocationRoute.

(** ** routes/hazard_routes.py: hazards near a point and along a route *)

Module HazardRoutes.

Record NearbyArgs : Type := {
  nearby_lat : option Q;
  nearby_lng : option Q;
  nearby_radius_km : option Q
}.

(** The JSON body of the route request: ['waypoints'] (an absent key reads
    as the empty list), each with ['lat'] and ['lng'], and the optional
    ['buffer_km']. *)
Record RouteData : Type := {
  route_waypoints : list (Location (N := exact));
  route_buffer_km : option Q
}.

Record RouteInfo : Type := {
  waypoints_count : nat;
  info_buffer_km : Q;
  hazards_found : nat
}.

Inductive Returned : Type :=
| NearbyResponse (hazards : list HazardDict) (center : Location (N := exact))
    (radius_km : Q) (count : nat)
| RouteResponse (hazards : list HazardDict) (route_info : RouteInfo)
| ErrorResponse (error : string) (status : Z).

(** [min(xs)] and [max(xs)] of a non-empty list, given as head and tail:
    the first of the smallest, respectively largest, elements. *)
Definition min_of (x : Q) (xs : list Q) : Q := fold_left (py_min (N := exact)) xs x.

Definition max_of (x : Q) (xs : list Q) : Q := fold_left (py_max (N := exact)) xs x.

Local Open Scope Q_scope.

Definition get_nearby_hazards (args : NearbyArgs) (db : list HazardRow) : Returned :=
  let radius_km := match nearby_radius_km args with Some r => r | None => 1 end in
  if not_ (nearby_lat args) || not_ (nearby_lng args) then
    ErrorResponse "Latitude and longitude are required" 400
  else
    match nearby_lat args, nearby_lng args with
    | Some lat, Some lng =>
        let radius_deg := radius_km / 111 in
        let hazards :=
          rows_in_box db (lat - radius_deg) (lat + radius_deg)
                         (lng - radius_deg) (lng + radius_deg) in
        NearbyResponse (map to_dict hazards) {| lat := lat; lng := lng |}
                       radius_km (List.length hazards)
    | _, _ => ErrorResponse "Latitude and longitude are required" 400
    end.

Definition get_hazards_along_route (data : RouteData) (db : list HazardRow) : Returned :=
  let waypoints := route_waypoints data in
  let buffer_km := match route_buffer_km data with Some b => b | None => 5 # 10 end in
  match waypoints with
  | [] => ErrorResponse "No waypoints provided" 400
  | wp :: rest =>
      let buffer_deg := buffer_km / 111 in
      let min_lat := min_of (lat wp) (map lat rest) - buffer_deg in
      let max_lat := max_of (lat wp) (map lat rest) + buffer_deg in
      let min_lng := min_of (lng wp) (map lng rest) - buffer_deg in
      let max_lng := max_of (lng wp) (map lng rest) + buffer_deg in
      let hazards := rows_in_box db min_lat max_lat min_lng max_lng in
      RouteResponse (map to_dict hazards)
                    {| waypoints_count := List.length waypoints;
                       info_buffer_km := buffer_km;
                       hazards_found := List.length hazards |}
  end.

End HazardRoutes.

(** A row for each of the two hazards near the campus. *)
Definition row_of (h : Hazard (N := exact)) (limit recommended : Z) : HazardRow :=
  {| columns := h;
     detection_timestamp := "2024-01-01T00:00:00";
     confidence_score := Some (9 # 10);
     image_path := None;
     row_speed_limit := limit;
     row_recommended_speed := recommended;
     verified := Some false;
     area := "University Town";
     weather_condition := None |}.

Definition campus_rows : list HazardRow :=
  [row_of far_pothole 60 54; row_of near_crack 60 45].

(** The waypoints of the route from the campus to GT Road. *)
Definition campus_to_gt_road_waypoints : list (Location (N := exact)) := [campus; gt_road].

(** ** data/dummy_data_generator.py *)

(** Computations that draw and may raise. *)
Definition bindE {A B : Type} (m : Rand (result A)) (k : A -> Rand (result B))
  : Rand (result B) :=
  r <- m ;;
  match r with
  | Ok a => k a
  | Raise e => ret (Raise e)
  end.

Definition lift {A : Type} (m : Rand A) : Rand (result A) :=
  a <- m ;; ret (Ok a).

Notation "x <-? m ;; k" := (bindE m (fun x => k))
  (at level 61, m at next level, right associativity).

(** [random.choice(seq)], read as one draw scaled to the indices of
    [seq]; it raises on an empty sequence. *)
Definition choice {A : Type} (seq : list A) : Rand (result A) :=
  u <- random ;;
  ret (match nth_error seq
               (Z.to_nat (Qfloor (u * inject_Z (Z.of_nat (List.length seq))))) with
       | Some a => Ok a
       | None => Raise IndexError
       end).

Module PeshawarHazardDataGenerator.
Local Open Scope Q_scope.

Record Bounds : Type := { lat_min : Q; lat_max : Q; lng_min : Q; lng_max : Q }.

Definition PESHAWAR_BOUNDS : Bounds :=
  {| lat_min := 339 # 10; lat_max := 341 # 10; lng_min := 714 # 10; lng_max := 717 # 10 |}.

Record Road : Type := {
  rd_name : string;
  rd_area : string;
  rd_speed_limit : Z;
  rd_coordinates : list (Q * Q)
}.

Definition MAJOR_ROADS : list Road :=
  [ {| rd_name := "GT Road"; rd_area := "Cantonment"; rd_speed_limit := 80;
       rd_coordinates := [ (340151 # 10000, 715249 # 10000);
                           (340089 # 10000, 715456 # 10000);
                           (340023 # 10000, 715678 # 10000) ] |};
    {| rd_name := "University Road"; rd_area := "University Town"; rd_speed_limit := 60;
       rd_coordinates := [ (340151 # 10000, 715249 # 10000);
                           (340198 # 10000, 715156 # 10000);
                           (340245 # 10000, 715089 # 10000) ] |};
    {| rd_name := "Ring Road"; rd_area := "Hayatabad"; rd_speed_limit := 80;
       rd_coordinates := [ (339889 # 10000, 714756 # 10000);
                           (339945 # 10000, 714689 # 10000);
                           (340012 # 10000, 714623 # 10000) ] |};
    {| rd_name := "Jamrud Road"; rd_area := "Board Bazaar"; rd_speed_limit := 50;
       rd_coordinates := [ (340151 # 10000, 715249 # 10000);
                           (340089 # 10000, 715356 # 10000);
                           (340023 # 10000, 715478 # 10000) ] |};
    {| rd_name := "Peshawar Road"; rd_area := "Saddar"; rd_speed_limit := 40;
       rd_coordinates := [ (340151 # 10000, 715249 # 10000);
                           (340198 # 10000, 715356 # 10000);
                           (340245 # 10000, 715478 # 10000) ] |};
    {| rd_name := "Charsadda Road"; rd_area := "Charsadda"; rd_speed_limit := 60;
       rd_coordinates := [ (340312 # 10000, 715234 # 10000);
                           (340378 # 10000, 715156 # 10000);
                           (340445 # 10000, 715089 # 10000) ] |};
    {| rd_name := "Kohat Road"; rd_area := "Kohat"; rd_speed_limit := 70;
       rd_coordinates := [ (340089 # 10000, 715456 # 10000);
                           (340023 # 10000, 715578 # 10000);
                           (339956 # 10000, 715689 # 10000) ] |};
    {| rd_name := "Warsak Road"; rd_area := "Warsak"; rd_speed_limit := 50;
       rd_coordinates := [ (340456 # 10000, 715123 # 10000);
                           (340523 # 10000, 715056 # 10000);
                           (340589 # 10000, 714989 # 10000) ] |} ].

(** The two dictionaries, in the order they are written, which is the
    order in which [.items()] yields them. *)
Definition HAZARD_TYPE_PROBABILITIES : list (HazardType * Q) :=
  [ (POTHOLE, 45 # 100); (CRACK, 25 # 100); (DEBRIS, 15 # 100);
    (CONSTRUCTION, 10 # 100); (FLOODING, 5 # 100) ].

Definition SEVERITY_PROBABILITIES : list (SeverityLevel * Q) :=
  [ (LOW, 60 # 100); (MEDIUM, 30 # 100); (HIGH, 10 # 100) ].

Definition WEATHER_CONDITIONS : list string :=
  [ "Clear"; "Partly Cloudy"; "Cloudy"; "Light Rain"; "Heavy Rain";
    "Dust Storm"; "Foggy"; "Hot"; "Mild"; "Cold" ]%string.

Definition generate_random_coordinate_near_road (road_data : Road) : Rand (result (Q * Q)) :=
  base_coord <-? choice (rd_coordinates road_data) ;;
  lat_offset <-? lift (uniform (- (1 # 1000)) (1 # 1000)) ;;
  lng_offset <-? lift (uniform (- (1 # 1000)) (1 # 1000)) ;;
  let lat := fst base_coord + lat_offset in
  let lng := snd base_coord + lng_offset in
  ret (Ok (lat, lng)).

Definition generate_random_coordinate_in_peshawar : Rand (Q * Q) :=
  lat <- uniform (lat_min PESHAWAR_BOUNDS) (lat_max PESHAWAR_BOUNDS) ;;
  lng <- uniform (lng_min PESHAWAR_BOUNDS) (lng_max PESHAWAR_BOUNDS) ;;
  ret (lat, lng).

(** The loop shared by the two selections: [None] when it ends without
    returning. *)
Fixpoint select_from {A : Type} (rand cumulative : Q) (items : list (A * Q)) : option A :=
  match items with
  | [] => None
  | (key, probability) :: rest =>
      let cumulative := cumulative + probability in
      if Qle_bool rand cumulative then Some key
      else select_from rand cumulative rest
  end.

Definition select_hazard_type : Rand HazardType :=
  rand <- random ;;
  ret (match select_from rand 0 HAZARD_TYPE_PROBABILITIES with
       | Some hazard_type => hazard_type
       | None => POTHOLE
       end).

Definition select_severity_level : Rand SeverityLevel :=
  rand <- random ;;
  ret (match select_from rand 0 SEVERITY_PROBABILITIES with
       | Some severity => severity
       | None => LOW
       end).

Definition calculate_recommended_speed (speed_limit : Z) (severity_level : SeverityLevel) : Z :=
  match severity_level with
  | HIGH => Z.max (Qtruncate (inject_Z speed_limit * (5 # 10))) 20
  | MEDIUM => Z.max (Qtruncate (inject_Z speed_limit * (75 # 100))) 25
  | LOW => Z.max (Qtruncate (inject_Z speed_limit * (90 # 100))) 30
  end.

(** The [timedelta] that [generate_detection_timestamp] subtracts from the
    clock's reading, in minutes. *)
Definition generate_detection_timestamp : Rand Z :=
  days_back <- randint 0 30 ;;
  hours_back <- randint 0 23 ;;
  minutes_back <- randint 0 59 ;;
  ret (days_back * 1440 + hours_back * 60 + minutes_back)%Z.

(** A generated dictionary, key by key; ['detection_timestamp'] is kept as
    the number of minutes before the clock's reading. *)
Record HazardData : Type := {
  g_latitude : Q;
  g_longitude : Q;
  g_hazard_type : string;
  g_severity_level : string;
  g_detection_timestamp : Z;
  g_confidence_score : Q;
  g_speed_limit : Z;
  g_recommended_speed : Z;
  g_verified : bool;
  g_road_name : RoadName;
  g_area : string;
  g_weather_condition : string
}.

(** [random.choice([True, False]) if random.random() > threshold else False] *)
Definition verified_above (threshold : Q) : Rand (result bool) :=
  r <-? lift random ;;
  if Qltb threshold r then choice [true; false] else ret (Ok false).

(** The body of the first loop of [generate_hazard_data]. *)
Definition hazard_near_major_road : Rand (result HazardData) :=
  road_data <-? choice MAJOR_ROADS ;;
  coordinate <-? generate_random_coordinate_near_road road_data ;;
  hazard_type <-? lift select_hazard_type ;;
  severity_level <-? lift select_severity_level ;;
  detection_timestamp <-? lift generate_detection_timestamp ;;
  confidence_score <-? lift (uniform (7 # 10) (95 # 100)) ;;
  verified <-? verified_above (3 # 10) ;;
  weather_condition <-? choice WEATHER_CONDITIONS ;;
  ret (Ok {| g_latitude := fst coordinate;
             g_longitude := snd coordinate;
             g_hazard_type := HazardType_value hazard_type;
             g_severity_level := SeverityLevel_value severity_level;
             g_detection_timestamp := detection_timestamp;
             g_confidence_score := confidence_score;
             g_speed_limit := rd_speed_limit road_data;
             g_recommended_speed :=
               calculate_recommended_speed (rd_speed_limit road_data) severity_level;
             g_verified := verified;
             g_road_name := Named (rd_name road_data);
             g_area := rd_area road_data;
             g_weather_condition := weather_condition |}).

(** The body of the second loop. *)
Definition hazard_at_random_location : Rand (result HazardData) :=
  coordinate <-? lift generate_random_coordinate_in_peshawar ;;
  hazard_type <-? lift select_hazard_type ;;
  severity_level <-? lift select_severity_level ;;
  speed_limit <-? choice [30; 40; 50; 60]%Z ;;
  let lat := fst coordinate in
  let lng := snd coordinate in
  let area :=
    (if Qltb (3402 # 100) lat then "University Town"
     else if Qltb lat (3395 # 100) then "Hayatabad"
     else if Qltb (716 # 10) lng then "Board Bazaar"
     else "Cantonment")%string in
  detection_timestamp <-? lift generate_detection_timestamp ;;
  confidence_score <-? lift (uniform (6 # 10) (9 # 10)) ;;
  verified <-? verified_above (4 # 10) ;;
  local_road <-? lift (randint 1 100) ;;
  weather_condition <-? choice WEATHER_CONDITIONS ;;
  ret (Ok {| g_latitude := lat;
             g_longitude := lng;
             g_hazard_type := HazardType_value hazard_type;
             g_severity_level := SeverityLevel_value severity_level;
             g_detection_timestamp := detection_timestamp;
             g_confidence_score := confidence_score;
             g_speed_limit := speed_limit;
             g_recommended_speed := calculate_recommended_speed speed_limit severity_level;
             g_verified := verified;
             g_road_name := LocalRoad local_road;
             g_area := area;
             g_weather_condition := weather_condition |}).

(** [for _ in range(n): hazards.append(body())] *)
Fixpoint append_each {A : Type} (n : nat) (body : Rand (result A)) (hazards : list A)
  : Rand (result (list A)) :=
  match n with
  | O => ret (Ok hazards)
  | S n' => hazard <-? body ;; append_each n' body (hazards ++ [hazard])
  end.

(** [int(count * 0.7)], computed on doubles as the code does: [count] is
    converted, multiplied by the double nearest to 0.7 and cut to an
    integer. *)
Definition major_road_count (count : Z) : Z :=
  @to_int binary64 (@fmul binary64 (@of_int binary64 count) (dec (N := binary64) 7 1)).

(** [count] defaults to 200; [range] of a negative number is empty.  The
    product raises when [count] is too large for a double. *)
Definition generate_hazard_data (count : Z) : Rand (result (list HazardData)) :=
  if PrimFloat.is_infinity (@of_int binary64 count) then ret (Raise OverflowError)
  else
    let major_road_count := major_road_count count in
    let random_count := (count - major_road_count)%Z in
    hazards <-? append_each (Z.to_nat major_road_count) hazard_near_major_road [] ;;
    append_each (Z.to_nat random_count) hazard_at_random_location hazards.

End PeshawarHazardDataGenerator.

(** A computation from draws in [0, 1) produces a value with a given
    property, and leaves draws in [0, 1). *)
Definition produces {A : Type} (m : Rand A) (P : A -> Prop) : Prop :=
  forall g : Rng, unit_draws g -> P (fst (m g)) /\ unit_draws (snd (m g)).

(** The same for a computation that may raise: it does not. *)
Definition returns {A : Type} (m : Rand (result A)) (P : A -> Prop) : Prop :=
  produces m (fun r => exists a : A, r = Ok a /\ P a).

(** What every generated hazard satisfies. *)
Definition well_formed (h : PeshawarHazardDataGenerator.HazardData) : Prop :=
  let B := PeshawarHazardDataGenerator.PESHAWAR_BOUNDS in
  (PeshawarHazardDataGenerator.lat_min B
     <= PeshawarHazardDataGenerator.g_latitude h
     <= PeshawarHazardDataGenerator.lat_max B)%Q
  /\ (PeshawarHazardDataGenerator.lng_min B
        <= PeshawarHazardDataGenerator.g_longitude h
        <= PeshawarHazardDataGenerator.lng_max B)%Q
  /\ 30 <= PeshawarHazardDataGenerator.g_speed_limit h <= 80
  /\ 20 <= PeshawarHazardDataGenerator.g_recommended_speed h
        <= PeshawarHazardDataGenerator.g_speed_limit h
  /\ ((6 # 10) <= PeshawarHazardDataGenerator.g_confidence_score h <= (95 # 100))%Q
  /\ 0 <= PeshawarHazardDataGenerator.g_detection_timestamp h <= 30 * 1440 + 23 * 60 + 59
  /\ In (PeshawarHazardDataGenerator.g_weather_condition h)
        PeshawarHazardDataGenerator.WEATHER_CONDITIONS.

(** A hazard of the first loop: on one of the major roads, with its name,
    area and speed limit, within 0.001 degrees of one of its points. *)
Definition on_major_road (h : PeshawarHazardDataGenerator.HazardData) : Prop :=
  exists (road : PeshawarHazardDataGenerator.Road) (point : Q * Q),
    In road PeshawarHazardDataGenerator.MAJOR_ROADS
    /\ In point (PeshawarHazardDataGenerator.rd_coordinates road)
    /\ PeshawarHazardDataGenerator.g_road_name h
       = Named (PeshawarHazardDataGenerator.rd_name road)
    /\ PeshawarHazardDataGenerator.g_area h = PeshawarHazardDataGenerator.rd_area road
    /\ PeshawarHazardDataGenerator.g_speed_limit h
       = PeshawarHazardDataGenerator.rd_speed_limit road
    /\ (fst point - (1 # 1000) <= PeshawarHazardDataGenerator.g_latitude h
        <= fst point + (1 # 1000))%Q
    /\ (snd point - (1 # 1000) <= PeshawarHazardDataGenerator.g_longitude h
        <= snd point + (1 # 1000))%Q.

(** A hazard of the second loop: on a numbered local road with one of the
    four city speed limits. *)
Definition on_local_road (h : PeshawarHazardDataGenerator.HazardData) : Prop :=
  (exists n : Z, 1 <= n <= 100 /\ PeshawarHazardDataGenerator.g_road_name h = LocalRoad n)
  /\ In (PeshawarHazardDataGenerator.g_speed_limit h) [30; 40; 50; 60].

(** * The engine and the speed handlers with their exceptions

    The embedding of the engine above gives what the code returns when it
    returns, with floats read as exact rationals.  Here the same code is
    embedded with the two exceptions that it can raise on numbers:
    [math.sqrt] raises [ValueError] on a negative argument, and an [int]
    that takes part in a float operation is first converted to the nearest
    double, which raises [OverflowError] when there is none.  The handlers
    catch both and answer with status 500. *)

Definition and_then {A B : Type} (r : result A) (k : A -> result B) : result B :=
  match r with
  | Ok a => k a
  | Raise e => Raise e
  end.

Notation "x <-! r ;; k" := (and_then r (fun x => k))
  (at level 61, r at next level, right associativity).

(** The value of [float(n)] when it is finite: [n] itself up to 2^53, and
    beyond that [n] rounded to 53 significant bits, a tie going to the even
    neighbour. *)
Definition round_to_double (n : Z) : Z :=
  let a := Z.abs n in
  if a <? 2 ^ 53 then n
  else
    let e := Z.log2 a - 52 in
    let q := a / 2 ^ e in
    let r := a mod 2 ^ e in
    let half := 2 ^ (e - 1) in
    let q' := if r <? half then q
              else if half <? r then q + 1
              else if Z.even q then q else q + 1 in
    Z.sgn n * (q' * 2 ^ e).

(** The conversion of an [int] operand of a float operation. *)
Definition py_float (n : Z) : result Q :=
  let v := round_to_double n in
  if 2 ^ 1024 <=? Z.abs v then Raise OverflowError else Ok (inject_Z v).

Module Raising.
Section Engine.
Context {M : MathLib Q}.
Local Open Scope Q_scope.

(** [math.sqrt(x)] *)
Definition math_sqrt (x : Q) : result Q :=
  if Qltb x 0 then Raise ValueError else Ok (m_sqrt x).

Definition calculate_distance (lat1 lng1 lat2 lng2 : Q) : result Q :=
  let R := 6371 in
  let lat1_rad := radians (N := exact) lat1 in
  let lat2_rad := radians (N := exact) lat2 in
  let delta_lat := radians (N := exact) (lat2 - lat1) in
  let delta_lng := radians (N := exact) (lng2 - lng1) in
  let a := m_sin (delta_lat / 2) * m_sin (delta_lat / 2)
           + m_cos lat1_rad * m_cos lat2_rad
             * m_sin (delta_lng / 2) * m_sin (delta_lng / 2) in
  root_a <-! math_sqrt a ;;
  root_b <-! math_sqrt (1 - a) ;;
  let c := 2 * m_atan2 root_a root_b in
  Ok (R * c).

(** One iteration of the loop over [hazards]. *)
Definition add_impact (loc : Location (N := exact)) (total_impact : Q)
    (hazard : Hazard (N := exact)) : result Q :=
  distance <-! calculate_distance (lat loc) (lng loc) (latitude hazard) (longitude hazard) ;;
  let distance_factor := get_distance_factor (N := exact) distance in
  let severity_factor := SPEED_FACTORS (N := exact) (severity_level hazard) in
  if Qltb 0 distance_factor then
    let impact := (1 - severity_factor) * distance_factor in
    Ok (total_impact + impact)
  else Ok total_impact.

(** The loop, from a given [total_impact]. *)
Fixpoint total_impact_from (loc : Location (N := exact)) (hazards : list (Hazard (N := exact)))
    (total_impact : Q) : result Q :=
  match hazards with
  | [] => Ok total_impact
  | hazard :: rest =>
      total_impact <-! add_impact loc total_impact hazard ;;
      total_impact_from loc rest total_impact
  end.

Definition calculate_recommended_speed
    (current_location : Location (N := exact)) (hazards : list (Hazard (N := exact)))
    (base_speed_limit : Z) : result Z :=
  total_impact <-! total_impact_from current_location hazards 0 ;;
  let total_impact := py_min (N := exact) total_impact (8 # 10) in
  limit <-! py_float base_speed_limit ;;
  let recommended_speed := Qtruncate (limit * (1 - total_impact)) in
  Ok (Z.max recommended_speed 20).

(** The loop that builds [hazard_details]. *)
Fixpoint hazard_details_of (lat lng search_radius_km : Q)
    (hazards : list (Hazard (N := exact))) : result (list HazardDetail) :=
  match hazards with
  | [] => Ok []
  | hazard :: rest =>
      distance <-! calculate_distance lat lng (latitude hazard) (longitude hazard) ;;
      details <-! hazard_details_of lat lng search_radius_km rest ;;
      if Qle_bool distance search_radius_km then
        Ok ({| hd_id := id hazard;
               hd_type := hazard_type hazard;
               hd_severity := severity_level hazard;
               distance_km := py_round distance 2;
               hd_road_name := road_name hazard |} :: details)
      else Ok details
  end.

(** The body of the loop over [enumerate(waypoints)]. *)
Definition recommend_waypoint (db : list (Hazard (N := exact))) (search_radius_km : Q)
    (i : nat) (waypoint : Waypoint) : result Recommendation :=
  let lat := wp_lat waypoint in
  let lng := wp_lng waypoint in
  let speed_limit := match wp_speed_limit waypoint with Some v => v | None => 50%Z end in
  let radius_deg := search_radius_km / 111 in
  let hazards := query_hazards db lat lng radius_deg in
  recommended_speed <-!
    calculate_recommended_speed {| lat := lat; lng := lng |} hazards speed_limit ;;
  hazard_details <-! hazard_details_of lat lng search_radius_km hazards ;;
  Ok {| waypoint_index := i;
        location := {| lat := lat; lng := lng |};
        speed_limit := speed_limit;
        recommended_speed := recommended_speed;
        speed_reduction := (speed_limit - recommended_speed)%Z;
        hazards_count := List.length hazard_details;
        hazards := hazard_details |}.

Fixpoint recommend_from (db : list (Hazard (N := exact))) (search_radius_km : Q)
    (i : nat) (waypoints : list Waypoint) : result (list Recommendation) :=
  match waypoints with
  | [] => Ok []
  | waypoint :: rest =>
      recommendation <-! recommend_waypoint db search_radius_km i waypoint ;;
      recommendations <-! recommend_from db search_radius_km (S i) rest ;;
      Ok (recommendation :: recommendations)
  end.

(** The handler with its [except] branch. *)
Definition get_speed_recommendations (request : Request) (db : list (Hazard (N := exact)))
  : Returned :=
  let waypoints := req_waypoints request in
  let search_radius_km :=
    match req_search_radius_km request with Some r => r | None => 1 end in
  match waypoints with
  | [] => ResponseWithStatus (ErrorBody "No waypoints provided") 400
  | _ :: _ =>
      match recommend_from db search_radius_km 0 waypoints with
      | Ok recommendations =>
          Response (RecommendationsBody recommendations search_radius_km
                      (List.length waypoints))
      | Raise e => ResponseWithStatus (ErrorBody (str e)) 500
      end
  end.

(** The route-analysis handler over that handler. *)
Definition analyze_route_safety (request : Request) (db : list (Hazard (N := exact)))
  : Returned :=
  let waypoints := req_waypoints request in
  match waypoints with
  | [] => ResponseWithStatus (ErrorBody "No waypoints provided") 400
  | _ :: _ =>
      let recommendations_response := get_speed_recommendations request db in
      match getitem0 recommendations_response with
      | Raise e => ResponseWithStatus (ErrorBody (str e)) 500
      | Ok recommendations_data =>
          match recommendations_data with
          | RecommendationsBody recommendations _ _ =>
              Response (RouteAnalysisBody
                          (route_analysis_of (List.length waypoints) recommendations)
                          recommendations)
          | _ => ResponseWithStatus (ErrorBody "Failed to get recommendations") 500
          end
      end
  end.

(** The loop that builds [hazard_details] in the location handler. *)
Fixpoint location_details_of (lat lng radius_km : Q) (hazards : list HazardRow)
  : result (list SpeedLocationRoute.LocationHazardDetail) :=
  match hazards with
  | [] => Ok []
  | hazard :: rest =>
      distance <-!
        calculate_distance lat lng (latitude (columns hazard)) (longitude (columns hazard)) ;;
      details <-! location_details_of lat lng radius_km rest ;;
      if Qle_bool distance radius_km then
        Ok ({| SpeedLocationRoute.detail :=
                 {| hd_id := id (columns hazard);
                    hd_type := hazard_type (columns hazard);
                    hd_severity := severity_level (columns hazard);
                    distance_km := py_round distance 2;
                    hd_road_name := road_name (columns hazard) |};
               SpeedLocationRoute.hd_recommended_speed := row_recommended_speed hazard |}
            :: details)
      else Ok details
  end.

(** ['safe' if len(hazard_details) == 0 else 'caution' if recommended_speed
    > speed_limit * 0.8 else 'danger']; the product is computed only when a
    hazard is listed. *)
Definition safety_status_of (hazards_count : nat) (recommended_speed speed_limit : Z)
  : result string :=
  if (hazards_count =? 0)%nat then Ok "safe"%string
  else
    limit <-! py_float speed_limit ;;
    if Qltb (limit * (8 # 10)) (inject_Z recommended_speed)
    then Ok "caution"%string
    else Ok "danger"%string.

(** The location handler with its [except] branch. *)
Definition get_location_speed_recommendation
    (args : SpeedLocationRoute.Args) (db : list HazardRow)
  : SpeedLocationRoute.LocationReturned :=
  let speed_limit :=
    match SpeedLocationRoute.arg_speed_limit args with Some v => v | None => 50%Z end in
  let radius_km :=
    match SpeedLocationRoute.arg_radius_km args with Some r => r | None => 1 end in
  if not_ (SpeedLocationRoute.arg_lat args) || not_ (SpeedLocationRoute.arg_lng args) then
    SpeedLocationRoute.LocationError "Latitude and longitude are required" 400
  else
    match SpeedLocationRoute.arg_lat args, SpeedLocationRoute.arg_lng args with
    | Some lat, Some lng =>
        let radius_deg := radius_km / 111 in
        let hazards :=
          rows_in_box db (lat - radius_deg) (lat + radius_deg)
                         (lng - radius_deg) (lng + radius_deg) in
        match
          (recommended_speed <-!
             calculate_recommended_speed {| lat := lat; lng := lng |}
               (map columns hazards) speed_limit ;;
           hazard_details <-! location_details_of lat lng radius_km hazards ;;
           status <-!
             safety_status_of (List.length hazard_details) recommended_speed speed_limit ;;
           Ok {| SpeedLocationRoute.loc_location := {| lat := lat; lng := lng |};
                 SpeedLocationRoute.loc_speed_limit := speed_limit;
                 SpeedLocationRoute.loc_recommended_speed := recommended_speed;
                 SpeedLocationRoute.loc_speed_reduction :=
                   (speed_limit - recommended_speed)%Z;
                 SpeedLocationRoute.loc_hazards_count := List.length hazard_details;
                 SpeedLocationRoute.loc_hazards := hazard_details;
                 SpeedLocationRoute.safety_status := status |})
        with
        | Ok body => SpeedLocationRoute.LocationResponse body
        | Raise e => SpeedLocationRoute.LocationError (str e) 500
        end
    | _, _ => SpeedLocationRoute.LocationError "Latitude and longitude are required" 400
    end.

End Engine.
End Raising.

(** Integers around 2^53 and beyond, up to the largest that a double
    holds, on which the rounding above is compared with the conversion of
    the double-precision interpretation. *)
Definition conversion_samples : list Z :=
  limits_from (2 ^ 53 - 20) 200
  ++ limits_from (- 2 ^ 53 - 180) 200
  ++ limits_from (2 ^ 54 - 20) 60
  ++ [ 10 ^ 30; - 10 ^ 30; 2 ^ 80 + 2 ^ 27; 2 ^ 80 + 2 ^ 27 + 1; 2 ^ 80 + 3 * 2 ^ 27;
       2 ^ 1023; 2 ^ 1024 - 2 ^ 971; 2 ^ 1024 - 2 ^ 970 - 1 ].

(** * Properties *)

(** ** Comparisons and truncation on rationals *)

Lemma Qle_bool_false (x y : Q) : Qle_bool x y = false -> (y < x)%Q.
Proof.
  intros H. apply Qnot_le_lt. intros Hle.
  apply Qle_bool_iff in Hle. congruence.
Qed.

Lemma Qltb_true (x y : Q) : Qltb x y = true -> (x < y)%Q.
Proof.
  unfold Qltb. intros H. apply negb_true_iff in H. now apply Qle_bool_false.
Qed.

Lemma Qltb_false (x y : Q) : Qltb x y = false -> (y <= x)%Q.
Proof.
  unfold Qltb. intros H. apply negb_false_iff in H. now apply Qle_bool_iff.
Qed.

Lemma Qltb_lt (x y : Q) : (x < y)%Q -> Qltb x y = true.
Proof.
  intros H. destruct (Qltb x y) eqn:E; [reflexivity|].
  apply Qltb_false in E. lra.
Qed.

(** Turns every boolean comparison among the hypotheses into its
    proposition. *)
Ltac qbool :=
  repeat match goal with
  | H : Qle_bool _ _ = true |- _ => apply Qle_bool_iff in H
  | H : Qle_bool _ _ = false |- _ => apply Qle_bool_false in H
  | H : Qltb _ _ = true |- _ => apply Qltb_true in H
  | H : Qltb _ _ = false |- _ => apply Qltb_false in H
  end.

Lemma Qtruncate_nonneg (x : Q) : (0 <= x)%Q -> Qtruncate x = Qfloor x.
Proof.
  destruct x as [n d]. unfold Qle, Qtruncate, Qfloor. simpl. intros H.
  apply Z.quot_div_nonneg; lia.
Qed.

Lemma Qtruncate_le (x : Q) (n : Z) : 0 <= n -> (x <= inject_Z n)%Q -> Qtruncate x <= n.
Proof.
  intros Hn Hx. destruct (Qlt_le_dec x 0) as [Hneg|Hpos].
  - destruct x as [a d]. unfold Qlt in Hneg. unfold Qtruncate. simpl in *.
    assert (Z.quot a (Zpos d) <= 0); [|lia].
    apply Z.quot_le_upper_bound; lia.
  - rewrite Qtruncate_nonneg by assumption.
    rewrite Zle_Qle. eapply Qle_trans; [apply Qfloor_le | exact Hx].
Qed.

(** ** The distance factor *)

(** The dictionary is written in ascending order of its keys, so sorting
    its items leaves them in place. *)
Lemma sorted_DISTANCE_FACTORS :
  sorted (N := exact) DISTANCE_FACTORS
  = [ (1 # 10, 1); (2 # 10, 8 # 10); (5 # 10, 5 # 10); (1, 2 # 10); (2, 1 # 10) ]%Q.
Proof. reflexivity. Qed.

Lemma get_distance_factor_unfold (d : Q) :
  get_distance_factor (N := exact) d =
  if Qle_bool d (1 # 10) then 1%Q
  else if Qle_bool d (2 # 10) then (8 # 10)%Q
  else if Qle_bool d (5 # 10) then (5 # 10)%Q
  else if Qle_bool d 1 then (2 # 10)%Q
  else if Qle_bool d 2 then (1 # 10)%Q
  else 0%Q.
Proof.
  unfold get_distance_factor. rewrite sorted_DISTANCE_FACTORS. reflexivity.
Qed.

(** C5: for every distance [d] (non-negative or not), [get_distance_factor d]
    is the reference step function over the ascending thresholds
    0.1, 0.2, 0.5, 1.0, 2.0: the factor of the smallest threshold that is at
    least [d]; the sorted items are in ascending order; a distance equal to a
    threshold gets that threshold's own factor; beyond 2.0 the factor is 0. *)
Theorem get_distance_factor_is_reference_step (d : Q) :
  get_distance_factor (N := exact) d = reference_distance_factor d
  /\ sorted (N := exact) DISTANCE_FACTORS = reference_thresholds
  /\ ascending (map fst (sorted (N := exact) DISTANCE_FACTORS)) = true
  /\ (forall t f, In (t, f) reference_thresholds ->
        get_distance_factor (N := exact) t = f)
  /\ ((2 < d)%Q -> get_distance_factor (N := exact) d = 0%Q).
Proof.
  split; [|split; [reflexivity|split; [reflexivity|split]]].
  - rewrite get_distance_factor_unfold.
    unfold reference_distance_factor, reference_thresholds.
    cbn [filter fst snd].
    destruct (Qle_bool d (1 # 10)) eqn:H1; destruct (Qle_bool d (2 # 10)) eqn:H2;
    destruct (Qle_bool d (5 # 10)) eqn:H3; destruct (Qle_bool d 1) eqn:H4;
    destruct (Qle_bool d 2) eqn:H5; try reflexivity; qbool; lra.
  - intros t f Hin. rewrite get_distance_factor_unfold.
    unfold reference_thresholds in Hin. simpl in Hin.
    repeat match goal with
           | H : _ \/ _ |- _ => destruct H as [H|H]
           | H : (_, _) = (_, _) |- _ => inversion H; subst; clear H
           | H : False |- _ => destruct H
           end; reflexivity.
  - intros Hd. rewrite get_distance_factor_unfold.
    destruct (Qle_bool d (1 # 10)) eqn:H1; destruct (Qle_bool d (2 # 10)) eqn:H2;
    destruct (Qle_bool d (5 # 10)) eqn:H3; destruct (Qle_bool d 1) eqn:H4;
    destruct (Qle_bool d 2) eqn:H5; try reflexivity; qbool; lra.
Qed.

(** An instance of C5: 2.5 km exceeds every threshold, and 0.2 km is a
    threshold itself. *)
Lemma get_distance_factor_is_reference_step_witness :
  (2 < 5 # 2)%Q
  /\ get_distance_factor (N := exact) (5 # 2) = 0%Q
  /\ In ((2 # 10)%Q, (8 # 10)%Q) reference_thresholds
  /\ get_distance_factor (N := exact) (2 # 10) = (8 # 10)%Q.
Proof.
  split; [reflexivity|]. split.
  - apply (proj2 (proj2 (proj2 (proj2 (get_distance_factor_is_reference_step (5 # 2)))))).
    reflexivity.
  - split; [right; left; reflexivity|].
    apply (proj1 (proj2 (proj2 (proj2 (get_distance_factor_is_reference_step (5 # 2)))))
             (2 # 10)%Q (8 # 10)%Q).
    right; left; reflexivity.
Defined.

(** ** The recommended speed, in exact arithmetic *)

Section ExactEngine.
Context {M : MathLib Q}.
Local Open Scope Q_scope.

Lemma severity_reduction_positive (s : SeverityLevel) :
  0 < 1 - SPEED_FACTORS (N := exact) s.
Proof. destruct s; reflexivity. Qed.

Lemma add_impact_exact (loc : Location) (total : Q) (h : Hazard) :
  add_impact loc total h =
  let df := get_distance_factor (N := exact)
              (calculate_distance (lat loc) (lng loc) (latitude h) (longitude h)) in
  if Qltb 0 df then total + (1 - SPEED_FACTORS (N := exact) (severity_level h)) * df
  else total.
Proof. reflexivity. Qed.

Lemma add_impact_nonneg (loc : Location) (total : Q) (h : Hazard) :
  0 <= total -> 0 <= add_impact loc total h.
Proof.
  intros Ht. rewrite add_impact_exact. cbv zeta.
  destruct (Qltb 0 _) eqn:Hdf; [|exact Ht].
  apply Qltb_true in Hdf.
  pose proof (severity_reduction_positive (severity_level h)) as Hs.
  nra.
Qed.

Lemma fold_add_impact_nonneg (loc : Location) (hazards : list Hazard) (total : Q) :
  0 <= total -> 0 <= fold_left (add_impact loc) hazards total.
Proof.
  revert total. induction hazards as [|h hs IH]; intros total Ht; simpl.
  - exact Ht.
  - apply IH. now apply add_impact_nonneg.
Qed.

Lemma total_impact_nonneg (loc : Location) (hazards : list Hazard) :
  0 <= total_impact_of loc hazards.
Proof. apply fold_add_impact_nonneg. unfold Qle; simpl; lia. Qed.

(** The clamped impact lies between 0 and 0.8. *)
Lemma clamped_impact_bounds (loc : Location) (hazards : list Hazard) :
  let t := py_min (N := exact) (total_impact_of loc hazards) (8 # 10) in
  0 <= t <= 8 # 10.
Proof.
  cbv zeta. pose proof (total_impact_nonneg loc hazards) as H0.
  unfold py_min. change (@fltb exact) with Qltb.
  destruct (Qltb (8 # 10) _) eqn:E; qbool; split; lra.
Qed.

Lemma calculate_recommended_speed_exact (loc : Location) (hazards : list Hazard) (base : Z) :
  calculate_recommended_speed loc hazards base =
  Z.max (Qtruncate (inject_Z base
                    * (1 - py_min (N := exact) (total_impact_of loc hazards) (8 # 10)))) 20.
Proof. reflexivity. Qed.

(** In exact arithmetic, for every speed limit of at least 20, every
    point and every list of hazards, the recommended speed lies between 20
    and the speed limit, whatever the math library returns. *)
Lemma exact_speed_within_limits
    (loc : Location) (hazards : list Hazard) (base_speed_limit : Z) :
  (20 <= base_speed_limit)%Z ->
  (20 <= calculate_recommended_speed (N := exact) loc hazards base_speed_limit
      <= base_speed_limit)%Z.
Proof.
  intros Hbase. rewrite calculate_recommended_speed_exact.
  pose proof (clamped_impact_bounds loc hazards) as Ht. cbv zeta in Ht.
  set (t := py_min _ _) in *.
  split; [apply Z.le_max_r|].
  apply Z.max_lub; [|exact Hbase].
  apply Qtruncate_le; [lia|].
  assert (Hb : 0 <= inject_Z base_speed_limit).
  { rewrite <- (Zle_Qle 0). lia. }
  nra.
Qed.

(** In exact arithmetic the recommended speed on the empty list of
    hazards is [max(speed limit, 20)]. *)
Lemma exact_speed_no_hazards (loc : Location) (base_speed_limit : Z) :
  calculate_recommended_speed (N := exact) loc [] base_speed_limit
  = Z.max base_speed_limit 20.
Proof.
  rewrite calculate_recommended_speed_exact. f_equal.
  unfold total_impact_of, py_min, Qtruncate. simpl.
  rewrite Z.mul_1_r. apply Z.quot_1_r.
Qed.

End ExactEngine.

(** ** The cap on the total impact *)

(** Whatever the arithmetic, a total impact above 0.8 is replaced by 0.8
    itself. *)
Lemma capped_speed_any_arithmetic {N : PyFloat} {M : MathLib F}
    (loc : Location) (hazards : list Hazard) (base_speed_limit : Z) :
  (dec 8 1 <? total_impact_of loc hazards)%py = true ->
  calculate_recommended_speed loc hazards base_speed_limit
  = Z.max (to_int (of_int base_speed_limit * (of_int 1 - dec 8 1))%py) 20.
Proof.
  intros H. unfold calculate_recommended_speed, py_min. now rewrite H.
Qed.

Lemma recommended_speed_at_least_20 {N : PyFloat} {M : MathLib F}
    (loc : Location) (hazards : list Hazard) (base_speed_limit : Z) :
  20 <= calculate_recommended_speed loc hazards base_speed_limit.
Proof. unfold calculate_recommended_speed. apply Z.le_max_r. Qed.

(** In exact arithmetic the capped product is a fifth of the limit. *)
Lemma capped_product_exact (base : Z) :
  Z.max (@to_int exact (of_int base * (of_int 1 - dec 8 1))%py) 20
  = Z.max (Qfloor (inject_Z base * (2 # 10))) 20.
Proof.
  change (@to_int exact (of_int base * (of_int 1 - dec 8 1))%py)
    with (Qtruncate (inject_Z base * (1 - (8 # 10)))).
  assert (E : (inject_Z base * (1 - (8 # 10)) == inject_Z base * (2 # 10))%Q) by ring.
  destruct (Z_le_gt_dec 0 base) as [Hb|Hb].
  - rewrite Qtruncate_nonneg.
    + now rewrite E.
    + assert (0 <= inject_Z base)%Q by (rewrite <- (Zle_Qle 0); lia). nra.
  - assert (Hneg : (inject_Z base <= inject_Z 0)%Q) by (rewrite <- Zle_Qle; lia).
    assert (H1 : Qtruncate (inject_Z base * (1 - (8 # 10))) <= 0).
    { apply Qtruncate_le; [lia|]. change (inject_Z 0) with 0%Q in *. nra. }
    assert (H2 : Qfloor (inject_Z base * (2 # 10)) <= 0).
    { rewrite Zle_Qle. eapply Qle_trans; [apply Qfloor_le|].
      change (inject_Z 0) with 0%Q in *. nra. }
    lia.
Qed.

(** In exact arithmetic no list of hazards brings the recommended speed
    below a fifth of the limit, rounded down. *)
Lemma recommended_speed_above_fifth {M : MathLib Q}
    (loc : Location) (hazards : list Hazard) (base : Z) :
  Qfloor (inject_Z base * (2 # 10)) <= calculate_recommended_speed (N := exact) loc hazards base.
Proof.
  rewrite calculate_recommended_speed_exact.
  pose proof (clamped_impact_bounds loc hazards) as Ht. cbv zeta in Ht.
  set (t := py_min _ _) in *.
  destruct (Z_le_gt_dec 0 base) as [Hb|Hb].
  - assert (0 <= inject_Z base)%Q by (rewrite <- (Zle_Qle 0); lia).
    rewrite Qtruncate_nonneg by nra.
    etransitivity; [|apply Z.le_max_l].
    apply Qfloor_resp_le. nra.
  - assert (Hneg : (inject_Z base <= inject_Z 0)%Q) by (rewrite <- Zle_Qle; lia).
    assert (H2 : Qfloor (inject_Z base * (2 # 10)) <= 0).
    { rewrite Zle_Qle. eapply Qle_trans; [apply Qfloor_le|].
      change (inject_Z 0) with 0%Q in *. nra. }
    lia.
Qed.

(** In double precision [1 - 0.8] is 0.19999999999999996, below 0.2, and
    the capped product falls short of a fifth of the limit: 20 instead of
    21 at limit 105, 23 instead of 24 at limit 120. *)
Lemma capped_product_binary64 :
  (@of_int binary64 1 - dec 8 1)%py = 0x1.9999999999998p-3%float
  /\ (@of_int binary64 1 - dec 8 1 <? dec 2 1)%py = true
  /\ @to_int binary64 (of_int 105 * (of_int 1 - dec 8 1))%py = 20
  /\ @to_int binary64 (of_int 120 * (of_int 1 - dec 8 1))%py = 23.
Proof. repeat split; vm_compute; reflexivity. Qed.

(** In double precision the two statements above hold for every speed
    limit up to 1000: without hazards the result is [max(limit, 20)] from
    limit -100 on, and under the capped impact of two hazards it lies
    between 20 and the limit; the dictionary's items are in ascending order
    there too. *)
Lemma binary64_on_ordinary_limits :
  forallb (fun n => calculate_recommended_speed (N := binary64) (M := b64_math)
                      university_road [] n =? Z.max n 20)
          (limits_from (-100) 1101) = true
  /\ forallb (fun n =>
               let r := calculate_recommended_speed (N := binary64) (M := b64_math)
                          university_road [pothole_here; pothole_here] n in
               (20 <=? r) && (r <=? n))
            (limits_from 20 981) = true
  /\ sorted (N := binary64) DISTANCE_FACTORS = DISTANCE_FACTORS.
Proof. repeat split; vm_compute; reflexivity. Qed.

(** The specification's worked examples: one high-severity hazard at the
    queried point and speed limit 80 give 40 in both arithmetics, and the
    series implementation puts University Road and GT Road 2.03 km apart. *)
Example single_high_hazard_at_80 :
  calculate_recommended_speed (N := exact) (M := approx_math)
    university_road [pothole_here] 80 = 40
  /\ calculate_recommended_speed (N := binary64) (M := b64_math)
       university_road [pothole_here] 80 = 40
  /\ Qfloor (calculate_distance (N := exact) (M := approx_math)
               (lat campus) (lng campus) (lat gt_road) (lng gt_road) * 100) = 202.
Proof. repeat split; vm_compute; reflexivity. Qed.

(** C3, amended: when the impacts sum to more than 0.8 the total is
    replaced by exactly 0.8 and the result is
    [max(int(limit * (1 - 0.8)), 20)], never below 20, in either
    arithmetic.  In exact arithmetic that is [floor(limit * 0.2)] floored at
    20, and no list of hazards brings the result below it.  In double
    precision, which the code runs on, [1 - 0.8] is below 0.2 and the result
    at limit 105 is 20, one less than [floor(105 * 0.2)]. *)
Theorem capped_speed :
  (forall (N : PyFloat) (M : MathLib F) (loc : Location) (hazards : list Hazard) (base : Z),
      (dec 8 1 <? total_impact_of loc hazards)%py = true ->
      calculate_recommended_speed loc hazards base
      = Z.max (to_int (of_int base * (of_int 1 - dec 8 1))%py) 20
      /\ 20 <= calculate_recommended_speed loc hazards base)
  /\ (forall (M : MathLib Q) (loc : Location) (hazards : list Hazard) (base : Z),
      (8 # 10 < total_impact_of (N := exact) loc hazards)%Q ->
      calculate_recommended_speed (N := exact) loc hazards base
      = Z.max (Qfloor (inject_Z base * (2 # 10))) 20)
  /\ (forall (M : MathLib Q) (loc : Location) (hazards : list Hazard) (base : Z),
      Z.max (Qfloor (inject_Z base * (2 # 10))) 20
      <= calculate_recommended_speed (N := exact) loc hazards base)
  /\ (forall (M : MathLib float) (loc : Location) (hazards : list Hazard),
      (dec 8 1 <? total_impact_of (N := binary64) loc hazards)%py = true ->
      calculate_recommended_speed (N := binary64) loc hazards 105 = 20).
Proof.
  split; [|split; [|split]].
  - intros N M loc hazards base H. split.
    + now apply capped_speed_any_arithmetic.
    + apply recommended_speed_at_least_20.
  - intros M loc hazards base H.
    rewrite capped_speed_any_arithmetic.
    + apply capped_product_exact.
    + now apply Qltb_lt.
  - intros M loc hazards base. apply Z.max_lub.
    + apply recommended_speed_above_fifth.
    + apply recommended_speed_at_least_20.
  - intros M loc hazards H.
    rewrite capped_speed_any_arithmetic by exact H.
    destruct capped_product_binary64 as (_ & _ & E & _).
    now rewrite E.
Qed.

(** An instance of C3 as amended, in double precision: two high-severity
    hazards at the queried point and speed limit 80. *)
Lemma capped_speed_witness :
  (dec 8 1 <? total_impact_of (N := binary64) (M := b64_math)
                university_road [pothole_here; pothole_here])%py = true
  /\ calculate_recommended_speed (N := binary64) (M := b64_math)
       university_road [pothole_here; pothole_here] 80
     = Z.max (@to_int binary64 (of_int 80 * (of_int 1 - dec 8 1))%py) 20
  /\ 20 <= calculate_recommended_speed (N := binary64) (M := b64_math)
             university_road [pothole_here; pothole_here] 80.
Proof.
  split; [vm_compute; reflexivity|].
  apply (proj1 capped_speed binary64 b64_math
           university_road [pothole_here; pothole_here] 80).
  vm_compute; reflexivity.
Defined.

(** C3 as stated fails on the code's arithmetic: two high-severity
    hazards at the queried point have impacts 0.5 + 0.5 = 1.0, above 0.8,
    and at speed limit 105 the function returns 20, whereas
    [floor(105 * 0.2)] floored at 20 is 21, in exact arithmetic and in
    double precision alike. *)
Lemma capped_speed_is_not_a_fifth :
  total_impact_of (N := binary64) (M := b64_math)
    university_road [pothole_here; pothole_here] = 1%float
  /\ @fltb binary64 (dec 8 1) 1%float = true
  /\ calculate_recommended_speed (N := binary64) (M := b64_math)
       university_road [pothole_here; pothole_here] 105 = 20
  /\ Z.max (Qfloor (inject_Z 105 * (2 # 10))) 20 = 21
  /\ Z.max (@to_int binary64 (of_int 105 * dec 2 1)%py) 20 = 21
  /\ calculate_recommended_speed (N := binary64) (M := b64_math)
       university_road [pothole_here; pothole_here] 105
     <> Z.max (Qfloor (inject_Z 105 * (2 # 10))) 20.
Proof.
  repeat split; try (vm_compute; reflexivity).
  vm_compute. discriminate.
Qed.

(** ** The route handlers *)

Section RouteProperties.
Context {M : MathLib Q}.

Lemma hazard_details_of_filter (lat lng radius : Q) (hazards : list Hazard) :
  hazard_details_of lat lng radius hazards
  = map (detail_of lat lng) (filter (within_radius lat lng radius) hazards).
Proof.
  induction hazards as [|h hs IH]; simpl; [reflexivity|].
  unfold within_radius at 1.
  destruct (Qle_bool _ radius); simpl; now rewrite IH.
Qed.

Lemma recommend_from_nth (db : list Hazard) (radius : Q) (waypoints : list Waypoint) :
  forall (k i : nat) (wp : Waypoint),
    nth_error waypoints i = Some wp ->
    nth_error (recommend_from db radius k waypoints) i
    = Some (recommend_waypoint db radius (k + i) wp).
Proof.
  induction waypoints as [|w ws IH]; intros k i wp Hnth.
  - destruct i; discriminate.
  - destruct i as [|i]; simpl in *.
    + inversion Hnth; subst. now rewrite Nat.add_0_r.
    + rewrite (IH (S k) i wp Hnth). f_equal. f_equal. lia.
Qed.

(** C6, amended: for every waypoint of a request that is answered with
    recommendations, the recommendation at the waypoint's index lists
    exactly the queried hazards (those of the bounding box around the
    waypoint) whose distance to it is at most the search radius, one entry
    per hazard with the distance rounded to two decimals, in the order the
    query returned them; no sorting by distance takes place. *)
Theorem hazards_are_filtered_in_query_order
    (request : Request) (db : list Hazard)
    (recs : list Recommendation) (radius : Q) (n : nat) :
  get_speed_recommendations request db = Response (RecommendationsBody recs radius n) ->
  forall (i : nat) (wp : Waypoint),
    nth_error (req_waypoints request) i = Some wp ->
    exists r : Recommendation,
      nth_error recs i = Some r
      /\ waypoint_index r = i
      /\ hazards r
         = map (detail_of (wp_lat wp) (wp_lng wp))
             (filter (within_radius (wp_lat wp) (wp_lng wp) radius)
                (query_hazards db (wp_lat wp) (wp_lng wp) (radius / 111)))
      /\ hazards_count r = List.length (hazards r).
Proof.
  unfold get_speed_recommendations. intros Hresp i wp Hnth.
  destruct (req_waypoints request) as [|w ws] eqn:Hw; [discriminate|].
  inversion Hresp; subst; clear Hresp.
  exists (recommend_waypoint db
            (match req_search_radius_km request with Some r => r | None => 1%Q end) i wp).
  split; [|split; [|split]].
  - exact (recommend_from_nth db _ (w :: ws) 0%nat i wp Hnth).
  - reflexivity.
  - unfold recommend_waypoint. cbn [hazards]. apply hazard_details_of_filter.
  - reflexivity.
Qed.

End RouteProperties.

(** C6 as stated fails: both hazards are within the 1 km search radius,
    and the response lists them in table order, 0.56 km before 0.11 km. *)
Lemma hazards_not_sorted_by_distance :
  map (fun h => (hd_id h, distance_km h))
      (first_hazards (get_speed_recommendations (M := approx_math)
                        (one_waypoint 60) [far_pothole; near_crack]))
  = [ (1, (56 # 100)%Q); (2, (11 # 100)%Q) ]
  /\ ascending (map distance_km
       (first_hazards (get_speed_recommendations (M := approx_math)
                         (one_waypoint 60) [far_pothole; near_crack]))) = false.
Proof. split; vm_compute; reflexivity. Qed.

(** An instance of C6 as amended: the request and the table of the
    counterexample. *)
Lemma hazards_are_filtered_in_query_order_witness :
  exists r : Recommendation,
    nth_error (recommend_from (M := approx_math) [far_pothole; near_crack] 1 0
                 (req_waypoints (one_waypoint 60))) 0 = Some r
    /\ waypoint_index r = 0%nat
    /\ hazards r
       = map (detail_of (M := approx_math)
                (wp_lat (campus_waypoint 60)) (wp_lng (campus_waypoint 60)))
           (filter (within_radius (M := approx_math)
                      (wp_lat (campus_waypoint 60)) (wp_lng (campus_waypoint 60)) 1)
              (query_hazards [far_pothole; near_crack]
                 (wp_lat (campus_waypoint 60)) (wp_lng (campus_waypoint 60)) (1 / 111)))
    /\ hazards_count r = List.length (hazards r).
Proof.
  apply (hazards_are_filtered_in_query_order (M := approx_math)
           (one_waypoint 60) [far_pothole; near_crack] _ 1 1 eq_refl 0%nat
           (campus_waypoint 60) eq_refl).
Defined.

(** ** The route analysis *)

Lemma fold_hazards_count_zero (recs : list Recommendation) (acc : nat) :
  (forall r, In r recs -> hazards_count r = 0%nat) ->
  fold_left (fun a r => (a + hazards_count r)%nat) recs acc = acc.
Proof.
  revert acc. induction recs as [|r rs IH]; intros acc H; simpl; [reflexivity|].
  rewrite (H r (or_introl eq_refl)), Nat.add_0_r.
  apply IH. intros r' Hr'. apply H. now right.
Qed.

Lemma fold_speed_reduction_zero (recs : list Recommendation) (acc : Z) :
  (forall r, In r recs -> speed_reduction r = 0) ->
  fold_left (fun a r => a + speed_reduction r) recs acc = acc.
Proof.
  revert acc. induction recs as [|r rs IH]; intros acc H; simpl; [reflexivity|].
  rewrite (H r (or_introl eq_refl)), Z.add_0_r.
  apply IH. intros r' Hr'. apply H. now right.
Qed.

Lemma max_by_reduction_in (rest : list Recommendation) :
  forall best, In (max_by_reduction best rest) (best :: rest).
Proof.
  induction rest as [|x xs IH]; intros best; simpl; [now left|].
  destruct (speed_reduction best <? speed_reduction x).
  - right. apply IH.
  - destruct (IH best) as [H|H]; [left; exact H | right; right; exact H].
Qed.

Lemma max_by_reduction_ge_best (rest : list Recommendation) :
  forall best, speed_reduction best <= speed_reduction (max_by_reduction best rest).
Proof.
  induction rest as [|x xs IH]; intros best; simpl; [lia|].
  destruct (speed_reduction best <? speed_reduction x) eqn:E.
  - apply Z.ltb_lt in E. specialize (IH x). lia.
  - apply IH.
Qed.

Lemma max_by_reduction_max (rest : list Recommendation) :
  forall best r, In r (best :: rest) ->
    speed_reduction r <= speed_reduction (max_by_reduction best rest).
Proof.
  induction rest as [|x xs IH]; intros best r Hin; simpl in *.
  - destruct Hin as [<-|[]]. lia.
  - destruct (speed_reduction best <? speed_reduction x) eqn:E.
    + apply Z.ltb_lt in E.
      destruct Hin as [<-|Hin].
      * pose proof (max_by_reduction_ge_best xs x). lia.
      * apply IH. exact Hin.
    + apply Z.ltb_ge in E.
      destruct Hin as [<-|[<-|Hin]].
      * apply max_by_reduction_ge_best.
      * pose proof (max_by_reduction_ge_best xs best). lia.
      * apply IH. now right.
Qed.

Lemma py_round_zero (x : Q) (ndigits : nat) : (x == 0)%Q -> (py_round x ndigits == 0)%Q.
Proof.
  intros Hx. unfold py_round.
  set (s := inject_Z (10 ^ Z.of_nat ndigits)).
  assert (Hy : (x * s == inject_Z 0)%Q) by (rewrite Hx; ring).
  assert (Hfl : Qfloor (x * s) = 0).
  { rewrite (Qfloor_comp _ _ Hy). apply Qfloor_Z. }
  rewrite Hfl.
  assert (Hlt : Qltb (x * s - inject_Z 0) (1 # 2) = true).
  { apply Qltb_lt. rewrite Hy. reflexivity. }
  rewrite Hlt. unfold Qdiv. change (inject_Z 0) with 0%Q. ring.
Qed.

(** C2 as stated fails: the handler answers an empty waypoint list with
    the error response of status 400, not with a report.  And where no
    hazard matches, the summary of a non-empty list still names a most
    dangerous segment, and its average speed reduction need not be zero:
    with speed limit 10 the recommended speed is 20 and the average
    reduction is -10. *)
Lemma empty_route_is_an_error :
  analyze_route_safety (M := approx_math) no_waypoints [far_pothole; near_crack]
  = ResponseWithStatus (ErrorBody "No waypoints provided") 400
  /\ map hazards_count slow_zone = [0%nat]
  /\ map speed_reduction slow_zone = [-10]
  /\ total_hazards (route_analysis_of 1 slow_zone) = 0%nat
  /\ most_dangerous_segment (route_analysis_of 1 slow_zone) = nth_error slow_zone 0
  /\ nth_error slow_zone 0 <> None
  /\ average_speed_reduction (route_analysis_of 1 slow_zone) = (-100 # 10)%Q.
Proof.
  repeat split; try (vm_compute; reflexivity).
  vm_compute. discriminate.
Qed.

(** C2, amended: an empty waypoint list is answered with the error
    response "No waypoints provided" of status 400, and nothing is divided.
    The summary computed from a list of recommendations none of which has a
    matched hazard reports zero hazards and the level [safe]; its average
    speed reduction is zero when every recommendation's reduction is zero,
    and is zero, without a division, over the empty list; its most
    dangerous segment is absent over the empty list only, and otherwise is
    a recommendation of the list with the largest speed reduction. *)
Theorem route_summary_without_hazards :
  (forall (M : MathLib Q) (radius : option Q) (db : list Hazard),
      analyze_route_safety {| req_waypoints := []; req_search_radius_km := radius |} db
      = ResponseWithStatus (ErrorBody "No waypoints provided") 400)
  /\ (forall (n : nat) (recs : list Recommendation),
      (forall r, In r recs -> hazards_count r = 0%nat) ->
      total_hazards (route_analysis_of n recs) = 0%nat
      /\ safety_level (route_analysis_of n recs) = safe)
  /\ (forall (n : nat) (recs : list Recommendation),
      (forall r, In r recs -> speed_reduction r = 0) ->
      (average_speed_reduction (route_analysis_of n recs) == 0)%Q)
  /\ (forall n : nat,
      total_hazards (route_analysis_of n []) = 0%nat
      /\ (average_speed_reduction (route_analysis_of n []) == 0)%Q
      /\ safety_level (route_analysis_of n []) = safe
      /\ most_dangerous_segment (route_analysis_of n []) = None)
  /\ (forall (n : nat) (r : Recommendation) (rest : list Recommendation),
      exists best : Recommendation,
        most_dangerous_segment (route_analysis_of n (r :: rest)) = Some best
        /\ In best (r :: rest)
        /\ forall x, In x (r :: rest) -> speed_reduction x <= speed_reduction best).
Proof.
  split; [|split; [|split; [|split]]].
  - reflexivity.
  - intros n recs H. unfold route_analysis_of. cbn [total_hazards safety_level].
    rewrite (fold_hazards_count_zero recs 0 H). split; reflexivity.
  - intros n recs H. unfold route_analysis_of. cbn [average_speed_reduction].
    apply py_round_zero.
    rewrite (fold_speed_reduction_zero recs 0 H).
    destruct recs; [reflexivity|]. unfold Qdiv. change (inject_Z 0) with 0%Q. ring.
  - intros n. repeat split; reflexivity.
  - intros n r rest. exists (max_by_reduction r rest). split; [reflexivity|]. split.
    + apply max_by_reduction_in.
    + apply max_by_reduction_max.
Qed.

(** An instance of C2 as amended: the summary of one recommendation
    without matched hazards. *)
Lemma route_summary_without_hazards_witness :
  total_hazards (route_analysis_of 1 slow_zone) = 0%nat
  /\ safety_level (route_analysis_of 1 slow_zone) = safe.
Proof.
  apply (proj1 (proj2 route_summary_without_hazards) 1%nat slow_zone).
  intros r [<-|[]]. reflexivity.
Defined.

(** With a non-empty waypoint list the handler of the route analysis
    subscripts the bare response of [get_speed_recommendations] and ends
    in its own [except] branch. *)
Remark analyze_route_safety_nonempty {M : MathLib Q}
    (w : Waypoint) (ws : list Waypoint) (radius : option Q) (db : list Hazard) :
  analyze_route_safety {| req_waypoints := w :: ws; req_search_radius_km := radius |} db
  = ResponseWithStatus (ErrorBody "'Response' object is not subscriptable") 500.
Proof. reflexivity. Qed.

(** ** The GPS simulator *)

Lemma bind_run {A B : Type} (m : Rand A) (k : A -> Rand B) (g : Rng) :
  (x <- m ;; k x) g = k (fst (m g)) (snd (m g)).
Proof. unfold bind. destruct (m g); reflexivity. Qed.

Section GPSProperties.
Context {M : MathLib Q}.
Local Open Scope Q_scope.

Lemma update_heading_keeps_speed (self : GPSSimulator.t) (g : Rng) :
  GPSSimulator.speed_kmh (fst (GPSSimulator.update_heading self g))
  = GPSSimulator.speed_kmh self.
Proof.
  unfold GPSSimulator.update_heading, bind, random, uniform, ret. simpl.
  destruct (Qltb _ (1 # 10)); reflexivity.
Qed.

(** [max(20, min(80, v))] lies between 20 and 80. *)
Lemma clamp_bounds (v : Q) :
  20 <= py_max (N := exact) 20 (py_min (N := exact) 80 v) <= 80.
Proof.
  unfold py_max, py_min. change (@fltb exact) with Qltb.
  destruct (Qltb v 80) eqn:E1.
  - destruct (Qltb 20 v) eqn:E2; qbool; split; lra.
  - destruct (Qltb 20 80) eqn:E2; qbool; split; lra.
Qed.

Lemma update_speed_clamps (self : GPSSimulator.t) (g : Rng) :
  GPSSimulator.speed_kmh (fst (GPSSimulator.update_speed self g))
  = GPSSimulator.speed_kmh self
  \/ 20 <= GPSSimulator.speed_kmh (fst (GPSSimulator.update_speed self g)) <= 80.
Proof.
  unfold GPSSimulator.update_speed, bind, random, uniform, ret. simpl.
  destruct (Qltb _ (5 # 100)); simpl.
  - right. apply clamp_bounds.
  - left. reflexivity.
Qed.

(** [move] changes the speed only through [update_speed]. *)
Lemma move_speed_through_update (self : GPSSimulator.t) (dt : Q) (g : Rng) :
  exists (s1 : GPSSimulator.t) (g1 : Rng),
    GPSSimulator.speed_kmh s1 = GPSSimulator.speed_kmh self
    /\ GPSSimulator.speed_kmh (fst (GPSSimulator.move self dt g))
       = GPSSimulator.speed_kmh (fst (GPSSimulator.update_speed s1 g1)).
Proof.
  unfold GPSSimulator.move. simpl.
  set (moved := {| GPSSimulator.current_lat := _ |}).
  pose proof (update_heading_keeps_speed moved g) as Hh.
  unfold bind at 1.
  destruct (GPSSimulator.update_heading moved g) as [s1 g1]. simpl in Hh.
  exists s1, g1. split; [exact Hh|].
  unfold bind at 1.
  destruct (GPSSimulator.update_speed s1 g1) as [s2 g2].
  reflexivity.
Qed.

Lemma move_speed (self : GPSSimulator.t) (dt : Q) (g : Rng) :
  GPSSimulator.speed_kmh (fst (GPSSimulator.move self dt g))
  = GPSSimulator.speed_kmh self
  \/ 20 <= GPSSimulator.speed_kmh (fst (GPSSimulator.move self dt g)) <= 80.
Proof.
  destruct (move_speed_through_update self dt g) as (s1 & g1 & Hh & ->).
  rewrite <- Hh. apply update_speed_clamps.
Qed.

Lemma moves_cons (self : GPSSimulator.t) (dt : Q) (rest : list Q) (g : Rng) :
  GPSSimulator.moves self (dt :: rest) g
  = GPSSimulator.moves (fst (GPSSimulator.move self dt g)) rest
      (snd (GPSSimulator.move self dt g)).
Proof.
  simpl. unfold bind. destruct (GPSSimulator.move self dt g); reflexivity.
Qed.

(** C7, amended: a simulator whose speed lies within [20, 80] km/h, as
    with the default of 50, keeps its speed within [20, 80] through every
    finite sequence of [move] calls, whatever the time deltas and the
    random draws; a single [move] leaves the speed as it was or sets it to
    a value within [20, 80]. *)
Theorem speed_stays_within_bounds :
  (forall (time_deltas : list Q) (self : GPSSimulator.t) (g : Rng),
      20 <= GPSSimulator.speed_kmh self <= 80 ->
      20 <= GPSSimulator.speed_kmh (fst (GPSSimulator.moves self time_deltas g)) <= 80)
  /\ (forall (self : GPSSimulator.t) (dt : Q) (g : Rng),
      GPSSimulator.speed_kmh (fst (GPSSimulator.move self dt g))
      = GPSSimulator.speed_kmh self
      \/ 20 <= GPSSimulator.speed_kmh (fst (GPSSimulator.move self dt g)) <= 80)
  /\ (forall (start_lat start_lng : Q) (time_deltas : list Q) (g : Rng),
      20 <= GPSSimulator.speed_kmh
              (fst ((self <- GPSSimulator.init start_lat start_lng 50 ;;
                     GPSSimulator.moves self time_deltas) g)) <= 80).
Proof.
  assert (Hmoves : forall (time_deltas : list Q) (self : GPSSimulator.t) (g : Rng),
      20 <= GPSSimulator.speed_kmh self <= 80 ->
      20 <= GPSSimulator.speed_kmh (fst (GPSSimulator.moves self time_deltas g)) <= 80).
  { induction time_deltas as [|dt rest IH]; intros self g Hs.
    - exact Hs.
    - rewrite moves_cons. apply IH.
      destruct (move_speed self dt g) as [E|H]; [rewrite E; exact Hs | exact H]. }
  split; [exact Hmoves|]. split; [exact move_speed|].
  intros start_lat start_lng time_deltas g.
  rewrite bind_run. apply Hmoves.
  unfold GPSSimulator.init, bind, uniform, random, ret. simpl. split; lra.
Qed.

End GPSProperties.

(** An instance of C7 as amended: two calls of [move] from 50 km/h. *)
Lemma speed_stays_within_bounds_witness :
  (20 <= 50 <= 80)%Q
  /\ (20 <= GPSSimulator.speed_kmh
              (fst (GPSSimulator.moves (M := approx_math)
                      {| GPSSimulator.current_lat := 340151 # 10000;
                         GPSSimulator.current_lng := 715249 # 10000;
                         GPSSimulator.speed_kmh := 50;
                         GPSSimulator.heading := 45;
                         GPSSimulator.accuracy := 5 |} [1; 1] steady_rng)) <= 80)%Q.
Proof.
  split; [split; discriminate|].
  apply (proj1 (@speed_stays_within_bounds approx_math) [1; 1]%Q).
  simpl. split; discriminate.
Defined.

(** C7 as stated fails: a simulator constructed with 100 km/h still
    reports 100 km/h after three calls of [move] in which no speed change
    is drawn. *)
Lemma fast_simulator_stays_fast :
  GPSSimulator.speed_kmh
    (fst ((self <- GPSSimulator.init (340151 # 10000) (715249 # 10000) 100 ;;
           GPSSimulator.moves (M := approx_math) self [1; 1; 1]%Q) steady_rng)) = 100%Q
  /\ ~ (100 <= 80)%Q.
Proof. split; [vm_compute; reflexivity | lra]. Qed.

(** ** The route simulator *)

Section RouteSimulatorProperties.
Context {M : MathLib Q}.
Local Open Scope Q_scope.

(** The three ways in which [move] returns. *)
Lemma move_cases (s s' : RouteSimulator.t) (dt : Q) :
  RouteSimulator.move s dt = Ok s' ->
  (RouteSimulator.at_end s = true /\ s' = s)
  \/ (RouteSimulator.at_end s = false
      /\ exists (current next_wp : Location) (inc : Q),
           nth_error (RouteSimulator.waypoints s)
             (RouteSimulator.current_waypoint_index s) = Some current
           /\ nth_error (RouteSimulator.waypoints s)
                (RouteSimulator.current_waypoint_index s + 1) = Some next_wp
           /\ RouteSimulator.distance_increment s dt current next_wp = Ok inc
           /\ ((1 <= RouteSimulator.progress s + inc /\ s' = advanced s)
               \/ (RouteSimulator.progress s + inc < 1 /\ s' = progressed s inc))).
Proof.
  unfold RouteSimulator.move. intros H.
  destruct (RouteSimulator.at_end s) eqn:Hend.
  - left. inversion H. split; reflexivity.
  - right. split; [reflexivity|].
    destruct (nth_error _ (RouteSimulator.current_waypoint_index s))
      as [current|] eqn:Hc; [|discriminate].
    destruct (nth_error _ (RouteSimulator.current_waypoint_index s + 1))
      as [next_wp|] eqn:Hn; [|discriminate].
    exists current, next_wp.
    destruct (RouteSimulator.distance_increment s dt current next_wp)
      as [inc|e] eqn:Hinc; [|discriminate].
    exists inc.
    split; [reflexivity|]. split; [reflexivity|]. split; [reflexivity|].
    destruct (Qle_bool 1 _) eqn:Hp; inversion H; subst; qbool.
    + left. split; [exact Hp | reflexivity].
    + right. split; [exact Hp | reflexivity].
Qed.

Lemma move_keeps_progress_below_1 (s s' : RouteSimulator.t) (dt : Q) :
  RouteSimulator.progress s < 1 ->
  RouteSimulator.move s dt = Ok s' ->
  RouteSimulator.progress s' < 1.
Proof.
  intros Hp Hm. apply move_cases in Hm.
  destruct Hm as [[_ ->]|[_ (c & n & inc & _ & _ & _ & [[_ ->]|[Hlt ->]])]].
  - exact Hp.
  - reflexivity.
  - exact Hlt.
Qed.

Lemma reachable_progress_below_1 (s0 s : RouteSimulator.t) :
  RouteSimulator.progress s0 < 1 ->
  RouteSimulator.reachable s0 s ->
  RouteSimulator.progress s < 1.
Proof.
  intros H0 Hr. induction Hr as [|s s' dt Hr IH Hm].
  - exact H0.
  - eapply move_keeps_progress_below_1; eassumption.
Qed.

Lemma init_progress (waypoints : list Location) (speed : Q) (g g' : Rng)
    (s0 : RouteSimulator.t) :
  RouteSimulator.init waypoints speed g = (Ok s0, g') ->
  RouteSimulator.progress s0 = 0 /\ RouteSimulator.current_waypoint_index s0 = 0%nat.
Proof.
  unfold RouteSimulator.init. destruct waypoints as [|w ws].
  - unfold ret. intros H. inversion H.
  - rewrite bind_run. unfold ret. intros H. inversion H. split; reflexivity.
Qed.

(** C8: take a route simulator as constructed and any simulator reached
    from it by calls of [move].  After a further call of [move] that
    returns, the progress is strictly below 1.  The call either advances
    the waypoint index by one and sets the progress to 0, which it does
    when the incremented progress has reached 1, or it leaves the index
    alone and the progress is not reset: it is the old progress plus the
    increment, below 1, or the simulator is at its last waypoint and is
    unchanged. *)
Theorem progress_below_1_and_reset_with_advance
    (waypoints : list Location) (speed : Q) (g g' : Rng)
    (s0 s s' : RouteSimulator.t) (dt : Q) :
  RouteSimulator.init waypoints speed g = (Ok s0, g') ->
  RouteSimulator.reachable s0 s ->
  RouteSimulator.move s dt = Ok s' ->
  RouteSimulator.progress s' < 1
  /\ ((RouteSimulator.current_waypoint_index s'
       = (RouteSimulator.current_waypoint_index s + 1)%nat
       /\ RouteSimulator.progress s' = 0
       /\ exists current next_wp inc,
            RouteSimulator.distance_increment s dt current next_wp = Ok inc
            /\ 1 <= RouteSimulator.progress s + inc)
      \/ (RouteSimulator.current_waypoint_index s'
          = RouteSimulator.current_waypoint_index s
          /\ (s' = s
              \/ exists current next_wp inc,
                   RouteSimulator.distance_increment s dt current next_wp = Ok inc
                   /\ RouteSimulator.progress s' = RouteSimulator.progress s + inc
                   /\ RouteSimulator.progress s + inc < 1))).
Proof.
  intros Hinit Hreach Hmove.
  apply init_progress in Hinit. destruct Hinit as [Hp0 _].
  assert (Hs : RouteSimulator.progress s < 1).
  { apply (reachable_progress_below_1 s0); [rewrite Hp0; reflexivity | exact Hreach]. }
  split; [eapply move_keeps_progress_below_1; eassumption|].
  apply move_cases in Hmove.
  destruct Hmove as [[_ ->]|[_ (c & n & inc & _ & _ & Hinc & [[Hge ->]|[Hlt ->]])]].
  - right. split; [reflexivity | left; reflexivity].
  - left. repeat split. exists c, n, inc. split; assumption.
  - right. split; [reflexivity|]. right. exists c, n, inc. repeat split; assumption.
Qed.

(** C9, amended: at the last waypoint [move] returns the simulator as it
    was: index, progress and the embedded GPS simulator (position, heading,
    speed, accuracy) are unchanged and nothing is drawn, so no motion takes
    place; [get_current_position] hands over to the embedded simulator's
    [get_current_position] and leaves the route simulator unchanged. *)
Theorem move_at_last_waypoint_is_identity (s : RouteSimulator.t) (dt : Q) :
  RouteSimulator.at_end s = true ->
  RouteSimulator.move s dt = Ok s
  /\ forall (now : string) (g : Rng),
       RouteSimulator.get_current_position s now g
       = (Ok (fst (GPSSimulator.get_current_position
                     (RouteSimulator.gps_simulator s) now g), s),
          snd (GPSSimulator.get_current_position
                 (RouteSimulator.gps_simulator s) now g)).
Proof.
  intros Hend. split.
  - unfold RouteSimulator.move. now rewrite Hend.
  - intros now g. unfold RouteSimulator.get_current_position.
    rewrite Hend, bind_run. reflexivity.
Qed.

End RouteSimulatorProperties.

(** An instance of C8: the first call of [move] on the route from the
    campus to GT Road. *)
Lemma progress_below_1_and_reset_with_advance_witness :
  (RouteSimulator.progress after_one_move < 1)%Q
  /\ ((RouteSimulator.current_waypoint_index after_one_move
       = (RouteSimulator.current_waypoint_index campus_to_gt_road + 1)%nat
       /\ RouteSimulator.progress after_one_move = 0%Q
       /\ exists current next_wp inc,
            RouteSimulator.distance_increment (M := approx_math)
              campus_to_gt_road 1 current next_wp = Ok inc
            /\ (1 <= RouteSimulator.progress campus_to_gt_road + inc)%Q)
      \/ (RouteSimulator.current_waypoint_index after_one_move
          = RouteSimulator.current_waypoint_index campus_to_gt_road
          /\ (after_one_move = campus_to_gt_road
              \/ exists current next_wp inc,
                   RouteSimulator.distance_increment (M := approx_math)
                     campus_to_gt_road 1 current next_wp = Ok inc
                   /\ RouteSimulator.progress after_one_move
                      = (RouteSimulator.progress campus_to_gt_road + inc)%Q
                   /\ (RouteSimulator.progress campus_to_gt_road + inc < 1)%Q))).
Proof.
  apply (progress_below_1_and_reset_with_advance (M := approx_math)
           [campus; gt_road] 60 steady_rng
           (snd (GPSSimulator.init (340151 # 10000) (715249 # 10000) 60 steady_rng))
           campus_to_gt_road campus_to_gt_road after_one_move 1).
  - reflexivity.
  - apply RouteSimulator.reach_init.
  - vm_compute. reflexivity.
Defined.

(** An instance of C9 as amended: a simulator with a single waypoint. *)
Lemma move_at_last_waypoint_is_identity_witness :
  RouteSimulator.move (M := approx_math) parked 1 = Ok parked
  /\ forall (now : string) (g : Rng),
       RouteSimulator.get_current_position parked now g
       = (Ok (fst (GPSSimulator.get_current_position
                     (RouteSimulator.gps_simulator parked) now g), parked),
          snd (GPSSimulator.get_current_position
                 (RouteSimulator.gps_simulator parked) now g)).
Proof.
  apply (move_at_last_waypoint_is_identity (M := approx_math) parked 1).
  reflexivity.
Defined.

(** The position after a free [move] of the GPS simulator does not depend
    on the draws. *)
Lemma free_move_position {M : MathLib Q} (self : GPSSimulator.t) (dt : Q) (g : Rng) :
  GPSSimulator.current_lat (fst (GPSSimulator.move self dt g))
  = fst (GPSSimulator.calculate_new_position self dt).
Proof.
  unfold GPSSimulator.move. simpl.
  rewrite !bind_run. unfold ret. simpl.
  unfold GPSSimulator.update_speed. rewrite bind_run.
  unfold GPSSimulator.update_heading. rewrite bind_run.
  destruct (Qltb (fst (random (snd _))) (5 # 100));
    destruct (Qltb (fst (random g)) (1 # 10)); reflexivity.
Qed.

(** C9 as stated fails: at the last waypoint [move] returns the simulator
    untouched, embedded GPS simulator included, whereas a free [move] of
    the embedded simulator would displace it, whatever is drawn. *)
Lemma last_waypoint_move_is_not_free_motion :
  RouteSimulator.at_end parked = true
  /\ RouteSimulator.move (M := approx_math) parked 1 = Ok parked
  /\ (forall g : Rng,
        ~ (GPSSimulator.current_lat
             (fst (GPSSimulator.move (M := approx_math)
                     (RouteSimulator.gps_simulator parked) 1 g))
           == GPSSimulator.current_lat (RouteSimulator.gps_simulator parked))%Q)
  /\ (forall g : Rng,
        RouteSimulator.gps_simulator parked
        <> fst (GPSSimulator.move (M := approx_math)
                  (RouteSimulator.gps_simulator parked) 1 g)).
Proof.
  assert (Hlat : forall g : Rng,
    ~ (GPSSimulator.current_lat
         (fst (GPSSimulator.move (M := approx_math)
                 (RouteSimulator.gps_simulator parked) 1 g))
       == GPSSimulator.current_lat (RouteSimulator.gps_simulator parked))%Q).
  { intros g. rewrite free_move_position. vm_compute. discriminate. }
  split; [reflexivity|]. split; [reflexivity|]. split; [exact Hlat|].
  intros g Heq. apply (Hlat g). rewrite <- Heq. reflexivity.
Qed.

(** *** Coinciding waypoints *)

(** Short of the last waypoint the current and the next waypoint exist,
    so a raising [move] raises [ZeroDivisionError] and nothing else. *)
Lemma not_at_end_has_segment (s : RouteSimulator.t) :
  RouteSimulator.at_end s = false ->
  exists current next_wp : Location,
    nth_error (RouteSimulator.waypoints s) (RouteSimulator.current_waypoint_index s)
      = Some current
    /\ nth_error (RouteSimulator.waypoints s)
         (RouteSimulator.current_waypoint_index s + 1) = Some next_wp.
Proof.
  unfold RouteSimulator.at_end. intros H. apply Z.leb_gt in H.
  destruct (nth_error (RouteSimulator.waypoints s)
              (RouteSimulator.current_waypoint_index s)) as [c|] eqn:Hc.
  - destruct (nth_error (RouteSimulator.waypoints s)
                (RouteSimulator.current_waypoint_index s + 1)) as [n|] eqn:Hn.
    + exists c, n. split; reflexivity.
    + apply nth_error_None in Hn. lia.
  - apply nth_error_None in Hc. lia.
Qed.

Lemma move_raises_only_zero_division {M : MathLib Q}
    (s : RouteSimulator.t) (dt : Q) (e : exn) :
  RouteSimulator.move s dt = Raise e -> e = ZeroDivisionError.
Proof.
  unfold RouteSimulator.move. destruct (RouteSimulator.at_end s) eqn:Hend; [discriminate|].
  destruct (not_at_end_has_segment s Hend) as (c & n & Hc & Hn).
  rewrite Hc, Hn. unfold RouteSimulator.distance_increment, py_div.
  destruct (Qeq_bool _ 0).
  - intros H. inversion H. reflexivity.
  - destruct (Qle_bool 1 _); discriminate.
Qed.

Section ZeroSegment.
Context {M : MathLib Q} (laws : MathAtZero M).
Local Open Scope Q_scope.

(** The haversine distance between two points with the same coordinates
    is zero. *)
Lemma calculate_distance_same (lat1 lng1 lat2 lng2 : Q) :
  lat1 == lat2 -> lng1 == lng2 ->
  RouteSimulator.calculate_distance lat1 lng1 lat2 lng2 == 0.
Proof.
  intros Hlat Hlng. unfold RouteSimulator.calculate_distance. cbv zeta.
  assert (Hs1 : m_sin (radians (N := exact) (lat2 - lat1) / 2) == 0).
  { apply (sin_zero M laws). unfold radians. cbn [fmul fdiv of_int exact].
    rewrite Hlat. unfold Qdiv. ring. }
  assert (Hs2 : m_sin (radians (N := exact) (lng2 - lng1) / 2) == 0).
  { apply (sin_zero M laws). unfold radians. cbn [fmul fdiv of_int exact].
    rewrite Hlng. unfold Qdiv. ring. }
  set (a := m_sin _ * m_sin _ + _).
  assert (Ha : a == 0).
  { unfold a. rewrite Hs1, Hs2. ring. }
  assert (Hy : m_sqrt a == 0) by (apply (sqrt_zero M laws); exact Ha).
  assert (Hx : 0 < m_sqrt (1 - a)).
  { apply (sqrt_one M laws). rewrite Ha. ring. }
  rewrite (atan2_zero M laws _ _ Hy Hx). ring.
Qed.

Lemma py_div_raises (x y : Q) : py_div x y = Raise ZeroDivisionError <-> y == 0.
Proof.
  unfold py_div. destruct (Qeq_bool y 0) eqn:E.
  - apply Qeq_bool_iff in E. split; [intros _; exact E | reflexivity].
  - split; [discriminate|]. intros H. apply Qeq_bool_iff in H. congruence.
Qed.

(** Short of the last waypoint, [move] raises exactly when the length of
    the current segment, in metres, is zero. *)
Lemma move_raises_iff (s : RouteSimulator.t) (dt : Q) (current next_wp : Location) :
  RouteSimulator.at_end s = false ->
  nth_error (RouteSimulator.waypoints s) (RouteSimulator.current_waypoint_index s)
    = Some current ->
  nth_error (RouteSimulator.waypoints s) (RouteSimulator.current_waypoint_index s + 1)
    = Some next_wp ->
  (RouteSimulator.move s dt = Raise ZeroDivisionError
   <-> RouteSimulator.calculate_distance
         (lat current) (lng current) (lat next_wp) (lng next_wp) * 1000 == 0).
Proof.
  intros Hend Hc Hn. unfold RouteSimulator.move.
  rewrite Hend, Hc, Hn. unfold RouteSimulator.distance_increment.
  rewrite <- (py_div_raises (RouteSimulator.speed_kmh s * 1000 / 3600 * dt)).
  destruct (py_div _ _) as [inc|e] eqn:E.
  - split; [|discriminate]. destruct (Qle_bool 1 _); discriminate.
  - simpl. split; intros H; inversion H; reflexivity.
Qed.

(** C10: where the current and the next waypoint have the same
    coordinates, [move] short of the last waypoint divides by a segment
    length of zero and raises [ZeroDivisionError]; it neither advances nor
    returns.  Short of the last waypoint it returns exactly when the
    segment length is not zero. *)
Theorem move_raises_on_repeated_waypoint
    (s : RouteSimulator.t) (dt : Q) (current next_wp : Location) :
  RouteSimulator.at_end s = false ->
  nth_error (RouteSimulator.waypoints s) (RouteSimulator.current_waypoint_index s)
    = Some current ->
  nth_error (RouteSimulator.waypoints s) (RouteSimulator.current_waypoint_index s + 1)
    = Some next_wp ->
  (lat current == lat next_wp -> lng current == lng next_wp ->
   RouteSimulator.move s dt = Raise ZeroDivisionError)
  /\ ((exists s', RouteSimulator.move s dt = Ok s')
      <-> ~ RouteSimulator.calculate_distance
              (lat current) (lng current) (lat next_wp) (lng next_wp) * 1000 == 0).
Proof.
  intros Hend Hc Hn.
  pose proof (move_raises_iff s dt current next_wp Hend Hc Hn) as Hiff.
  split.
  - intros Hlat Hlng. apply Hiff.
    rewrite (calculate_distance_same _ _ _ _ Hlat Hlng). ring.
  - split.
    + intros [s' Hs'] Hz. apply Hiff in Hz. congruence.
    + intros Hnz. destruct (RouteSimulator.move s dt) as [s'|e] eqn:E.
      * exists s'. reflexivity.
      * exfalso. apply Hnz, Hiff.
        revert E. unfold RouteSimulator.move. rewrite Hend, Hc, Hn.
        unfold RouteSimulator.distance_increment, py_div.
        destruct (Qeq_bool _ 0).
        -- intros E. symmetry. exact E.
        -- destruct (Qle_bool 1 _); discriminate.
Qed.

End ZeroSegment.

(** *** The series implementation at zero *)

Lemma trim_zero (x : Q) : (x == 0)%Q -> trim x = (0 # 10 ^ 20)%Q.
Proof.
  intros Hx. unfold trim.
  assert (H : (x * inject_Z (10 ^ 20) == inject_Z 0)%Q) by (rewrite Hx; ring).
  rewrite (Qfloor_comp _ _ H), Qfloor_Z. reflexivity.
Qed.

Lemma trim_one (x : Q) : (x == 1)%Q -> trim x = (10 ^ 20 # 10 ^ 20)%Q.
Proof.
  intros Hx. unfold trim.
  assert (H : (x * inject_Z (10 ^ 20) == inject_Z (10 ^ 20))%Q) by (rewrite Hx; ring).
  rewrite (Qfloor_comp _ _ H), Qfloor_Z. reflexivity.
Qed.

Lemma trim_nonneg (x : Q) : (0 <= x)%Q -> (0 <= trim x)%Q.
Proof.
  intros Hx. unfold trim.
  assert (H : (inject_Z 0 <= x * inject_Z (10 ^ 20))%Q).
  { change (inject_Z 0) with 0%Q.
    apply Qmult_le_0_compat; [exact Hx | discriminate]. }
  apply Qfloor_resp_le in H. rewrite Qfloor_Z in H.
  unfold Qle. cbn [Qnum Qden]. rewrite Z.mul_0_l, Z.mul_1_r. exact H.
Qed.

Lemma series_atan_zero (t : Q) : (t == 0)%Q -> (series_atan (N := exact) t == 0)%Q.
Proof.
  intros Ht. unfold series_atan. cbn [fmul fsub fdiv of_int exact].
  rewrite Ht. ring.
Qed.

Lemma approx_math_at_zero : MathAtZero approx_math.
Proof.
  constructor.
  - intros x Hx. cbn [m_sin approx_math]. rewrite (trim_zero x Hx). reflexivity.
  - intros x Hx. cbn [m_sqrt approx_math]. unfold Qsqrt_approx.
    rewrite (trim_zero x Hx). reflexivity.
  - intros x Hx. cbn [m_sqrt approx_math]. unfold Qsqrt_approx.
    rewrite (trim_one x Hx). reflexivity.
  - intros y x Hy Hx. cbn [m_atan2 approx_math].
    rewrite (trim_zero y Hy).
    pose proof (trim_nonneg x (Qlt_le_weak _ _ Hx)) as Hnn.
    rewrite trim_zero; [reflexivity|]. unfold series_atan2.
    change (@fltb exact) with Qltb. change (@of_int exact 0) with 0%Q.
    destruct (Qltb 0 (trim x)) eqn:E1.
    + apply series_atan_zero. cbn [fdiv exact].
      assert (Hz : (0 # 10 ^ 20 == 0)%Q) by reflexivity.
      rewrite Hz. unfold Qdiv. ring.
    + destruct (Qltb (trim x) 0) eqn:E2; [qbool; lra|].
      reflexivity.
Qed.

(** An instance of C10: the route that lists the campus twice before GT
    Road; the first call of [move] raises. *)
Lemma move_raises_on_repeated_waypoint_witness :
  RouteSimulator.move (M := approx_math) (constructed [campus; campus; gt_road] 50) 1
  = Raise ZeroDivisionError.
Proof.
  apply (proj1 (move_raises_on_repeated_waypoint approx_math_at_zero
                  (constructed [campus; campus; gt_road] 50) 1 campus campus
                  eq_refl eq_refl eq_refl));
    reflexivity.
Defined.

(** * Further properties *)

(** ** Truncation *)

Lemma Qtruncate_opp (x : Q) : Qtruncate (- x) = - Qtruncate x.
Proof.
  destruct x as [a d]. unfold Qtruncate. simpl.
  apply Z.quot_opp_l. discriminate.
Qed.

Lemma Qtruncate_comp (x y : Q) : (x == y)%Q -> Qtruncate x = Qtruncate y.
Proof.
  intros E. destruct (Qlt_le_dec x 0) as [Hneg|Hpos].
  - assert (Hx : (0 <= - x)%Q) by lra.
    assert (Hy : (0 <= - y)%Q) by lra.
    assert (E' : (- x == - y)%Q) by (rewrite E; reflexivity).
    pose proof (Qtruncate_opp x) as Ox. pose proof (Qtruncate_opp y) as Oy.
    rewrite (Qtruncate_nonneg _ Hx) in Ox. rewrite (Qtruncate_nonneg _ Hy) in Oy.
    rewrite (Qfloor_comp _ _ E') in Ox. lia.
  - assert (Hy : (0 <= y)%Q) by lra.
    rewrite (Qtruncate_nonneg _ Hpos), (Qtruncate_nonneg _ Hy).
    now apply Qfloor_comp.
Qed.

Lemma Qtruncate_nonpos (x : Q) : (x <= 0)%Q -> Qtruncate x <= 0.
Proof. intros H. apply Qtruncate_le; [lia | exact H]. Qed.

(** ** The total impact as a sum *)

Section ImpactSum.
Context {M : MathLib Q}.
Local Open Scope Q_scope.

Lemma impact_of_nonneg (loc : Location) (h : Hazard) : 0 <= impact_of loc h.
Proof. unfold impact_of. apply add_impact_nonneg. lra. Qed.

Lemma add_impact_plus (loc : Location) (total : Q) (h : Hazard) :
  add_impact loc total h == total + impact_of loc h.
Proof.
  unfold impact_of. rewrite !add_impact_exact. cbv zeta.
  destruct (Qltb 0 _); ring.
Qed.

Lemma fold_add_impact_plus (loc : Location) (hazards : list Hazard) (total : Q) :
  fold_left (add_impact loc) hazards total == total + sum_impacts loc hazards.
Proof.
  revert total. induction hazards as [|h hs IH]; intros total; simpl.
  - ring.
  - rewrite IH, add_impact_plus. ring.
Qed.

Lemma total_impact_is_sum (loc : Location) (hazards : list Hazard) :
  total_impact_of loc hazards == sum_impacts loc hazards.
Proof. unfold total_impact_of. rewrite fold_add_impact_plus. apply Qplus_0_l. Qed.

Lemma sum_impacts_nonneg (loc : Location) (hazards : list Hazard) :
  0 <= sum_impacts loc hazards.
Proof.
  induction hazards as [|h hs IH]; simpl; [lra|].
  pose proof (impact_of_nonneg loc h). lra.
Qed.

Lemma sum_impacts_app (loc : Location) (hs1 hs2 : list Hazard) :
  sum_impacts loc (hs1 ++ hs2) == sum_impacts loc hs1 + sum_impacts loc hs2.
Proof.
  induction hs1 as [|h hs IH]; simpl; [ring|]. rewrite IH. ring.
Qed.

Lemma calculate_recommended_speed_at_impact
    (loc : Location) (hazards : list Hazard) (base : Z) :
  calculate_recommended_speed (N := exact) loc hazards base
  = speed_at_impact base (total_impact_of loc hazards).
Proof. reflexivity. Qed.

Lemma py_min_cap_bounds (t : Q) :
  0 <= t -> 0 <= py_min (N := exact) t (8 # 10) <= 8 # 10.
Proof.
  intros Ht. unfold py_min. change (@fltb exact) with Qltb.
  destruct (Qltb (8 # 10) t) eqn:E; qbool; split; lra.
Qed.

Lemma py_min_cap_monotone (t1 t2 : Q) :
  t1 <= t2 -> py_min (N := exact) t1 (8 # 10) <= py_min (N := exact) t2 (8 # 10).
Proof.
  intros Ht. unfold py_min. change (@fltb exact) with Qltb.
  destruct (Qltb (8 # 10) t1) eqn:E1; destruct (Qltb (8 # 10) t2) eqn:E2; qbool; lra.
Qed.

(** A larger total impact never gives a higher speed. *)
Lemma speed_at_impact_antitone (base : Z) (t1 t2 : Q) :
  0 <= t1 -> t1 <= t2 -> (speed_at_impact base t2 <= speed_at_impact base t1)%Z.
Proof.
  intros H0 Hle. unfold speed_at_impact.
  pose proof (py_min_cap_bounds t1 H0) as B1.
  assert (H02 : 0 <= t2) by lra.
  pose proof (py_min_cap_bounds t2 H02) as B2.
  pose proof (py_min_cap_monotone t1 t2 Hle) as Hm.
  set (m1 := py_min (N := exact) t1 (8 # 10)) in *.
  set (m2 := py_min (N := exact) t2 (8 # 10)) in *.
  destruct (Z_le_gt_dec 0 base) as [Hb|Hb].
  - assert (0 <= inject_Z base) by (rewrite <- (Zle_Qle 0); lia).
    rewrite !Qtruncate_nonneg by nra.
    apply Z.max_le_compat_r. apply Qfloor_resp_le. nra.
  - assert (Hneg : inject_Z base <= inject_Z 0) by (rewrite <- Zle_Qle; lia).
    change (inject_Z 0) with 0 in Hneg.
    assert (Qtruncate (inject_Z base * (1 - m1)) <= 0)%Z by (apply Qtruncate_nonpos; nra).
    assert (Qtruncate (inject_Z base * (1 - m2)) <= 0)%Z by (apply Qtruncate_nonpos; nra).
    lia.
Qed.

Lemma speed_at_impact_comp (base : Z) (t1 t2 : Q) :
  0 <= t1 -> t1 == t2 -> speed_at_impact base t1 = speed_at_impact base t2.
Proof.
  intros H0 E. apply Z.le_antisymm.
  - apply speed_at_impact_antitone; lra.
  - apply speed_at_impact_antitone; lra.
Qed.

(** The recommended speed is determined by the sum of the hazards'
    contributions. *)
Lemma calculate_recommended_speed_of_sum
    (loc : Location) (hazards : list Hazard) (base : Z) :
  calculate_recommended_speed (N := exact) loc hazards base
  = speed_at_impact base (sum_impacts loc hazards).
Proof.
  rewrite calculate_recommended_speed_at_impact.
  apply speed_at_impact_comp.
  - apply total_impact_nonneg.
  - apply total_impact_is_sum.
Qed.

(** The speed is at most the larger of the limit and 20. *)
Lemma speed_at_impact_upper (base : Z) (t : Q) :
  0 <= t -> (speed_at_impact base t <= Z.max base 20)%Z.
Proof.
  intros Ht. unfold speed_at_impact.
  pose proof (py_min_cap_bounds t Ht) as B. set (m := py_min (N := exact) t (8 # 10)) in *.
  destruct (Z_le_gt_dec 0 base) as [Hb|Hb].
  - apply Z.max_le_compat_r. apply Qtruncate_le; [exact Hb|].
    assert (0 <= inject_Z base) by (rewrite <- (Zle_Qle 0); lia). nra.
  - assert (Hneg : inject_Z base <= inject_Z 0) by (rewrite <- Zle_Qle; lia).
    change (inject_Z 0) with 0 in Hneg.
    assert (Hq : (Qtruncate (inject_Z base * (1 - m)) <= 0)%Z)
      by (apply Qtruncate_nonpos; nra).
    lia.
Qed.

End ImpactSum.

(** ** More on the recommended speed *)

Section EngineExtras.
Context {M : MathLib Q}.
Local Open Scope Q_scope.

(** X1: for a speed limit below 20 the recommended speed is exactly 20,
    whatever the point and the hazards: it exceeds the limit, and the
    difference [limit - recommended] is negative. *)
Theorem low_limit_gives_20 (loc : Location) (hazards : list Hazard) (base_speed_limit : Z) :
  (base_speed_limit < 20)%Z ->
  calculate_recommended_speed (N := exact) loc hazards base_speed_limit = 20%Z
  /\ (base_speed_limit
      - calculate_recommended_speed (N := exact) loc hazards base_speed_limit < 0)%Z.
Proof.
  intros Hb. rewrite calculate_recommended_speed_at_impact.
  pose proof (speed_at_impact_upper base_speed_limit _ (total_impact_nonneg loc hazards)) as Hu.
  assert (Hl : (20 <= speed_at_impact base_speed_limit (total_impact_of loc hazards))%Z)
    by (unfold speed_at_impact; apply Z.le_max_r).
  split; lia.
Qed.

Lemma far_hazard_adds_nothing (loc : Location) (total : Q) (h : Hazard) :
  2 < distance_to loc h -> add_impact loc total h = total.
Proof.
  intros Hd. rewrite add_impact_exact. cbv zeta.
  fold (distance_to loc h). rewrite get_distance_factor_unfold.
  destruct (Qle_bool (distance_to loc h) (1 # 10)) eqn:H1;
  destruct (Qle_bool (distance_to loc h) (2 # 10)) eqn:H2;
  destruct (Qle_bool (distance_to loc h) (5 # 10)) eqn:H3;
  destruct (Qle_bool (distance_to loc h) 1) eqn:H4;
  destruct (Qle_bool (distance_to loc h) 2) eqn:H5; try reflexivity; qbool; lra.
Qed.

(** X2: a hazard more than 2 km from the point has no influence: with or
    without it, wherever it stands in the list, the recommended speed is
    the same. *)
Theorem hazard_beyond_2km_is_ignored
    (loc : Location) (before after : list Hazard) (h : Hazard) (base_speed_limit : Z) :
  2 < distance_to loc h ->
  calculate_recommended_speed (N := exact) loc (before ++ h :: after) base_speed_limit
  = calculate_recommended_speed (N := exact) loc (before ++ after) base_speed_limit.
Proof.
  intros Hd. rewrite !calculate_recommended_speed_at_impact.
  unfold total_impact_of. rewrite !fold_left_app. simpl.
  now rewrite far_hazard_adds_nothing.
Qed.

(** X3: one more hazard, wherever it stands in the list, never raises
    the recommended speed. *)
Theorem more_hazards_never_faster
    (loc : Location) (before after : list Hazard) (h : Hazard) (base_speed_limit : Z) :
  (calculate_recommended_speed (N := exact) loc (before ++ h :: after) base_speed_limit
   <= calculate_recommended_speed (N := exact) loc (before ++ after) base_speed_limit)%Z.
Proof.
  rewrite !calculate_recommended_speed_of_sum.
  apply speed_at_impact_antitone.
  - apply sum_impacts_nonneg.
  - rewrite !sum_impacts_app. simpl.
    pose proof (impact_of_nonneg loc h). lra.
Qed.

(** X4: a single hazard within 100 m of the point scales a speed limit
    from 0 to 2^40 by the factor of its severity (0.5 for high, 0.75 for
    medium, 0.9 for low), rounded down and floored at 20.  The upper bound
    keeps the product far enough below 2^53 for the double of the code to
    round down to the same integer as the exact product. *)
Theorem lone_hazard_within_100m (loc : Location) (h : Hazard) (base_speed_limit : Z) :
  distance_to loc h <= 1 # 10 ->
  (0 <= base_speed_limit <= 2 ^ 40)%Z ->
  calculate_recommended_speed (N := exact) loc [h] base_speed_limit
  = Z.max (Qfloor (inject_Z base_speed_limit
                   * SPEED_FACTORS (N := exact) (severity_level h))) 20.
Proof.
  intros Hd [Hb _]. rewrite calculate_recommended_speed_at_impact.
  unfold total_impact_of. simpl fold_left. rewrite add_impact_exact. cbv zeta.
  fold (distance_to loc h). rewrite get_distance_factor_unfold.
  apply Qle_bool_iff in Hd. rewrite Hd.
  change (Qltb 0 1) with true. cbv iota.
  unfold speed_at_impact, py_min. change (@fltb exact) with Qltb.
  change (@of_int exact 0) with 0. change (@of_int exact 1) with 1.
  assert (Hb' : 0 <= inject_Z base_speed_limit) by (rewrite <- (Zle_Qle 0); lia).
  destruct (severity_level h); cbn [SPEED_FACTORS];
    match goal with
    | |- context [Qltb ?a ?b] =>
        let c := eval vm_compute in (Qltb a b) in change (Qltb a b) with c
    end; cbv iota;
    (rewrite Qtruncate_nonneg; [apply f_equal2; [apply Qfloor_comp; ring | reflexivity]|]);
    (eapply Qle_trans; [|apply Qmult_le_0_compat; [exact Hb' | discriminate]]);
    try apply Qle_refl.
Qed.

End EngineExtras.

(** An instance of X1: speed limit 15 next to a hazard. *)
Lemma low_limit_gives_20_witness :
  calculate_recommended_speed (N := exact) (M := approx_math)
    university_road [pothole_here] 15 = 20
  /\ 15 - calculate_recommended_speed (N := exact) (M := approx_math)
            university_road [pothole_here] 15 < 0.
Proof.
  apply (low_limit_gives_20 (M := approx_math) university_road [pothole_here] 15).
  lia.
Defined.

(** An instance of X2: the debris on GT Road between two nearer hazards. *)
Lemma hazard_beyond_2km_is_ignored_witness :
  (2 < distance_to (M := approx_math) university_road gt_road_debris)%Q
  /\ calculate_recommended_speed (N := exact) (M := approx_math) university_road
       ([far_pothole] ++ gt_road_debris :: [near_crack]) 60
     = calculate_recommended_speed (N := exact) (M := approx_math) university_road
         ([far_pothole] ++ [near_crack]) 60.
Proof.
  split; [vm_compute; reflexivity|].
  apply (hazard_beyond_2km_is_ignored (M := approx_math)
           university_road [far_pothole] [near_crack] gt_road_debris 60).
  vm_compute; reflexivity.
Defined.

(** An instance of X4: a high-severity hazard at the point halves the
    limit of 80. *)
Lemma lone_hazard_within_100m_witness :
  (distance_to (M := approx_math) university_road pothole_here <= 1 # 10)%Q
  /\ calculate_recommended_speed (N := exact) (M := approx_math)
       university_road [pothole_here] 80
     = Z.max (Qfloor (inject_Z 80 * SPEED_FACTORS (N := exact) HIGH)) 20.
Proof.
  split; [vm_compute; discriminate|].
  apply (lone_hazard_within_100m (M := approx_math) university_road pothole_here 80).
  - vm_compute; discriminate.
  - split; [lia | vm_compute; discriminate].
Defined.

(** ** More on the route handlers *)

Section RouteExtras.
Context {M : MathLib Q}.

Lemma recommend_from_length (db : list Hazard) (radius : Q) (waypoints : list Waypoint) :
  forall k : nat, List.length (recommend_from db radius k waypoints) = List.length waypoints.
Proof.
  induction waypoints as [|w ws IH]; intros k; simpl; [reflexivity|].
  now rewrite IH.
Qed.

Lemma recommend_waypoint_reduction (db : list Hazard) (radius : Q) (i : nat) (wp : Waypoint) :
  let r := recommend_waypoint db radius i wp in
  speed_reduction r = speed_limit r - recommended_speed r
  /\ 20 <= recommended_speed r
  /\ recommended_speed r <= Z.max (speed_limit r) 20.
Proof.
  cbv zeta. unfold recommend_waypoint.
  cbn [speed_reduction speed_limit recommended_speed].
  split; [reflexivity|]. split.
  - apply recommended_speed_at_least_20.
  - rewrite calculate_recommended_speed_at_impact.
    apply speed_at_impact_upper. apply total_impact_nonneg.
Qed.

End RouteExtras.

(** ** More on the route summary *)

(** Where the maximum stands: everything before it is strictly smaller,
    everything after it at most as large. *)
Lemma max_by_reduction_first (rest : list Recommendation) :
  forall best : Recommendation,
  exists pre post : list Recommendation,
    best :: rest = pre ++ max_by_reduction best rest :: post
    /\ Forall (fun x => speed_reduction x < speed_reduction (max_by_reduction best rest)) pre
    /\ Forall (fun x => speed_reduction x <= speed_reduction (max_by_reduction best rest)) post.
Proof.
  induction rest as [|x xs IH]; intros best.
  - exists [], []. repeat split; constructor.
  - cbn [max_by_reduction].
    destruct (speed_reduction best <? speed_reduction x) eqn:E.
    + apply Z.ltb_lt in E.
      destruct (IH x) as (pre & post & Heq & Hpre & Hpost).
      exists (best :: pre), post. split; [cbn [app]; now rewrite <- Heq|].
      split; [|exact Hpost].
      constructor; [|exact Hpre].
      pose proof (max_by_reduction_ge_best xs x). lia.
    + apply Z.ltb_ge in E.
      destruct (IH best) as (pre & post & Heq & Hpre & Hpost).
      pose proof (max_by_reduction_ge_best xs best) as Hge.
      destruct pre as [|p pre'].
      * cbn [app] in Heq. injection Heq as Hb Hxs.
        exists [], (x :: post). split.
        { cbn [app]. rewrite <- Hb. now rewrite <- Hxs. }
        split; [constructor|]. constructor; [lia | exact Hpost].
      * cbn [app] in Heq. injection Heq as Hp Hxs.
        exists (best :: x :: pre'), post. split.
        { cbn [app]. f_equal. f_equal. exact Hxs. }
        split; [|exact Hpost].
        inversion Hpre as [|? ? Hlt Hpre' Hl]. rewrite <- Hp in Hlt.
        constructor; [exact Hlt|]. constructor; [lia | exact Hpre'].
Qed.

(** X7: over a non-empty list of recommendations the most dangerous
    segment is the earliest one whose speed reduction is maximal: every
    recommendation before it has a strictly smaller reduction, none after it
    a larger one. *)
Theorem most_dangerous_is_earliest_maximum
    (n : nat) (r : Recommendation) (rest : list Recommendation) :
  exists (best : Recommendation) (pre post : list Recommendation),
    most_dangerous_segment (route_analysis_of n (r :: rest)) = Some best
    /\ r :: rest = pre ++ best :: post
    /\ Forall (fun x => speed_reduction x < speed_reduction best) pre
    /\ Forall (fun x => speed_reduction x <= speed_reduction best) post.
Proof.
  destruct (max_by_reduction_first rest r) as (pre & post & Heq & Hpre & Hpost).
  exists (max_by_reduction r rest), pre, post.
  split; [reflexivity|]. split; [exact Heq|]. split; assumption.
Qed.

Lemma count_type_total (t : HazardType) (d : list (HazardType * nat)) :
  histogram_total (count_type t d) = S (histogram_total d).
Proof.
  induction d as [|[k c] d IH]; simpl; [reflexivity|].
  destruct (match k, t with
            | POTHOLE, POTHOLE | CRACK, CRACK | DEBRIS, DEBRIS
            | CONSTRUCTION, CONSTRUCTION | FLOODING, FLOODING => true
            | _, _ => false
            end); simpl; [reflexivity|].
  rewrite IH. lia.
Qed.

Lemma count_severity_total (s : SeverityLevel) (d : nat * nat * nat) :
  severity_total (count_severity s d) = S (severity_total d).
Proof. destruct d as [[l m] h]. destruct s; simpl; lia. Qed.

Lemma fold_count_type_total (hs : list HazardDetail) (d : list (HazardType * nat)) :
  histogram_total (fold_left (fun d h => count_type (hd_type h) d) hs d)
  = (histogram_total d + List.length hs)%nat.
Proof.
  revert d. induction hs as [|h hs IH]; intros d; simpl; [lia|].
  rewrite IH, count_type_total. lia.
Qed.

Lemma fold_count_severity_total (hs : list HazardDetail) (d : nat * nat * nat) :
  severity_total (fold_left (fun d h => count_severity (hd_severity h) d) hs d)
  = (severity_total d + List.length hs)%nat.
Proof.
  revert d. induction hs as [|h hs IH]; intros d; simpl; [lia|].
  rewrite IH, count_severity_total. lia.
Qed.

Lemma fold_hazards_count_length (recs : list Recommendation) (acc : nat) :
  (forall r, In r recs -> hazards_count r = List.length (hazards r)) ->
  fold_left (fun a r => (a + hazards_count r)%nat) recs acc
  = (acc + List.length (flat_map hazards recs))%nat.
Proof.
  revert acc. induction recs as [|r rs IH]; intros acc H; simpl; [lia|].
  rewrite IH by (intros r' Hr'; apply H; now right).
  rewrite (H r (or_introl eq_refl)), length_app. lia.
Qed.

(** X9: in the summary of recommendations whose [hazards_count] is the
    length of their [hazards] list, as those of [get_speed_recommendations]
    are, the counts of the hazard-type histogram and the three counts of the
    severity histogram each add up to [total_hazards]; a hazard listed
    under two waypoints is counted twice. *)
Theorem histograms_add_up_to_total (n : nat) (recs : list Recommendation) :
  (forall r, In r recs -> hazards_count r = List.length (hazards r)) ->
  total_hazards (route_analysis_of n recs) = List.length (flat_map hazards recs)
  /\ histogram_total (hazard_distribution (route_analysis_of n recs))
     = total_hazards (route_analysis_of n recs)
  /\ severity_total (severity_distribution (route_analysis_of n recs))
     = total_hazards (route_analysis_of n recs).
Proof.
  intros H. unfold route_analysis_of.
  cbn [total_hazards hazard_distribution severity_distribution].
  rewrite (fold_hazards_count_length recs 0 H).
  rewrite fold_count_type_total, fold_count_severity_total. simpl. repeat split.
Qed.

(** An instance of X9: the summary of those recommendations. *)
Lemma histograms_add_up_to_total_witness :
  total_hazards (route_analysis_of 1 campus_recommendations)
  = List.length (flat_map hazards campus_recommendations)
  /\ histogram_total (hazard_distribution (route_analysis_of 1 campus_recommendations))
     = total_hazards (route_analysis_of 1 campus_recommendations)
  /\ severity_total (severity_distribution (route_analysis_of 1 campus_recommendations))
     = total_hazards (route_analysis_of 1 campus_recommendations).
Proof.
  apply (histograms_add_up_to_total 1 campus_recommendations).
  intros r [<-|[]]. reflexivity.
Defined.

(** ** More on the GPS simulator *)

Lemma keeps_draws_ret {A : Type} (a : A) : keeps_draws (ret a).
Proof. intros g. reflexivity. Qed.

Lemma keeps_draws_random : keeps_draws random.
Proof. intros g. reflexivity. Qed.

Lemma keeps_draws_bind {A B : Type} (m : Rand A) (k : A -> Rand B) :
  keeps_draws m -> (forall a, keeps_draws (k a)) -> keeps_draws (x <- m ;; k x).
Proof.
  intros Hm Hk g. rewrite bind_run. rewrite Hk. apply Hm.
Qed.

Lemma keeps_draws_uniform (a b : Q) : keeps_draws (uniform a b).
Proof.
  unfold uniform. apply keeps_draws_bind; [apply keeps_draws_random|].
  intros u. apply keeps_draws_ret.
Qed.

Lemma unit_draws_kept {A : Type} (m : Rand A) (g : Rng) :
  keeps_draws m -> unit_draws g -> unit_draws (snd (m g)).
Proof. intros Hk Hu n. rewrite Hk. apply Hu. Qed.

Lemma uniform_range (a b : Q) (g : Rng) :
  unit_draws g -> (a <= b)%Q -> (a <= fst (uniform a b g) <= b)%Q.
Proof.
  intros Hu Hab. unfold uniform, bind, random, ret. simpl.
  specialize (Hu (cursor g)). split; nra.
Qed.

Lemma py_mod_range (x m : Q) : (0 < m)%Q -> (0 <= py_mod x m < m)%Q.
Proof.
  intros Hm. unfold py_mod.
  pose proof (Qfloor_le (x / m)) as Hlo. pose proof (Qlt_floor (x / m)) as Hhi.
  rewrite inject_Z_plus in Hhi. change (inject_Z 1) with 1%Q in Hhi.
  set (f := inject_Z (Qfloor (x / m))) in *.
  assert (E : (x == x / m * m)%Q) by (field; lra).
  split.
  - assert (f * m <= x / m * m)%Q by (apply Qmult_le_compat_r; lra). lra.
  - assert (x / m * m < (f + 1) * m)%Q by (apply Qmult_lt_compat_r; lra). lra.
Qed.

Section GPSExtras.
Context {M : MathLib Q}.
Local Open Scope Q_scope.

Lemma keeps_draws_update_heading (self : GPSSimulator.t) :
  keeps_draws (GPSSimulator.update_heading self).
Proof.
  unfold GPSSimulator.update_heading.
  apply keeps_draws_bind; [apply keeps_draws_random|]. intros r.
  destruct (Qltb r (1 # 10)); [|apply keeps_draws_ret].
  apply keeps_draws_bind; [apply keeps_draws_uniform|]. intros c. apply keeps_draws_ret.
Qed.

Lemma keeps_draws_update_speed (self : GPSSimulator.t) :
  keeps_draws (GPSSimulator.update_speed self).
Proof.
  unfold GPSSimulator.update_speed.
  apply keeps_draws_bind; [apply keeps_draws_random|]. intros r.
  destruct (Qltb r (5 # 100)); [|apply keeps_draws_ret].
  apply keeps_draws_bind; [apply keeps_draws_uniform|]. intros c. apply keeps_draws_ret.
Qed.

Lemma keeps_draws_move (self : GPSSimulator.t) (dt : Q) :
  keeps_draws (GPSSimulator.move self dt).
Proof.
  unfold GPSSimulator.move. simpl.
  apply keeps_draws_bind; [apply keeps_draws_update_heading|]. intros s1.
  apply keeps_draws_bind; [apply keeps_draws_update_speed|]. intros s2.
  apply keeps_draws_bind; [apply keeps_draws_uniform|]. intros a. apply keeps_draws_ret.
Qed.

Lemma keeps_draws_init (start_lat start_lng speed : Q) :
  keeps_draws (GPSSimulator.init start_lat start_lng speed).
Proof.
  unfold GPSSimulator.init.
  apply keeps_draws_bind; [apply keeps_draws_uniform|]. intros h.
  apply keeps_draws_bind; [apply keeps_draws_uniform|]. intros a. apply keeps_draws_ret.
Qed.

Lemma update_heading_range (self : GPSSimulator.t) (g : Rng) :
  0 <= GPSSimulator.heading self < 360 ->
  0 <= GPSSimulator.heading (fst (GPSSimulator.update_heading self g)) < 360.
Proof.
  intros H. unfold GPSSimulator.update_heading, bind, random, uniform, ret. simpl.
  destruct (Qltb _ (1 # 10)); simpl; [|exact H].
  apply py_mod_range. reflexivity.
Qed.

Lemma update_speed_keeps_heading (self : GPSSimulator.t) (g : Rng) :
  GPSSimulator.heading (fst (GPSSimulator.update_speed self g))
  = GPSSimulator.heading self.
Proof.
  unfold GPSSimulator.update_speed, bind, random, uniform, ret. simpl.
  destruct (Qltb _ (5 # 100)); reflexivity.
Qed.

(** What [move] does to heading and accuracy. *)
Lemma move_heading_accuracy (self : GPSSimulator.t) (dt : Q) (g : Rng) :
  exists (moved : GPSSimulator.t) (g2 : Rng),
    GPSSimulator.heading moved = GPSSimulator.heading self
    /\ draws g2 = draws g
    /\ GPSSimulator.heading (fst (GPSSimulator.move self dt g))
       = GPSSimulator.heading (fst (GPSSimulator.update_heading moved g))
    /\ GPSSimulator.accuracy (fst (GPSSimulator.move self dt g)) = fst (uniform 3 8 g2).
Proof.
  unfold GPSSimulator.move. simpl.
  set (moved := {| GPSSimulator.current_lat := _ |}).
  exists moved.
  exists (snd (GPSSimulator.update_speed (fst (GPSSimulator.update_heading moved g))
                 (snd (GPSSimulator.update_heading moved g)))).
  split; [reflexivity|]. split.
  { rewrite keeps_draws_update_speed. apply keeps_draws_update_heading. }
  rewrite !bind_run. unfold ret. cbn [fst GPSSimulator.heading GPSSimulator.accuracy].
  split; [apply update_speed_keeps_heading | reflexivity].
Qed.

(** In exact arithmetic the heading stays below 360: the exact remainder
    of a division by 360 is. *)
Lemma exact_heading_and_accuracy
    (start_lat start_lng speed : Q) (time_deltas : list Q) (g : Rng) :
  unit_draws g ->
  let self := fst ((self <- GPSSimulator.init start_lat start_lng speed ;;
                    GPSSimulator.moves self time_deltas) g) in
  0 <= GPSSimulator.heading self < 360 /\ 3 <= GPSSimulator.accuracy self <= 8.
Proof.
  intros Hu. cbv zeta. rewrite bind_run.
  assert (Hinv : forall (dts : list Q) (s : GPSSimulator.t) (g0 : Rng),
    unit_draws g0 ->
    0 <= GPSSimulator.heading s < 360 /\ 3 <= GPSSimulator.accuracy s <= 8 ->
    0 <= GPSSimulator.heading (fst (GPSSimulator.moves s dts g0)) < 360
    /\ 3 <= GPSSimulator.accuracy (fst (GPSSimulator.moves s dts g0)) <= 8).
  { induction dts as [|dt rest IH]; intros s g0 Hg0 Hs.
    - exact Hs.
    - rewrite moves_cons. apply IH.
      + apply unit_draws_kept; [apply keeps_draws_move | exact Hg0].
      + destruct (move_heading_accuracy s dt g0) as (moved & g2 & Hm & Hd & Hh & Ha).
        rewrite Hh, Ha. split.
        * apply update_heading_range. rewrite Hm. apply Hs.
        * apply uniform_range; [|discriminate].
          intros n. rewrite Hd. apply Hg0. }
  apply Hinv.
  - apply unit_draws_kept; [apply keeps_draws_init | exact Hu].
  - unfold GPSSimulator.init. rewrite !bind_run. unfold ret.
    cbn [fst GPSSimulator.heading GPSSimulator.accuracy]. split.
    + unfold uniform, bind, random, ret. simpl.
      specialize (Hu (cursor g)). split; nra.
    + apply uniform_range; [|discriminate].
      apply (unit_draws_kept (uniform 0 360)); [apply keeps_draws_uniform | exact Hu].
Qed.

(** X10: with draws from [0, 1), a GPS simulator is constructed with a
    heading from 0 to 360 and an accuracy from 3 to 8, and every sequence of
    [move] calls keeps them there, whatever the time deltas.  The bound 360
    is included: the remainder that the code computes on doubles can round
    to 360 itself. *)
Theorem heading_and_accuracy_stay_in_range
    (start_lat start_lng speed : Q) (time_deltas : list Q) (g : Rng) :
  unit_draws g ->
  let self := fst ((self <- GPSSimulator.init start_lat start_lng speed ;;
                    GPSSimulator.moves self time_deltas) g) in
  0 <= GPSSimulator.heading self <= 360 /\ 3 <= GPSSimulator.accuracy self <= 8.
Proof.
  intros Hu.
  destruct (exact_heading_and_accuracy start_lat start_lng speed time_deltas g Hu)
    as [[H0 H360] Hacc].
  cbv zeta. split; [split; [exact H0 | apply Qlt_le_weak; exact H360] | exact Hacc].
Qed.

End GPSExtras.

(** An instance of X10: three calls of [move] with the steady draws. *)
Lemma heading_and_accuracy_stay_in_range_witness :
  (0 <= GPSSimulator.heading
          (fst ((self <- GPSSimulator.init (340151 # 10000) (715249 # 10000) 50 ;;
                 GPSSimulator.moves (M := approx_math) self [1; 1; 1]%Q) steady_rng)) <= 360)%Q
  /\ (3 <= GPSSimulator.accuracy
             (fst ((self <- GPSSimulator.init (340151 # 10000) (715249 # 10000) 50 ;;
                    GPSSimulator.moves (M := approx_math) self [1; 1; 1]%Q) steady_rng))
        <= 8)%Q.
Proof.
  apply (heading_and_accuracy_stay_in_range (M := approx_math)
           (340151 # 10000) (715249 # 10000) 50 [1; 1; 1]%Q steady_rng).
  intros n. simpl. split; [discriminate | reflexivity].
Defined.

(** ** More on the route simulator *)

Section RouteSimulatorExtras.
Context {M : MathLib Q}.
Local Open Scope Q_scope.

Lemma move_frame (s s' : RouteSimulator.t) (dt : Q) :
  RouteSimulator.move s dt = Ok s' ->
  RouteSimulator.waypoints s' = RouteSimulator.waypoints s
  /\ RouteSimulator.speed_kmh s' = RouteSimulator.speed_kmh s
  /\ RouteSimulator.gps_simulator s' = RouteSimulator.gps_simulator s
  /\ (RouteSimulator.current_waypoint_index s
      <= RouteSimulator.current_waypoint_index s'
      <= RouteSimulator.current_waypoint_index s + 1)%nat
  /\ (RouteSimulator.current_waypoint_index s'
      = (RouteSimulator.current_waypoint_index s + 1)%nat ->
      RouteSimulator.at_end s = false).
Proof.
  intros Hm. apply move_cases in Hm.
  destruct Hm as [[_ ->]|[Hend (c & n & inc & _ & _ & _ & [[_ ->]|[_ ->]])]].
  - split; [reflexivity|]. split; [reflexivity|]. split; [reflexivity|].
    split; [lia|]. intros H. lia.
  - unfold advanced. cbn.
    split; [reflexivity|]. split; [reflexivity|]. split; [reflexivity|].
    split; [lia|]. intros _. exact Hend.
  - unfold progressed. cbn.
    split; [reflexivity|]. split; [reflexivity|]. split; [reflexivity|].
    split; [lia|]. intros _. exact Hend.
Qed.

Lemma reachable_frame (s0 s : RouteSimulator.t) :
  (RouteSimulator.current_waypoint_index s0
   < List.length (RouteSimulator.waypoints s0))%nat ->
  RouteSimulator.reachable s0 s ->
  RouteSimulator.waypoints s = RouteSimulator.waypoints s0
  /\ RouteSimulator.speed_kmh s = RouteSimulator.speed_kmh s0
  /\ RouteSimulator.gps_simulator s = RouteSimulator.gps_simulator s0
  /\ (RouteSimulator.current_waypoint_index s
      < List.length (RouteSimulator.waypoints s0))%nat.
Proof.
  intros H0 Hr. induction Hr as [|s s' dt Hr IH Hm].
  - repeat split; [exact H0].
  - destruct IH as (Hw & Hs & Hg & Hi).
    pose proof (move_frame s s' dt Hm) as (Hw' & Hs' & Hg' & Hidx & Hadv).
    split; [congruence|]. split; [congruence|]. split; [congruence|].
    destruct (Nat.eq_dec (RouteSimulator.current_waypoint_index s')
                (RouteSimulator.current_waypoint_index s + 1)) as [E|E]; [|lia].
    specialize (Hadv E). unfold RouteSimulator.at_end in Hadv.
    apply Z.leb_gt in Hadv. rewrite Hw in Hadv. lia.
Qed.

(** X11: a route simulator constructed for a list of waypoints and then
    moved any number of times keeps its waypoints, its speed and its
    embedded GPS simulator, and its index stays within the list: it never
    runs past the last waypoint.  One call of [move] advances the index by
    at most one, however large the time delta. *)
Theorem route_simulator_stays_on_route
    (waypoints : list Location) (speed : Q) (g g' : Rng)
    (s0 s : RouteSimulator.t) :
  RouteSimulator.init waypoints speed g = (Ok s0, g') ->
  RouteSimulator.reachable s0 s ->
  RouteSimulator.waypoints s = waypoints
  /\ RouteSimulator.speed_kmh s = speed
  /\ RouteSimulator.gps_simulator s = RouteSimulator.gps_simulator s0
  /\ (RouteSimulator.current_waypoint_index s < List.length waypoints)%nat
  /\ forall (dt : Q) (s' : RouteSimulator.t),
       RouteSimulator.move s dt = Ok s' ->
       (RouteSimulator.current_waypoint_index s
        <= RouteSimulator.current_waypoint_index s'
        <= RouteSimulator.current_waypoint_index s + 1)%nat.
Proof.
  intros Hinit Hreach.
  assert (H0 : RouteSimulator.waypoints s0 = waypoints
               /\ RouteSimulator.speed_kmh s0 = speed
               /\ RouteSimulator.current_waypoint_index s0 = 0%nat
               /\ waypoints <> []).
  { unfold RouteSimulator.init in Hinit. destruct waypoints as [|w ws].
    - unfold ret in Hinit. inversion Hinit.
    - rewrite bind_run in Hinit. unfold ret in Hinit. inversion Hinit.
      repeat split. discriminate. }
  destruct H0 as (Hw0 & Hs0 & Hi0 & Hne).
  assert (Hlt : (RouteSimulator.current_waypoint_index s0
                 < List.length (RouteSimulator.waypoints s0))%nat).
  { rewrite Hw0, Hi0. destruct waypoints; [congruence | simpl; lia]. }
  destruct (reachable_frame s0 s Hlt Hreach) as (Hw & Hs & Hg & Hi).
  split; [congruence|]. split; [congruence|]. split; [exact Hg|].
  split; [rewrite <- Hw0; exact Hi|].
  intros dt s' Hm. apply (move_frame s s' dt Hm).
Qed.

(** X12: [get_current_position] of a route simulator never raises and
    leaves waypoints, index, progress and speed alone.  Short of the last
    waypoint it first sets the position of the embedded GPS simulator to the
    point interpolated between the current and the next waypoint at the
    current progress, which lies between the two waypoints when the progress
    is between 0 and 1; at the last waypoint the simulator is unchanged. *)
Theorem route_position_is_interpolated (s : RouteSimulator.t) (now : string) (g : Rng) :
  exists (p : Position) (s' : RouteSimulator.t) (g' : Rng),
    RouteSimulator.get_current_position s now g = (Ok (p, s'), g')
    /\ RouteSimulator.waypoints s' = RouteSimulator.waypoints s
    /\ RouteSimulator.current_waypoint_index s' = RouteSimulator.current_waypoint_index s
    /\ RouteSimulator.progress s' = RouteSimulator.progress s
    /\ RouteSimulator.speed_kmh s' = RouteSimulator.speed_kmh s
    /\ (RouteSimulator.at_end s = true -> s' = s)
    /\ (RouteSimulator.at_end s = false ->
        exists current next_wp : Location,
          nth_error (RouteSimulator.waypoints s)
            (RouteSimulator.current_waypoint_index s) = Some current
          /\ nth_error (RouteSimulator.waypoints s)
               (RouteSimulator.current_waypoint_index s + 1) = Some next_wp
          /\ GPSSimulator.current_lat (RouteSimulator.gps_simulator s')
             = lat current + (lat next_wp - lat current) * RouteSimulator.progress s
          /\ GPSSimulator.current_lng (RouteSimulator.gps_simulator s')
             = lng current + (lng next_wp - lng current) * RouteSimulator.progress s
          /\ (0 <= RouteSimulator.progress s <= 1 ->
              (lat current <= lat next_wp ->
               lat current
               <= GPSSimulator.current_lat (RouteSimulator.gps_simulator s')
               <= lat next_wp)
              /\ (lat next_wp <= lat current ->
                  lat next_wp
                  <= GPSSimulator.current_lat (RouteSimulator.gps_simulator s')
                  <= lat current)
              /\ (lng current <= lng next_wp ->
                  lng current
                  <= GPSSimulator.current_lng (RouteSimulator.gps_simulator s')
                  <= lng next_wp)
              /\ (lng next_wp <= lng current ->
                  lng next_wp
                  <= GPSSimulator.current_lng (RouteSimulator.gps_simulator s')
                  <= lng current))).
Proof.
  unfold RouteSimulator.get_current_position.
  destruct (RouteSimulator.at_end s) eqn:Hend.
  - rewrite bind_run. unfold ret.
    eexists _, s, _. split; [reflexivity|].
    repeat split; try reflexivity. intros H; discriminate.
  - destruct (not_at_end_has_segment s Hend) as (c & n & Hc & Hn).
    rewrite Hc, Hn, bind_run. unfold ret.
    eexists _, _, _. split; [reflexivity|].
    cbn [RouteSimulator.waypoints RouteSimulator.current_waypoint_index
         RouteSimulator.progress RouteSimulator.speed_kmh RouteSimulator.gps_simulator
         GPSSimulator.current_lat GPSSimulator.current_lng].
    split; [reflexivity|]. split; [reflexivity|]. split; [reflexivity|].
    split; [reflexivity|]. split; [intros H; discriminate|].
    intros _. exists c, n.
    split; [reflexivity|]. split; [reflexivity|]. split; [reflexivity|].
    split; [reflexivity|].
    intros Hp. repeat split; nra.
Qed.

End RouteSimulatorExtras.

(** An instance of X11: the route from the campus to GT Road after one
    call of [move]. *)
Lemma route_simulator_stays_on_route_witness :
  RouteSimulator.waypoints after_one_move = [campus; gt_road]
  /\ RouteSimulator.speed_kmh after_one_move = 60%Q
  /\ RouteSimulator.gps_simulator after_one_move
     = RouteSimulator.gps_simulator campus_to_gt_road
  /\ (RouteSimulator.current_waypoint_index after_one_move
      < List.length [campus; gt_road])%nat
  /\ forall (dt : Q) (s' : RouteSimulator.t),
       RouteSimulator.move (M := approx_math) after_one_move dt = Ok s' ->
       (RouteSimulator.current_waypoint_index after_one_move
        <= RouteSimulator.current_waypoint_index s'
        <= RouteSimulator.current_waypoint_index after_one_move + 1)%nat.
Proof.
  apply (route_simulator_stays_on_route (M := approx_math)
           [campus; gt_road] 60 steady_rng
           (snd (GPSSimulator.init (340151 # 10000) (715249 # 10000) 60 steady_rng))
           campus_to_gt_road after_one_move).
  - reflexivity.
  - apply (RouteSimulator.reach_move _ campus_to_gt_road after_one_move 1).
    + apply RouteSimulator.reach_init.
    + vm_compute. reflexivity.
Defined.

(** An instance of X12: the route from the campus to GT Road after one
    call of [move]. *)
Lemma route_position_is_interpolated_witness :
  exists (p : Position) (s' : RouteSimulator.t) (g' : Rng),
    RouteSimulator.get_current_position after_one_move "2024-01-01T00:00:00" steady_rng
    = (Ok (p, s'), g')
    /\ RouteSimulator.current_waypoint_index s' = 0%nat
    /\ (GPSSimulator.current_lat (RouteSimulator.gps_simulator s') <= lat campus)%Q
    /\ (lat gt_road <= GPSSimulator.current_lat (RouteSimulator.gps_simulator s'))%Q.
Proof.
  destruct (route_position_is_interpolated after_one_move "2024-01-01T00:00:00" steady_rng)
    as (p & s' & g' & Hget & _ & Hidx & _ & _ & _ & Hseg).
  exists p, s', g'. split; [exact Hget|]. split; [exact Hidx|].
  destruct (Hseg eq_refl) as (c & n & Hc & Hn & Hlat & _ & Hbetween).
  vm_compute in Hc. vm_compute in Hn.
  injection Hc as <-. injection Hn as <-.
  assert (Hp : (0 <= RouteSimulator.progress after_one_move <= 1)%Q)
    by (split; vm_compute; discriminate).
  destruct (Hbetween Hp) as (_ & Hdown & _ & _).
  assert (Hle : (lat {| lat := 340089 # 10000; lng := 715456 # 10000 |}
                 <= lat {| lat := 340151 # 10000; lng := 715249 # 10000 |})%Q)
    by (vm_compute; discriminate).
  destruct (Hdown Hle) as [H1 H2]. split; [exact H2 | exact H1].
Defined.

(** ** Rounding and noise *)



Lemma keeps_draws_randint (a b : Z) : keeps_draws (randint a b).
Proof.
  unfold randint. apply keeps_draws_bind; [apply keeps_draws_random|].
  intros u. apply keeps_draws_ret.
Qed.

Section NoiseExtras.
Local Open Scope Q_scope.




End NoiseExtras.


(** ** The recommendation for one location *)

Lemma Qeq_bool_false (x y : Q) : ~ (x == y)%Q -> Qeq_bool x y = false.
Proof.
  intros H. destruct (Qeq_bool x y) eqn:E; [|reflexivity].
  apply Qeq_bool_iff in E. contradiction.
Qed.

Section LocationExtras.
Context {M : MathLib Q}.
Import SpeedLocationRoute.
Local Open Scope Q_scope.

(** The rows selected around a point are those whose engine columns the
    route handler's query selects. *)
Lemma rows_in_box_columns (db : list HazardRow) (lat lng radius_deg : Q) :
  map columns (rows_in_box db (lat - radius_deg) (lat + radius_deg)
                              (lng - radius_deg) (lng + radius_deg))
  = query_hazards (map columns db) lat lng radius_deg.
Proof.
  unfold rows_in_box, query_hazards.
  induction db as [|h hs IH]; simpl; [reflexivity|].
  destruct (Qle_bool (lat - radius_deg) (latitude (columns h))
            && Qle_bool (latitude (columns h)) (lat + radius_deg)
            && Qle_bool (lng - radius_deg) (longitude (columns h))
            && Qle_bool (longitude (columns h)) (lng + radius_deg))%bool;
    simpl; now rewrite IH.
Qed.

Lemma location_details_of_detail (lat lng radius_km : Q) (hazards : list HazardRow) :
  map detail (location_details_of lat lng radius_km hazards)
  = hazard_details_of lat lng radius_km (map columns hazards).
Proof.
  induction hazards as [|h hs IH]; simpl; [reflexivity|].
  destruct (Qle_bool _ radius_km); simpl; now rewrite IH.
Qed.

(** X14: for a point with non-zero coordinates the location handler
    answers what the route handler answers for the one-waypoint route
    through that point, over the same table: the same location, speed
    limit, recommended speed, speed reduction, hazard count and hazard
    details (to which it adds each hazard's stored recommended speed). *)
Theorem location_agrees_with_route
    (lat lng : Q) (limit : option Z) (radius_km : option Q) (db : list HazardRow) :
  ~ lat == 0 -> ~ lng == 0 ->
  exists (b : LocationBody) (r : Recommendation) (radius : Q),
    get_location_speed_recommendation
      {| arg_lat := Some lat; arg_lng := Some lng;
         arg_speed_limit := limit; arg_radius_km := radius_km |} db
    = LocationResponse b
    /\ get_speed_recommendations
         {| req_waypoints := [ {| wp_lat := lat; wp_lng := lng; wp_speed_limit := limit |} ];
            req_search_radius_km := radius_km |} (map columns db)
       = Response (RecommendationsBody [r] radius 1)
    /\ loc_location b = location r
    /\ loc_speed_limit b = speed_limit r
    /\ loc_recommended_speed b = recommended_speed r
    /\ loc_speed_reduction b = speed_reduction r
    /\ loc_hazards_count b = hazards_count r
    /\ map detail (loc_hazards b) = hazards r.
Proof.
  intros Hlat Hlng.
  unfold get_location_speed_recommendation, get_speed_recommendations.
  cbn [arg_lat arg_lng arg_speed_limit arg_radius_km req_waypoints req_search_radius_km
       not_ recommend_from List.length].
  rewrite (Qeq_bool_false _ _ Hlat), (Qeq_bool_false _ _ Hlng). cbn [orb].
  eexists. eexists. eexists. split; [reflexivity|]. split; [reflexivity|].
  unfold recommend_waypoint.
  cbn [loc_location loc_speed_limit loc_recommended_speed loc_speed_reduction
       loc_hazards_count loc_hazards location speed_limit recommended_speed
       speed_reduction hazards_count hazards wp_lat wp_lng wp_speed_limit].
  rewrite !rows_in_box_columns.
  split; [reflexivity|]. split; [reflexivity|]. split; [reflexivity|].
  split; [reflexivity|].
  split.
  - rewrite <- rows_in_box_columns, <- location_details_of_detail.
    now rewrite length_map.
  - now rewrite location_details_of_detail, rows_in_box_columns.
Qed.

End LocationExtras.

(** An instance of X14: the campus point over the rows of the two hazards
    near it. *)
Lemma location_agrees_with_route_witness :
  exists (b : SpeedLocationRoute.LocationBody) (r : Recommendation) (radius : Q),
    SpeedLocationRoute.get_location_speed_recommendation (M := approx_math)
      {| SpeedLocationRoute.arg_lat := Some (340151 # 10000);
         SpeedLocationRoute.arg_lng := Some (715249 # 10000);
         SpeedLocationRoute.arg_speed_limit := Some 60;
         SpeedLocationRoute.arg_radius_km := None |} campus_rows
    = SpeedLocationRoute.LocationResponse b
    /\ get_speed_recommendations (M := approx_math)
         {| req_waypoints := [ {| wp_lat := 340151 # 10000; wp_lng := 715249 # 10000;
                                  wp_speed_limit := Some 60 |} ];
            req_search_radius_km := None |} (map columns campus_rows)
       = Response (RecommendationsBody [r] radius 1)
    /\ SpeedLocationRoute.loc_location b = location r
    /\ SpeedLocationRoute.loc_speed_limit b = speed_limit r
    /\ SpeedLocationRoute.loc_recommended_speed b = recommended_speed r
    /\ SpeedLocationRoute.loc_speed_reduction b = speed_reduction r
    /\ SpeedLocationRoute.loc_hazards_count b = hazards_count r
    /\ map SpeedLocationRoute.detail (SpeedLocationRoute.loc_hazards b) = hazards r.
Proof.
  apply (@location_agrees_with_route approx_math (340151 # 10000) (715249 # 10000)
           (Some 60) None campus_rows); intros H; discriminate H.
Defined.

(** ** Hazards near a point and along a route *)

Section HazardRouteExtras.
Import HazardRoutes.
Local Open Scope Q_scope.

Lemma py_min_le (a b : Q) : py_min (N := exact) a b <= a /\ py_min (N := exact) a b <= b.
Proof.
  unfold py_min. cbn. destruct (Qltb b a) eqn:E; qbool; split; lra.
Qed.

Lemma py_max_ge (a b : Q) : a <= py_max (N := exact) a b /\ b <= py_max (N := exact) a b.
Proof.
  unfold py_max. cbn. destruct (Qltb a b) eqn:E; qbool; split; lra.
Qed.

(** [min(xs)] is below every element of [xs], [max(xs)] above. *)
Lemma min_of_le_head (x : Q) (xs : list Q) : min_of x xs <= x.
Proof.
  unfold min_of. revert x. induction xs as [|a xs IH]; intros x; simpl; [lra|].
  eapply Qle_trans; [apply IH | exact (proj1 (py_min_le x a))].
Qed.

Lemma min_of_le (x : Q) (xs : list Q) (y : Q) : In y (x :: xs) -> min_of x xs <= y.
Proof.
  revert x. induction xs as [|a xs IH]; intros x Hin.
  - destruct Hin as [<-|[]]. apply min_of_le_head.
  - destruct Hin as [<-|[<-|Hin]].
    + apply min_of_le_head.
    + eapply Qle_trans; [apply (min_of_le_head (py_min (N := exact) x a) xs)|].
      exact (proj2 (py_min_le x a)).
    + apply (IH (py_min (N := exact) x a)). right. exact Hin.
Qed.

Lemma max_of_ge_head (x : Q) (xs : list Q) : x <= max_of x xs.
Proof.
  unfold max_of. revert x. induction xs as [|a xs IH]; intros x; simpl; [lra|].
  eapply Qle_trans; [exact (proj1 (py_max_ge x a)) | apply IH].
Qed.

Lemma max_of_ge (x : Q) (xs : list Q) (y : Q) : In y (x :: xs) -> y <= max_of x xs.
Proof.
  revert x. induction xs as [|a xs IH]; intros x Hin.
  - destruct Hin as [<-|[]]. apply max_of_ge_head.
  - destruct Hin as [<-|[<-|Hin]].
    + apply max_of_ge_head.
    + eapply Qle_trans; [|apply (max_of_ge_head (py_max (N := exact) x a) xs)].
      exact (proj2 (py_max_ge x a)).
    + apply (IH (py_max (N := exact) x a)). right. exact Hin.
Qed.

(** A box inside another selects a part of what the other selects. *)
Lemma rows_in_box_incl (db : list HazardRow) (a b c d a' b' c' d' : Q) :
  a' <= a -> b <= b' -> c' <= c -> d <= d' ->
  incl (rows_in_box db a b c d) (rows_in_box db a' b' c' d')
  /\ (List.length (rows_in_box db a b c d)
      <= List.length (rows_in_box db a' b' c' d'))%nat.
Proof.
  intros Ha Hb Hc Hd. unfold rows_in_box.
  assert (Himp : forall h : HazardRow,
             (Qle_bool a (latitude (columns h)) && Qle_bool (latitude (columns h)) b
              && Qle_bool c (longitude (columns h)) && Qle_bool (longitude (columns h)) d
              = true)%bool ->
             (Qle_bool a' (latitude (columns h)) && Qle_bool (latitude (columns h)) b'
              && Qle_bool c' (longitude (columns h)) && Qle_bool (longitude (columns h)) d'
              = true)%bool).
  { intros h H. rewrite !andb_true_iff in *. rewrite !Qle_bool_iff in *.
    destruct H as [[[H1 H2] H3] H4]. repeat split; lra. }
  split.
  - intros h Hin. apply filter_In in Hin. destruct Hin as [Hin Hh].
    apply filter_In. split; [exact Hin | apply Himp; exact Hh].
  - induction db as [|h hs IH]; simpl; [lia|].
    destruct (Qle_bool a (latitude (columns h)) && Qle_bool (latitude (columns h)) b
              && Qle_bool c (longitude (columns h)) && Qle_bool (longitude (columns h)) d)%bool
      eqn:E.
    + rewrite (Himp h E). simpl. lia.
    + destruct (Qle_bool a' (latitude (columns h)) && Qle_bool (latitude (columns h)) b'
                && Qle_bool c' (longitude (columns h))
                && Qle_bool (longitude (columns h)) d')%bool; simpl; lia.
Qed.

(** X16: with one radius for both, every hazard that the nearby handler
    lists around a waypoint is listed by the route handler for a route
    through that waypoint, whose count is therefore at least as large; for
    the route of that single waypoint the two lists are the same.  The
    coordinates must be non-zero for the nearby handler to answer. *)
Theorem nearby_hazards_are_on_route
    (waypoints : list Location) (la ln radius_km : Q) (db : list HazardRow) :
  In {| lat := la; lng := ln |} waypoints -> ~ la == 0 -> ~ ln == 0 ->
  exists (near along : list HazardDict) (info : RouteInfo),
    get_nearby_hazards
      {| nearby_lat := Some la; nearby_lng := Some ln;
         nearby_radius_km := Some radius_km |} db
    = NearbyResponse near {| lat := la; lng := ln |} radius_km (List.length near)
    /\ get_hazards_along_route
         {| route_waypoints := waypoints; route_buffer_km := Some radius_km |} db
       = RouteResponse along info
    /\ incl near along
    /\ (List.length near <= hazards_found info)%nat
    /\ hazards_found info = List.length along
    /\ waypoints_count info = List.length waypoints
    /\ (waypoints = [ {| lat := la; lng := ln |} ] -> near = along).
Proof.
  intros Hin Hla Hln.
  unfold get_nearby_hazards, get_hazards_along_route.
  cbn [nearby_lat nearby_lng nearby_radius_km route_waypoints route_buffer_km not_].
  rewrite (Qeq_bool_false _ _ Hla), (Qeq_bool_false _ _ Hln). cbn [orb].
  destruct waypoints as [|wp rest]; [destruct Hin|].
  set (r := radius_km / 111).
  assert (Hlat : In la (lat wp :: map lat rest)).
  { destruct Hin as [->|Hin]; [left; reflexivity|].
    right. apply (in_map lat) in Hin. exact Hin. }
  assert (Hlng : In ln (lng wp :: map lng rest)).
  { destruct Hin as [->|Hin]; [left; reflexivity|].
    right. apply (in_map lng) in Hin. exact Hin. }
  pose proof (min_of_le _ _ _ Hlat) as H1. pose proof (max_of_ge _ _ _ Hlat) as H2.
  pose proof (min_of_le _ _ _ Hlng) as H3. pose proof (max_of_ge _ _ _ Hlng) as H4.
  destruct (rows_in_box_incl db (la - r) (la + r) (ln - r) (ln + r)
              (min_of (lat wp) (map lat rest) - r) (max_of (lat wp) (map lat rest) + r)
              (min_of (lng wp) (map lng rest) - r) (max_of (lng wp) (map lng rest) + r))
    as [Hincl Hlen]; try lra.
  eexists. eexists. eexists.
  split; [rewrite length_map; reflexivity|]. split; [reflexivity|].
  cbn [hazards_found waypoints_count].
  split; [|split; [|split; [|split]]].
  - intros d Hd. apply in_map_iff in Hd. destruct Hd as (h & <- & Hh).
    apply in_map. apply Hincl. exact Hh.
  - rewrite length_map. exact Hlen.
  - now rewrite length_map.
  - reflexivity.
  - intros Heq. injection Heq as -> ->. reflexivity.
Qed.

End HazardRouteExtras.

(** An instance of X16: the campus as the first of two waypoints, over the
    rows of the two hazards near it, with a radius of 1 km. *)
Lemma nearby_hazards_are_on_route_witness :
  exists (near along : list HazardDict) (info : HazardRoutes.RouteInfo),
    HazardRoutes.get_nearby_hazards
      {| HazardRoutes.nearby_lat := Some (340151 # 10000);
         HazardRoutes.nearby_lng := Some (715249 # 10000);
         HazardRoutes.nearby_radius_km := Some 1%Q |} campus_rows
    = HazardRoutes.NearbyResponse near
        {| lat := 340151 # 10000; lng := 715249 # 10000 |} 1%Q (List.length near)
    /\ HazardRoutes.get_hazards_along_route
         {| HazardRoutes.route_waypoints := campus_to_gt_road_waypoints;
            HazardRoutes.route_buffer_km := Some 1%Q |} campus_rows
       = HazardRoutes.RouteResponse along info
    /\ incl near along
    /\ (List.length near <= HazardRoutes.hazards_found info)%nat
    /\ HazardRoutes.hazards_found info = List.length along
    /\ HazardRoutes.waypoints_count info = List.length campus_to_gt_road_waypoints
    /\ (campus_to_gt_road_waypoints = [ {| lat := 340151 # 10000; lng := 715249 # 10000 |} ]
        -> near = along).
Proof.
  apply (nearby_hazards_are_on_route campus_to_gt_road_waypoints
           (340151 # 10000) (715249 # 10000) 1%Q campus_rows).
  - left. reflexivity.
  - intros H; discriminate H.
  - intros H; discriminate H.
Defined.

(** ** The data generator *)

Lemma produces_ret {A : Type} (a : A) (P : A -> Prop) : P a -> produces (ret a) P.
Proof. intros Ha g Hu. split; assumption. Qed.

Lemma produces_bind {A B : Type} (m : Rand A) (k : A -> Rand B)
    (P : A -> Prop) (R : B -> Prop) :
  produces m P -> (forall a, P a -> produces (k a) R) -> produces (x <- m ;; k x) R.
Proof.
  intros Hm Hk g Hu. rewrite bind_run.
  destruct (Hm g Hu) as [Ha Hu']. apply Hk; assumption.
Qed.

Lemma produces_weaken {A : Type} (m : Rand A) (P R : A -> Prop) :
  produces m P -> (forall a, P a -> R a) -> produces m R.
Proof.
  intros Hm Himp g Hu. destruct (Hm g Hu) as [Ha Hu']. split; [apply Himp|]; assumption.
Qed.

Lemma produces_random : produces random (fun u => (0 <= u < 1)%Q).
Proof.
  intros g Hu. unfold random. cbn [fst snd]. split; [apply Hu|].
  intros n. apply Hu.
Qed.

Lemma produces_uniform (a b : Q) :
  (a <= b)%Q -> produces (uniform a b) (fun x => (a <= x <= b)%Q).
Proof.
  intros Hab g Hu. split; [apply uniform_range; assumption|].
  apply unit_draws_kept; [apply keeps_draws_uniform | exact Hu].
Qed.

(** A draw scaled to [n] values and rounded down is one of [0 .. n-1]. *)
Lemma Qfloor_scaled (u : Q) (n : Z) :
  (0 <= u < 1)%Q -> 0 < n -> 0 <= Qfloor (u * inject_Z n) < n.
Proof.
  intros [H0 H1] Hn.
  assert (Hq : (0 < inject_Z n)%Q) by (rewrite <- (Zlt_Qlt 0); exact Hn).
  assert (Hx : (0 <= u * inject_Z n /\ u * inject_Z n < inject_Z n)%Q) by (split; nra).
  destruct Hx as [Hx0 Hx1].
  pose proof (Qfloor_le (u * inject_Z n)) as Hlo.
  pose proof (Qlt_floor (u * inject_Z n)) as Hhi.
  split.
  - assert (H : (inject_Z 0 < inject_Z (Qfloor (u * inject_Z n) + 1))%Q)
      by (change (inject_Z 0) with 0%Q; lra).
    rewrite <- Zlt_Qlt in H. lia.
  - rewrite Zlt_Qlt. lra.
Qed.

Lemma produces_randint (a b : Z) :
  a <= b -> produces (randint a b) (fun n => a <= n <= b).
Proof.
  intros Hab. unfold randint.
  eapply produces_bind; [apply produces_random|].
  intros u Hu. cbv beta in Hu. apply produces_ret.
  pose proof (Qfloor_scaled u (b - a + 1) Hu ltac:(lia)) as Hi. lia.
Qed.

Lemma returns_ret {A : Type} (a : A) (P : A -> Prop) : P a -> returns (ret (Ok a)) P.
Proof. intros Ha. apply produces_ret. exists a. split; [reflexivity | exact Ha]. Qed.

Lemma returns_bind {A B : Type} (m : Rand (result A)) (k : A -> Rand (result B))
    (P : A -> Prop) (R : B -> Prop) :
  returns m P -> (forall a, P a -> returns (k a) R) -> returns (x <-? m ;; k x) R.
Proof.
  intros Hm Hk. unfold bindE. eapply produces_bind; [exact Hm|].
  intros r (a & -> & Ha). apply Hk. exact Ha.
Qed.

Lemma returns_lift {A : Type} (m : Rand A) (P : A -> Prop) :
  produces m P -> returns (lift m) P.
Proof.
  intros Hm. unfold lift. eapply produces_bind; [exact Hm|].
  intros a Ha. apply returns_ret. exact Ha.
Qed.

Lemma returns_weaken {A : Type} (m : Rand (result A)) (P R : A -> Prop) :
  returns m P -> (forall a, P a -> R a) -> returns m R.
Proof.
  intros Hm Himp. eapply produces_weaken; [exact Hm|].
  intros r (a & -> & Ha). exists a. split; [reflexivity | apply Himp; exact Ha].
Qed.

(** On a non-empty sequence [random.choice] returns one of its elements. *)
Lemma returns_choice {A : Type} (seq : list A) :
  seq <> [] -> returns (choice seq) (fun a => In a seq).
Proof.
  intros Hne. unfold choice.
  eapply produces_bind; [apply produces_random|].
  intros u Hu. cbv beta in Hu. apply produces_ret.
  assert (Hlen : 0 < Z.of_nat (List.length seq)).
  { destruct seq; [contradiction | simpl; lia]. }
  pose proof (Qfloor_scaled u _ Hu Hlen) as Hi.
  destruct (nth_error seq (Z.to_nat (Qfloor (u * inject_Z (Z.of_nat (List.length seq))))))
    as [a|] eqn:E.
  - exists a. split; [reflexivity|]. eapply nth_error_In. exact E.
  - apply nth_error_None in E. lia.
Qed.

Section GeneratorExtras.
Import PeshawarHazardDataGenerator.

(** X17: with a draw [u] from [0, 1) the selections return the first
    entry whose cumulative probability reaches [u]: a pothole up to 0.45, a
    crack up to 0.70, debris up to 0.85, construction up to 0.95 and
    flooding above; low severity up to 0.6, medium up to 0.9 and high
    above.  The fallback after the loop is never taken (floats read as exact
    rationals). *)
Theorem selection_follows_the_probabilities (g : Rng) :
  unit_draws g ->
  let u := draws g (cursor g) in
  let t := fst (select_hazard_type g) in
  let s := fst (select_severity_level g) in
  ((t = POTHOLE <-> u <= 45 # 100)
   /\ (t = CRACK <-> 45 # 100 < u <= 70 # 100)
   /\ (t = DEBRIS <-> 70 # 100 < u <= 85 # 100)
   /\ (t = CONSTRUCTION <-> 85 # 100 < u <= 95 # 100)
   /\ (t = FLOODING <-> 95 # 100 < u)
   /\ select_from u 0 HAZARD_TYPE_PROBABILITIES <> None)%Q
  /\ ((s = LOW <-> u <= 60 # 100)
      /\ (s = MEDIUM <-> 60 # 100 < u <= 90 # 100)
      /\ (s = HIGH <-> 90 # 100 < u)
      /\ select_from u 0 SEVERITY_PROBABILITIES <> None)%Q.
Proof.
  intros Hu. cbv zeta. specialize (Hu (cursor g)).
  unfold select_hazard_type, select_severity_level.
  rewrite !bind_run. unfold random, ret. cbn [fst snd].
  unfold HAZARD_TYPE_PROBABILITIES, SEVERITY_PROBABILITIES. cbn [select_from].
  set (u := draws g (cursor g)) in *.
  split.
  - destruct (Qle_bool u (0 + (45 # 100))) eqn:E1;
      [|destruct (Qle_bool u (0 + (45 # 100) + (25 # 100))) eqn:E2;
        [|destruct (Qle_bool u (0 + (45 # 100) + (25 # 100) + (15 # 100))) eqn:E3;
          [|destruct (Qle_bool u (0 + (45 # 100) + (25 # 100) + (15 # 100) + (10 # 100)))
              eqn:E4;
            [|destruct (Qle_bool u (0 + (45 # 100) + (25 # 100) + (15 # 100)
                                    + (10 # 100) + (5 # 100))) eqn:E5]]]];
      qbool;
      (split; [|split; [|split; [|split; [|split]]]]);
      try (split; intros H);
      first [ discriminate | reflexivity | lra | (exfalso; lra) | (split; lra)
            | (destruct H; exfalso; lra) ].
  - destruct (Qle_bool u (0 + (60 # 100))) eqn:E1;
      [|destruct (Qle_bool u (0 + (60 # 100) + (30 # 100))) eqn:E2;
        [|destruct (Qle_bool u (0 + (60 # 100) + (30 # 100) + (10 # 100))) eqn:E3]];
      qbool;
      (split; [|split; [|split]]);
      try (split; intros H);
      first [ discriminate | reflexivity | lra | (exfalso; lra) | (split; lra)
            | (destruct H; exfalso; lra) ].
Qed.

Lemma scaled_limit_bounds (speed_limit : Z) (factor : Q) :
  0 <= speed_limit -> (0 <= factor <= 1)%Q ->
  0 <= Qtruncate (inject_Z speed_limit * factor) <= speed_limit.
Proof.
  intros Hl [Hf0 Hf1].
  assert (Hq : (0 <= inject_Z speed_limit)%Q) by (rewrite <- (Zle_Qle 0); exact Hl).
  assert (Hx : (0 <= inject_Z speed_limit * factor
                /\ inject_Z speed_limit * factor <= inject_Z speed_limit)%Q)
    by (split; nra).
  destruct Hx as [Hx0 Hx1]. split.
  - rewrite Qtruncate_nonneg by exact Hx0.
    pose proof (Qlt_floor (inject_Z speed_limit * factor)) as Hhi.
    assert (H : (inject_Z 0 < inject_Z (Qfloor (inject_Z speed_limit * factor) + 1))%Q)
      by (change (inject_Z 0) with 0%Q; lra).
    rewrite <- Zlt_Qlt in H. lia.
  - apply Qtruncate_le; assumption.
Qed.

Lemma scaled_limit_monotone (speed_limit : Z) (f1 f2 : Q) :
  0 <= speed_limit -> (0 <= f1)%Q -> (f1 <= f2)%Q ->
  Qtruncate (inject_Z speed_limit * f1) <= Qtruncate (inject_Z speed_limit * f2).
Proof.
  intros Hl H0 H12.
  assert (Hq : (0 <= inject_Z speed_limit)%Q) by (rewrite <- (Zle_Qle 0); exact Hl).
  rewrite !Qtruncate_nonneg by nra.
  apply Qfloor_resp_le. nra.
Qed.

(** X18: the speed that the generator stores with a hazard is at least 20
    for a high, 25 for a medium and 30 for a low severity, and for every
    speed limit it grows as the severity falls.  For a speed limit of at
    least 30, as all those of the generator are, it does not exceed the
    limit. *)
Theorem generator_speed_by_severity (speed_limit : Z) :
  20 <= calculate_recommended_speed speed_limit HIGH
  /\ 25 <= calculate_recommended_speed speed_limit MEDIUM
  /\ 30 <= calculate_recommended_speed speed_limit LOW
  /\ calculate_recommended_speed speed_limit HIGH
     <= calculate_recommended_speed speed_limit MEDIUM
  /\ calculate_recommended_speed speed_limit MEDIUM
     <= calculate_recommended_speed speed_limit LOW
  /\ (30 <= speed_limit ->
      forall severity_level : SeverityLevel,
        calculate_recommended_speed speed_limit severity_level <= speed_limit).
Proof.
  unfold calculate_recommended_speed.
  split; [lia|]. split; [lia|]. split; [lia|].
  destruct (Z_lt_le_dec speed_limit 0) as [Hneg|Hpos].
  - assert (Hq : (inject_Z speed_limit <= 0)%Q).
    { change 0%Q with (inject_Z 0). rewrite <- Zle_Qle. lia. }
    pose proof (Qtruncate_nonpos (inject_Z speed_limit * (5 # 10)) ltac:(nra)) as T1.
    pose proof (Qtruncate_nonpos (inject_Z speed_limit * (75 # 100)) ltac:(nra)) as T2.
    pose proof (Qtruncate_nonpos (inject_Z speed_limit * (90 # 100)) ltac:(nra)) as T3.
    split; [lia|]. split; [lia|]. intros H30. lia.
  - pose proof (scaled_limit_monotone speed_limit (5 # 10) (75 # 100) Hpos
                  ltac:(lra) ltac:(lra)) as M1.
    pose proof (scaled_limit_monotone speed_limit (75 # 100) (90 # 100) Hpos
                  ltac:(lra) ltac:(lra)) as M2.
    pose proof (scaled_limit_bounds speed_limit (5 # 10) Hpos ltac:(lra)) as B1.
    pose proof (scaled_limit_bounds speed_limit (75 # 100) Hpos ltac:(lra)) as B2.
    pose proof (scaled_limit_bounds speed_limit (90 # 100) Hpos ltac:(lra)) as B3.
    split; [lia|]. split; [lia|]. intros H30 [| |]; lia.
Qed.

Lemma generator_speed_bounds (speed_limit : Z) (severity_level : SeverityLevel) :
  30 <= speed_limit ->
  20 <= calculate_recommended_speed speed_limit severity_level <= speed_limit.
Proof.
  intros H30. unfold calculate_recommended_speed.
  pose proof (scaled_limit_bounds speed_limit (5 # 10) ltac:(lia) ltac:(lra)) as B1.
  pose proof (scaled_limit_bounds speed_limit (75 # 100) ltac:(lia) ltac:(lra)) as B2.
  pose proof (scaled_limit_bounds speed_limit (90 # 100) ltac:(lia) ltac:(lra)) as B3.
  destruct severity_level; lia.
Qed.

(** Every major road has points, all of them more than 0.001 degrees
    inside the bounds of the city, and a speed limit from 40 to 80. *)
Lemma major_road_facts (road : Road) :
  In road MAJOR_ROADS ->
  rd_coordinates road <> []
  /\ 40 <= rd_speed_limit road <= 80
  /\ forall point : Q * Q,
       In point (rd_coordinates road) ->
       (lat_min PESHAWAR_BOUNDS + (1 # 1000) <= fst point
        /\ fst point <= lat_max PESHAWAR_BOUNDS - (1 # 1000)
        /\ lng_min PESHAWAR_BOUNDS + (1 # 1000) <= snd point
        /\ snd point <= lng_max PESHAWAR_BOUNDS - (1 # 1000))%Q.
Proof.
  intros Hin. unfold MAJOR_ROADS in Hin. simpl in Hin.
  repeat (destruct Hin as [<-|Hin]; [|]); try contradiction;
    (split; [discriminate|]; split; [simpl; lia|];
     intros point Hp; simpl in Hp;
     repeat (destruct Hp as [<-|Hp]; [|]); try contradiction;
     repeat split; vm_compute; discriminate).
Qed.

Lemma returns_near_road (road_data : Road) :
  rd_coordinates road_data <> [] ->
  returns (generate_random_coordinate_near_road road_data)
    (fun c => exists point : Q * Q,
                In point (rd_coordinates road_data)
                /\ (fst point - (1 # 1000) <= fst c <= fst point + (1 # 1000))%Q
                /\ (snd point - (1 # 1000) <= snd c <= snd point + (1 # 1000))%Q).
Proof.
  intros Hne. unfold generate_random_coordinate_near_road.
  eapply returns_bind; [apply returns_choice; exact Hne|].
  intros point Hpoint.
  eapply returns_bind; [apply returns_lift, produces_uniform; discriminate|].
  intros lat_offset Hlat.
  eapply returns_bind; [apply returns_lift, produces_uniform; discriminate|].
  intros lng_offset Hlng.
  cbv zeta. cbv beta in *. apply returns_ret. exists point. cbn [fst snd].
  split; [exact Hpoint|]. split; split; lra.
Qed.

Lemma produces_in_peshawar :
  produces generate_random_coordinate_in_peshawar
    (fun c => (lat_min PESHAWAR_BOUNDS <= fst c <= lat_max PESHAWAR_BOUNDS)%Q
              /\ (lng_min PESHAWAR_BOUNDS <= snd c <= lng_max PESHAWAR_BOUNDS)%Q).
Proof.
  unfold generate_random_coordinate_in_peshawar.
  eapply produces_bind; [apply produces_uniform; discriminate|]. intros lat Hlat.
  eapply produces_bind; [apply produces_uniform; discriminate|]. intros lng Hlng.
  cbv beta in *. apply produces_ret. cbn [fst snd]. split; assumption.
Qed.

Lemma produces_select_hazard_type : produces select_hazard_type (fun _ => True).
Proof.
  unfold select_hazard_type. eapply produces_bind; [apply produces_random|].
  intros u _. apply produces_ret. exact I.
Qed.

Lemma produces_select_severity_level : produces select_severity_level (fun _ => True).
Proof.
  unfold select_severity_level. eapply produces_bind; [apply produces_random|].
  intros u _. apply produces_ret. exact I.
Qed.

(** A detection is at most 30 days, 23 hours and 59 minutes old. *)
Lemma produces_detection_timestamp :
  produces generate_detection_timestamp (fun m => 0 <= m <= 30 * 1440 + 23 * 60 + 59).
Proof.
  unfold generate_detection_timestamp.
  eapply produces_bind; [apply produces_randint; lia|]. intros d Hd.
  eapply produces_bind; [apply produces_randint; lia|]. intros h Hh.
  eapply produces_bind; [apply produces_randint; lia|]. intros m Hm.
  cbv beta in *. apply produces_ret. lia.
Qed.

Lemma returns_verified_above (threshold : Q) :
  returns (verified_above threshold) (fun _ => True).
Proof.
  unfold verified_above.
  eapply returns_bind; [apply returns_lift, produces_random|]. intros r _.
  destruct (Qltb threshold r).
  - eapply returns_weaken; [apply returns_choice; discriminate|]. intros; exact I.
  - apply returns_ret. exact I.
Qed.

Lemma returns_hazard_near_major_road :
  returns hazard_near_major_road (fun h => on_major_road h /\ well_formed h).
Proof.
  unfold hazard_near_major_road.
  eapply returns_bind; [apply returns_choice; discriminate|]. intros road Hroad.
  destruct (major_road_facts road Hroad) as (Hne & Hlim & Hpts).
  eapply returns_bind; [apply returns_near_road; exact Hne|].
  intros c (point & Hpoint & Hlat & Hlng).
  eapply returns_bind; [apply returns_lift, produces_select_hazard_type|]. intros t _.
  eapply returns_bind; [apply returns_lift, produces_select_severity_level|]. intros s _.
  eapply returns_bind; [apply returns_lift, produces_detection_timestamp|]. intros ts Hts.
  eapply returns_bind; [apply returns_lift, produces_uniform; discriminate|].
  intros conf Hconf.
  eapply returns_bind; [apply returns_verified_above|]. intros v _.
  eapply returns_bind; [apply returns_choice; discriminate|]. intros w Hw.
  cbv beta in *. apply returns_ret.
  destruct (Hpts point Hpoint) as (P1 & P2 & P3 & P4).
  pose proof (generator_speed_bounds (rd_speed_limit road) s ltac:(lia)) as Hspeed.
  split.
  - exists road, point. cbn.
    split; [exact Hroad|]. split; [exact Hpoint|].
    split; [reflexivity|]. split; [reflexivity|]. split; [reflexivity|].
    split; assumption.
  - unfold well_formed. cbn.
    unfold PESHAWAR_BOUNDS in *. cbn [lat_min lat_max lng_min lng_max] in *.
    split; [split; lra|]. split; [split; lra|]. split; [lia|].
    split; [exact Hspeed|]. split; [split; lra|]. split; [exact Hts | exact Hw].
Qed.

Lemma returns_hazard_at_random_location :
  returns hazard_at_random_location (fun h => on_local_road h /\ well_formed h).
Proof.
  unfold hazard_at_random_location.
  eapply returns_bind; [apply returns_lift, produces_in_peshawar|].
  intros c [Hlat Hlng].
  eapply returns_bind; [apply returns_lift, produces_select_hazard_type|]. intros t _.
  eapply returns_bind; [apply returns_lift, produces_select_severity_level|]. intros s _.
  eapply returns_bind; [apply returns_choice; discriminate|]. intros limit Hlimit.
  cbv zeta.
  eapply returns_bind; [apply returns_lift, produces_detection_timestamp|]. intros ts Hts.
  eapply returns_bind; [apply returns_lift, produces_uniform; discriminate|].
  intros conf Hconf.
  eapply returns_bind; [apply returns_verified_above|]. intros v _.
  eapply returns_bind; [apply returns_lift, produces_randint; lia|]. intros n Hn.
  eapply returns_bind; [apply returns_choice; discriminate|]. intros w Hw.
  cbv beta in *. apply returns_ret.
  assert (Hrange : 30 <= limit <= 80).
  { simpl in Hlimit. destruct Hlimit as [<-|[<-|[<-|[<-|[]]]]]; lia. }
  pose proof (generator_speed_bounds limit s ltac:(lia)) as Hspeed.
  split.
  - split; [exists n; split; [exact Hn | reflexivity] | exact Hlimit].
  - unfold well_formed. cbn.
    split; [exact Hlat|]. split; [exact Hlng|]. split; [exact Hrange|].
    split; [exact Hspeed|]. split; [split; lra|]. split; [exact Hts | exact Hw].
Qed.

(** A loop of [n] rounds appends [n] hazards, each as its body makes
    them. *)
Lemma append_each_returns {A : Type} (n : nat) (body : Rand (result A))
    (P : A -> Prop) (hazards : list A) :
  returns body P ->
  returns (append_each n body hazards)
    (fun hs => exists new : list A,
                 hs = hazards ++ new /\ List.length new = n /\ Forall P new).
Proof.
  intros Hbody. revert hazards. induction n as [|n IH]; intros hazards; simpl.
  - apply returns_ret. exists []. split; [now rewrite app_nil_r|].
    split; [reflexivity | constructor].
  - eapply returns_bind; [exact Hbody|]. intros h Hh.
    eapply returns_weaken; [apply IH|].
    intros hs (new & -> & Hlen & Hall).
    exists (h :: new). split; [now rewrite <- app_assoc|].
    split; [simpl; now rewrite Hlen | constructor; assumption].
Qed.

(** A property checked on every element of a range holds on the range. *)
Lemma forallb_limits_from (P : Z -> bool) (lo : Z) (n : nat) :
  forallb P (limits_from lo n) = true ->
  forall c : Z, lo <= c < lo + Z.of_nat n -> P c = true.
Proof.
  intros H c Hc. rewrite forallb_forall in H. apply H.
  unfold limits_from. apply in_map_iff. exists (Z.to_nat (c - lo)).
  split; [lia|]. apply in_seq. lia.
Qed.

(** For every [count] from -1000 to 10000 the product [count * 0.7] is
    finite, and the part of [count] that goes to the major roads lies
    between zero and [count]; computed on doubles, one [count] after the
    other. *)
Lemma major_road_count_bounds :
  forallb (fun count =>
             negb (PrimFloat.is_infinity (@of_int binary64 count))
             && (if 0 <=? count
                 then (0 <=? major_road_count count) && (major_road_count count <=? count)
                 else (count <=? major_road_count count) && (major_road_count count <=? 0)))
          (limits_from (-1000) (Z.to_nat 11001)) = true.
Proof. vm_compute. reflexivity. Qed.

(** In doubles 90 * 0.7 is below 63: of 90 hazards, 62 go to the major
    roads, where exact arithmetic has 63; 200 and 250 give 140 and 175. *)
Lemma major_road_count_on_doubles :
  major_road_count 90 = 62
  /\ Qtruncate (inject_Z 90 * (7 # 10)) = 63
  /\ major_road_count 200 = 140
  /\ major_road_count 250 = 175.
Proof. repeat split; vm_compute; reflexivity. Qed.

(** X19: from draws in [0, 1) and for a [count] from -1000 to 10000,
    [generate_hazard_data] returns without raising exactly [count] hazards
    (none for a negative [count]): first those near the major roads,
    [int(count * 0.7)] of them as the code computes it on doubles, each with
    the name, area and speed limit of a major road and within 0.001 degrees
    of one of its points; then those on numbered local roads 1 to 100 with a
    speed limit of 30, 40, 50 or 60.  Every hazard lies within the bounds of
    the city, has a speed limit from 30 to 80, a recommended speed from 20
    to its speed limit, a confidence from 0.6 to 0.95, a detection at most
    30 days 23 hours 59 minutes old and one of the listed weather
    conditions. *)
Theorem generated_hazards_are_well_formed (count : Z) (g : Rng) :
  unit_draws g ->
  -1000 <= count <= 10000 ->
  exists on_road off_road : list HazardData,
    fst (generate_hazard_data count g) = Ok (on_road ++ off_road)
    /\ List.length (on_road ++ off_road) = Z.to_nat count
    /\ List.length on_road = Z.to_nat (major_road_count count)
    /\ Forall on_major_road on_road
    /\ Forall on_local_road off_road
    /\ Forall well_formed (on_road ++ off_road).
Proof.
  intros Hu Hcount.
  assert (Hrange : -1000 <= count < -1000 + Z.of_nat (Z.to_nat 11001)) by lia.
  pose proof (forallb_limits_from _ _ _ major_road_count_bounds count Hrange) as Hb.
  cbv beta in Hb. apply andb_true_iff in Hb. destruct Hb as [Hfin Hb].
  apply negb_true_iff in Hfin.
  assert (H : returns
                (hazards <-? append_each (Z.to_nat (major_road_count count))
                               hazard_near_major_road [] ;;
                 append_each (Z.to_nat (count - major_road_count count))
                   hazard_at_random_location hazards)
                (fun hs => exists on_road off_road : list HazardData,
                   hs = on_road ++ off_road
                   /\ List.length on_road = Z.to_nat (major_road_count count)
                   /\ List.length off_road = Z.to_nat (count - major_road_count count)
                   /\ Forall (fun h => on_major_road h /\ well_formed h) on_road
                   /\ Forall (fun h => on_local_road h /\ well_formed h) off_road)).
  { eapply returns_bind;
      [apply append_each_returns; apply returns_hazard_near_major_road|].
    intros hs (on_road & -> & Hlen1 & Hall1).
    eapply returns_weaken;
      [apply append_each_returns; apply returns_hazard_at_random_location|].
    intros hs' (off_road & -> & Hlen2 & Hall2).
    exists on_road, off_road. simpl. repeat split; assumption. }
  destruct (H g Hu) as [(hs & Hhs & on_road & off_road & -> & Hlen1 & Hlen2 & Hall1 & Hall2) _].
  exists on_road, off_road.
  split; [unfold generate_hazard_data; rewrite Hfin; exact Hhs|]. split.
  { rewrite length_app, Hlen1, Hlen2.
    destruct (0 <=? count) eqn:Hsign;
      apply andb_true_iff in Hb; destruct Hb as [B1 B2];
      apply Z.leb_le in B1, B2; [apply Z.leb_le in Hsign | apply Z.leb_gt in Hsign]; lia. }
  split; [exact Hlen1|].
  split; [eapply Forall_impl; [|exact Hall1]; intros h [Hh _]; exact Hh|].
  split; [eapply Forall_impl; [|exact Hall2]; intros h [Hh _]; exact Hh|].
  apply Forall_app. split.
  - eapply Forall_impl; [|exact Hall1]. intros h [_ Hh]; exact Hh.
  - eapply Forall_impl; [|exact Hall2]. intros h [_ Hh]; exact Hh.
Qed.

End GeneratorExtras.

(** An instance of X17: the steady draws, whose every draw is 1/8. *)
Lemma selection_follows_the_probabilities_witness :
  unit_draws steady_rng
  /\ fst (PeshawarHazardDataGenerator.select_hazard_type steady_rng) = POTHOLE
  /\ fst (PeshawarHazardDataGenerator.select_severity_level steady_rng) = LOW.
Proof.
  assert (Hu : unit_draws steady_rng).
  { intros n. simpl. split; [discriminate | reflexivity]. }
  split; [exact Hu|].
  destruct (selection_follows_the_probabilities steady_rng Hu)
    as [(Hp & _) (Hl & _)].
  split; [apply Hp | apply Hl]; simpl; discriminate.
Defined.

(** An instance of X19: ten hazards from the steady draws. *)
Lemma generated_hazards_are_well_formed_witness :
  exists on_road off_road : list PeshawarHazardDataGenerator.HazardData,
    fst (PeshawarHazardDataGenerator.generate_hazard_data 10 steady_rng)
    = Ok (on_road ++ off_road)
    /\ List.length (on_road ++ off_road) = Z.to_nat 10
    /\ List.length on_road = Z.to_nat (PeshawarHazardDataGenerator.major_road_count 10)
    /\ Forall on_major_road on_road
    /\ Forall on_local_road off_road
    /\ Forall well_formed (on_road ++ off_road).
Proof.
  apply (generated_hazards_are_well_formed 10 steady_rng).
  - intros n. simpl. split; [discriminate | reflexivity].
  - lia.
Defined.

(** ** Road names *)

Section RoadNameExtras.
Local Open Scope Q_scope.

Lemma in_box_true (a b c d lat lng : Q) :
  (Qle_bool a lat && Qle_bool lat b && Qle_bool c lng && Qle_bool lng d)%bool = true ->
  a <= lat <= b /\ c <= lng <= d.
Proof.
  rewrite !andb_true_iff, !Qle_bool_iff. tauto.
Qed.

Lemma in_box_false (a b c d lat lng : Q) :
  (Qle_bool a lat && Qle_bool lat b && Qle_bool c lng && Qle_bool lng d)%bool = false ->
  ~ (a <= lat <= b /\ c <= lng <= d).
Proof.
  intros H [[H1 H2] [H3 H4]].
  apply Qle_bool_iff in H1, H2, H3, H4. rewrite H1, H2, H3, H4 in H. discriminate H.
Qed.

(** Splits the hypotheses on boxes and closes a goal on coordinates, where
    necessary against a box that is known not to contain the point. *)
Ltac box_facts :=
  repeat match goal with
         | H : _ /\ _ |- _ => destruct H
         end.

Ltac box_refute :=
  exfalso; box_facts;
  first [ lra
        | match goal with
          | N : ~ _ |- _ => solve [apply N; repeat split; lra]
          end ].

(** X20: [get_road_name] answers with the first box that contains the
    point.  The box of Jamrud Road comes last and overlaps the box of GT
    Road, so that Jamrud Road is named only for longitudes from 71.53 to
    below 71.54 (and not at the corner it shares with University Road);
    outside the four boxes the name is a local road numbered from 1 to 100
    (for a draw from [0, 1)). *)
Theorem road_name_first_match (lat lng : Q) (g : Rng) :
  unit_draws g ->
  let name := fst (GPSSimulator.get_road_name lat lng g) in
  (name = Named "University Road"
   <-> 3401 # 100 <= lat <= 3402 # 100 /\ 7151 # 100 <= lng <= 7153 # 100)
  /\ (name = Named "GT Road"
      <-> 34 <= lat <= 3401 # 100 /\ 7154 # 100 <= lng <= 7157 # 100)
  /\ (name = Named "Ring Road"
      <-> 3398 # 100 <= lat <= 34 /\ 7147 # 100 <= lng <= 715 # 10)
  /\ (name = Named "Jamrud Road"
      <-> 34 <= lat <= 3401 # 100 /\ 7153 # 100 <= lng < 7154 # 100
          /\ ~ (lat == 3401 # 100 /\ lng == 7153 # 100))
  /\ (forall n : Z, name = LocalRoad n -> (1 <= n <= 100)%Z).
Proof.
  intros Hu. cbv zeta. unfold GPSSimulator.get_road_name.
  pose proof (proj1 (produces_randint 1 100 ltac:(lia) g Hu)) as Hn. cbv beta in Hn.
  destruct (Qle_bool (3401 # 100) lat && Qle_bool lat (3402 # 100)
            && Qle_bool (7151 # 100) lng && Qle_bool lng (7153 # 100))%bool eqn:U1;
    [apply in_box_true in U1 | apply in_box_false in U1;
  destruct (Qle_bool 34 lat && Qle_bool lat (3401 # 100)
            && Qle_bool (7154 # 100) lng && Qle_bool lng (7157 # 100))%bool eqn:U2;
    [apply in_box_true in U2 | apply in_box_false in U2;
  destruct (Qle_bool (3398 # 100) lat && Qle_bool lat 34
            && Qle_bool (7147 # 100) lng && Qle_bool lng (715 # 10))%bool eqn:U3;
    [apply in_box_true in U3 | apply in_box_false in U3;
  destruct (Qle_bool 34 lat && Qle_bool lat (3401 # 100)
            && Qle_bool (7153 # 100) lng && Qle_bool lng (7155 # 100))%bool eqn:U4;
    [apply in_box_true in U4 | apply in_box_false in U4]]]];
  try rewrite bind_run; unfold ret; cbn [fst];
  (split; [|split; [|split; [|split]]]);
  first
    [ solve [ intros n Hname;
              first [discriminate Hname | injection Hname as <-; exact Hn] ]
    | solve [ split;
              [ intros Hname;
                first
                  [ discriminate Hname
                  | assumption
                  | destruct U4 as [[J1 J2] [J3 J4]];
                    split; [split; assumption|];
                    split;
                    [ split; [assumption|];
                      destruct (Qlt_le_dec lng (7154 # 100)) as [L|L];
                      [exact L | exfalso; apply U2; repeat split; lra]
                    | intros [E1 E2]; apply U1; repeat split; lra ] ]
              | intros Hbox; first [reflexivity | box_refute] ] ] ].
Qed.

End RoadNameExtras.

(** An instance of X20: a point of Jamrud Road west of the box of GT
    Road. *)
Lemma road_name_first_match_witness :
  fst (GPSSimulator.get_road_name (34005 # 1000) (71535 # 1000) steady_rng)
  = Named "Jamrud Road".
Proof.
  assert (Hu : unit_draws steady_rng).
  { intros n. simpl. split; [discriminate | reflexivity]. }
  destruct (road_name_first_match (34005 # 1000) (71535 # 1000) steady_rng Hu)
    as (_ & _ & _ & Hj & _).
  apply Hj. split; [split; vm_compute; discriminate|].
  split; [split; [vm_compute; discriminate | reflexivity]|].
  intros [E _]. vm_compute in E. discriminate E.
Defined.

(** * Exceptions and large speed limits *)

(** ** The conversion of an integer *)

Lemma round_to_double_small (n : Z) : Z.abs n < 2 ^ 53 -> round_to_double n = n.
Proof.
  intros H. unfold round_to_double. cbv zeta.
  apply Z.ltb_lt in H. rewrite H. reflexivity.
Qed.

(** Up to 2^53, both ends included, every integer is a double. *)
Lemma round_to_double_exact (n : Z) : Z.abs n <= 2 ^ 53 -> round_to_double n = n.
Proof.
  intros H. destruct (Z.eq_dec (Z.abs n) (2 ^ 53)) as [E|E].
  - assert (Hn : n = 2 ^ 53 \/ n = - 2 ^ 53) by lia.
    destruct Hn as [-> | ->]; vm_compute; reflexivity.
  - apply round_to_double_small. lia.
Qed.

Lemma py_float_exact (n : Z) : Z.abs n <= 2 ^ 53 -> py_float n = Ok (inject_Z n).
Proof.
  intros H. unfold py_float. cbv zeta. rewrite (round_to_double_exact n H).
  assert (Hpow : 2 ^ 53 < 2 ^ 1024) by (apply Z.pow_lt_mono_r; lia).
  assert (Hlt : Z.abs n < 2 ^ 1024) by lia.
  apply Z.leb_gt in Hlt. rewrite Hlt. reflexivity.
Qed.

Lemma py_float_cases (n : Z) :
  (2 ^ 1024 <= Z.abs (round_to_double n) /\ py_float n = Raise OverflowError)
  \/ (Z.abs (round_to_double n) < 2 ^ 1024
      /\ py_float n = Ok (inject_Z (round_to_double n))).
Proof.
  unfold py_float. cbv zeta.
  destruct (2 ^ 1024 <=? Z.abs (round_to_double n)) eqn:E.
  - left. apply Z.leb_le in E. split; [exact E | reflexivity].
  - right. apply Z.leb_gt in E. split; [exact E | reflexivity].
Qed.

(** A limit below 20 stays below 20 when it is rounded. *)
Lemma round_to_double_below_20 (n : Z) : n < 20 -> round_to_double n < 20.
Proof.
  intros Hn. unfold round_to_double. cbv zeta.
  destruct (Z.abs n <? 2 ^ 53) eqn:E; [exact Hn|].
  apply Z.ltb_ge in E.
  assert (H53 : 20 < 2 ^ 53) by reflexivity.
  assert (Hneg : n < 0) by lia.
  rewrite (Z.sgn_neg n Hneg).
  set (a := Z.abs n) in *. set (e := Z.log2 a - 52).
  assert (He : 0 <= e).
  { unfold e. pose proof (Z.log2_le_mono _ _ E) as Hlog.
    rewrite Z.log2_pow2 in Hlog by lia. lia. }
  assert (Hp : 0 < 2 ^ e) by (apply Z.pow_pos_nonneg; lia).
  assert (Hq : 0 <= a / 2 ^ e) by (apply Z.div_pos; lia).
  assert (Hq' : 0 <= (if a mod 2 ^ e <? 2 ^ (e - 1) then a / 2 ^ e
                      else if 2 ^ (e - 1) <? a mod 2 ^ e then a / 2 ^ e + 1
                      else if Z.even (a / 2 ^ e) then a / 2 ^ e else a / 2 ^ e + 1)).
  { destruct (_ <? _); [exact Hq|]. destruct (_ <? _); [lia|].
    destruct (Z.even _); lia. }
  pose proof (Z.mul_nonneg_nonneg _ _ Hq' (Z.lt_le_incl _ _ Hp)) as Hprod.
  lia.
Qed.

(** The rounding agrees with the conversion of the double-precision
    interpretation on integers around 2^53 and 2^54 and on large ones, and
    both overflow from [2^1024 - 2^970] on. *)
Lemma round_to_double_on_doubles :
  forallb (fun n => (negb (PrimFloat.is_infinity (@of_int binary64 n)))
                    && (@to_int binary64 (@of_int binary64 n) =? round_to_double n))
          conversion_samples = true
  /\ PrimFloat.is_infinity (@of_int binary64 (2 ^ 1024 - 2 ^ 970)) = true
  /\ Z.abs (round_to_double (2 ^ 1024 - 2 ^ 970)) = 2 ^ 1024
  /\ PrimFloat.is_infinity (@of_int binary64 (10 ^ 400)) = true
  /\ (2 ^ 1024 <=? Z.abs (round_to_double (10 ^ 400))) = true.
Proof. repeat split; vm_compute; reflexivity. Qed.

(** ** The engine *)

Section RaisingEngine.
Context {M : MathLib Q}.
Local Open Scope Q_scope.

(** Each function of the engine either raises or returns what its
    embedding without exceptions returns. *)
Lemma calculate_distance_cases (lat1 lng1 lat2 lng2 : Q) :
  Raising.calculate_distance lat1 lng1 lat2 lng2 = Raise ValueError
  \/ Raising.calculate_distance lat1 lng1 lat2 lng2
     = Ok (calculate_distance (N := exact) lat1 lng1 lat2 lng2).
Proof.
  unfold Raising.calculate_distance, Raising.math_sqrt, and_then. cbv zeta.
  destruct (Qltb _ 0); [left; reflexivity|].
  destruct (Qltb _ 0); [left; reflexivity|].
  right. reflexivity.
Qed.

Lemma add_impact_cases (loc : Location) (total : Q) (h : Hazard) :
  Raising.add_impact loc total h = Raise ValueError
  \/ Raising.add_impact loc total h = Ok (add_impact loc total h).
Proof.
  unfold Raising.add_impact.
  destruct (calculate_distance_cases (lat loc) (lng loc) (latitude h) (longitude h))
    as [E|E]; rewrite E; [left; reflexivity|].
  right. unfold and_then. rewrite add_impact_exact. cbv zeta.
  destruct (Qltb 0 _); reflexivity.
Qed.

Lemma total_impact_from_cases (loc : Location) (hazards : list Hazard) (total : Q) :
  Raising.total_impact_from loc hazards total = Raise ValueError
  \/ Raising.total_impact_from loc hazards total
     = Ok (fold_left (add_impact loc) hazards total).
Proof.
  revert total. induction hazards as [|h hs IH]; intros total; simpl.
  - right. reflexivity.
  - destruct (add_impact_cases loc total h) as [E|E]; rewrite E; simpl.
    + left. reflexivity.
    + apply IH.
Qed.

(** The three ways of the engine: a hazard is out of the domain of the
    square root, the limit is too large for a double, or the result is
    computed from the limit as a double. *)
Lemma calculate_recommended_speed_cases
    (loc : Location) (hazards : list Hazard) (base_speed_limit : Z) :
  Raising.calculate_recommended_speed loc hazards base_speed_limit = Raise ValueError
  \/ (2 ^ 1024 <= Z.abs (round_to_double base_speed_limit)
      /\ Raising.calculate_recommended_speed loc hazards base_speed_limit
         = Raise OverflowError)%Z
  \/ (Z.abs (round_to_double base_speed_limit) < 2 ^ 1024
      /\ Raising.calculate_recommended_speed loc hazards base_speed_limit
         = Ok (Z.max (Qtruncate
                        (inject_Z (round_to_double base_speed_limit)
                         * (1 - py_min (N := exact) (total_impact_of loc hazards) (8 # 10))))
                     20))%Z.
Proof.
  unfold Raising.calculate_recommended_speed.
  destruct (total_impact_from_cases loc hazards 0) as [E|E]; rewrite E; cbn [and_then].
  - left. reflexivity.
  - right. destruct (py_float_cases base_speed_limit) as [[Hb Ef]|[Hb Ef]];
      rewrite Ef; cbn [and_then].
    + left. split; [exact Hb | reflexivity].
    + right. split; [exact Hb | reflexivity].
Qed.

Lemma raising_speed_raises (loc : Location) (hazards : list Hazard)
    (base_speed_limit : Z) (e : exn) :
  Raising.calculate_recommended_speed loc hazards base_speed_limit = Raise e ->
  e = ValueError \/ (e = OverflowError /\ (2 ^ 53 < Z.abs base_speed_limit)%Z).
Proof.
  intros H.
  destruct (calculate_recommended_speed_cases loc hazards base_speed_limit)
    as [E|[[Hb E]|[Hb E]]]; rewrite E in H; inversion H; subst.
  - left. reflexivity.
  - right. split; [reflexivity|].
    destruct (Z_le_gt_dec (Z.abs base_speed_limit) (2 ^ 53)) as [Hle|Hgt]; [|lia].
    rewrite (round_to_double_exact _ Hle) in Hb.
    assert (Hpow : (2 ^ 53 < 2 ^ 1024)%Z) by (apply Z.pow_lt_mono_r; lia).
    lia.
Qed.

(** A returned speed is at least 20. *)
Lemma raising_speed_at_least_20 (loc : Location) (hazards : list Hazard)
    (base_speed_limit r : Z) :
  Raising.calculate_recommended_speed loc hazards base_speed_limit = Ok r -> (20 <= r)%Z.
Proof.
  intros H.
  destruct (calculate_recommended_speed_cases loc hazards base_speed_limit)
    as [E|[[Hb E]|[Hb E]]]; rewrite E in H; inversion H; subst.
  apply Z.le_max_r.
Qed.

(** Up to 2^53 a returned speed is the one of the embedding without
    exceptions. *)
Lemma raising_speed_exact (loc : Location) (hazards : list Hazard)
    (base_speed_limit r : Z) :
  (Z.abs base_speed_limit <= 2 ^ 53)%Z ->
  Raising.calculate_recommended_speed loc hazards base_speed_limit = Ok r ->
  r = calculate_recommended_speed (N := exact) loc hazards base_speed_limit.
Proof.
  intros Hb H.
  destruct (calculate_recommended_speed_cases loc hazards base_speed_limit)
    as [E|[[_ E]|[_ E]]]; rewrite E in H; inversion H; subst.
  rewrite (round_to_double_exact _ Hb). reflexivity.
Qed.

Lemma raising_speed_bounds (loc : Location) (hazards : list Hazard)
    (base_speed_limit r : Z) :
  (20 <= base_speed_limit <= 2 ^ 53)%Z ->
  Raising.calculate_recommended_speed loc hazards base_speed_limit = Ok r ->
  (20 <= r <= base_speed_limit)%Z.
Proof.
  intros Hb H. rewrite (raising_speed_exact loc hazards base_speed_limit r); [|lia | exact H].
  apply exact_speed_within_limits. lia.
Qed.

(** Below 20 a returned speed is 20, whatever the size of the limit. *)
Lemma raising_speed_low_limit (loc : Location) (hazards : list Hazard)
    (base_speed_limit r : Z) :
  (base_speed_limit < 20)%Z ->
  Raising.calculate_recommended_speed loc hazards base_speed_limit = Ok r -> r = 20%Z.
Proof.
  intros Hb H.
  destruct (calculate_recommended_speed_cases loc hazards base_speed_limit)
    as [E|[[_ E]|[_ E]]]; rewrite E in H; inversion H; subst.
  pose proof (round_to_double_below_20 _ Hb) as Hv.
  pose proof (clamped_impact_bounds loc hazards) as Ht. cbv zeta in Ht.
  set (t := py_min _ _) in *. set (v := round_to_double base_speed_limit) in *.
  apply Z.max_r.
  destruct (Z_lt_le_dec v 0) as [Hneg|Hpos].
  - assert (Hx : inject_Z v * (1 - t) <= 0).
    { assert (inject_Z v <= 0) by (change 0 with (inject_Z 0); rewrite <- Zle_Qle; lia).
      nra. }
    pose proof (Qtruncate_nonpos _ Hx). lia.
  - assert (Hx : inject_Z v * (1 - t) <= inject_Z 19).
    { assert (0 <= inject_Z v) by (rewrite <- (Zle_Qle 0); exact Hpos).
      assert (inject_Z v <= inject_Z 19) by (rewrite <- Zle_Qle; lia).
      change (inject_Z 19) with 19 in *. nra. }
    pose proof (Qtruncate_le _ 19 ltac:(lia) Hx). lia.
Qed.

(** Without hazards nothing is in the way of the square root. *)
Lemma raising_speed_no_hazards (loc : Location) (base_speed_limit : Z) :
  (2 ^ 1024 <= Z.abs (round_to_double base_speed_limit)
   /\ Raising.calculate_recommended_speed loc [] base_speed_limit = Raise OverflowError)%Z
  \/ (Z.abs (round_to_double base_speed_limit) < 2 ^ 1024
      /\ Raising.calculate_recommended_speed loc [] base_speed_limit
         = Ok (Z.max (round_to_double base_speed_limit) 20))%Z.
Proof.
  unfold Raising.calculate_recommended_speed.
  cbn [Raising.total_impact_from and_then].
  destruct (py_float_cases base_speed_limit) as [[Hb Ef]|[Hb Ef]];
    rewrite Ef; cbn [and_then].
  - left. split; [exact Hb | reflexivity].
  - right. split; [exact Hb|]. do 2 f_equal.
    change (py_min (N := exact) 0 (8 # 10)) with 0.
    unfold Qtruncate. cbn [Qnum Qden inject_Z Qmult Qminus Qplus Qopp].
    rewrite Z.mul_1_r. apply Z.quot_1_r.
Qed.


(** C4, amended: on the empty list of hazards, whatever the point, the
    function returns [max(speed limit, 20)] and raises nothing for every
    integer speed limit from -2^53 to 2^53, below 20 included.  A limit of
    larger magnitude is first rounded to the nearest double: the result is
    then [max] of the rounded limit and 20, and from the first limit that
    has no finite double on, the conversion raises [OverflowError]. *)
Theorem recommended_speed_no_hazards (loc : Location) (base_speed_limit : Z) :
  ((Z.abs base_speed_limit <= 2 ^ 53)%Z ->
   Raising.calculate_recommended_speed loc [] base_speed_limit
   = Ok (Z.max base_speed_limit 20))
  /\ ((Z.abs (round_to_double base_speed_limit) < 2 ^ 1024)%Z ->
      Raising.calculate_recommended_speed loc [] base_speed_limit
      = Ok (Z.max (round_to_double base_speed_limit) 20))
  /\ ((2 ^ 1024 <= Z.abs (round_to_double base_speed_limit))%Z ->
      Raising.calculate_recommended_speed loc [] base_speed_limit = Raise OverflowError).
Proof.
  destruct (raising_speed_no_hazards loc base_speed_limit) as [[Hbig E]|[Hfin E]].
  - split; [|split].
    + intros Hb. rewrite round_to_double_exact in Hbig by exact Hb.
      assert (Hpow : (2 ^ 53 < 2 ^ 1024)%Z) by (apply Z.pow_lt_mono_r; lia). lia.
    + intros Hfin. lia.
    + intros _. exact E.
  - split; [|split].
    + intros Hb. rewrite E, round_to_double_exact by exact Hb. reflexivity.
    + intros _. exact E.
    + intros Hbig. lia.
Qed.

End RaisingEngine.



(** An instance of C4 as amended: the limits 60, 10 and -5 on the empty
    list. *)
Lemma recommended_speed_no_hazards_witness :
  Raising.calculate_recommended_speed (M := approx_math) university_road [] 60 = Ok 60
  /\ Raising.calculate_recommended_speed (M := approx_math) university_road [] 10 = Ok 20
  /\ Raising.calculate_recommended_speed (M := approx_math) university_road [] (-5) = Ok 20.
Proof.
  split; [|split].
  - apply (proj1 (@recommended_speed_no_hazards approx_math university_road 60)).
    vm_compute; discriminate.
  - apply (proj1 (@recommended_speed_no_hazards approx_math university_road 10)).
    vm_compute; discriminate.
  - apply (proj1 (@recommended_speed_no_hazards approx_math university_road (-5))).
    vm_compute; discriminate.
Defined.

(** C4 as stated fails: without hazards the limit 2^53 + 3 gives
    2^53 + 4, not [max(limit, 20)], in this embedding and in double
    precision alike, and the limit 10^400 raises [OverflowError]. *)
Lemma no_hazards_beyond_doubles :
  Raising.calculate_recommended_speed (M := approx_math) university_road [] (2 ^ 53 + 3)
  = Ok (2 ^ 53 + 4)
  /\ Z.max (2 ^ 53 + 3) 20 <> 2 ^ 53 + 4
  /\ calculate_recommended_speed (N := binary64) (M := b64_math)
       university_road [] (2 ^ 53 + 3) = 2 ^ 53 + 4
  /\ Raising.calculate_recommended_speed (M := approx_math) university_road [] (10 ^ 400)
     = Raise OverflowError.
Proof.
  split; [vm_compute; reflexivity|]. split; [vm_compute; discriminate|].
  split; vm_compute; reflexivity.
Qed.

(** ** The speed handlers *)

Section RaisingHandlers.
Context {M : MathLib Q}.
Local Open Scope Q_scope.

Lemma hazard_details_of_cases (lat lng radius : Q) (hazards : list Hazard) :
  Raising.hazard_details_of lat lng radius hazards = Raise ValueError
  \/ Raising.hazard_details_of lat lng radius hazards
     = Ok (hazard_details_of lat lng radius hazards).
Proof.
  induction hazards as [|h hs IH]; simpl; [right; reflexivity|].
  destruct (calculate_distance_cases lat lng (latitude h) (longitude h)) as [E|E];
    rewrite E; simpl; [left; reflexivity|].
  destruct IH as [E'|E']; rewrite E'; simpl; [left; reflexivity|].
  right. destruct (Qle_bool _ radius); reflexivity.
Qed.

Lemma location_details_of_cases (lat lng radius : Q) (hazards : list HazardRow) :
  Raising.location_details_of lat lng radius hazards = Raise ValueError
  \/ Raising.location_details_of lat lng radius hazards
     = Ok (SpeedLocationRoute.location_details_of lat lng radius hazards).
Proof.
  induction hazards as [|h hs IH]; simpl; [right; reflexivity|].
  destruct (calculate_distance_cases lat lng (latitude (columns h)) (longitude (columns h)))
    as [E|E]; rewrite E; simpl; [left; reflexivity|].
  destruct IH as [E'|E']; rewrite E'; simpl; [left; reflexivity|].
  right. destruct (Qle_bool _ radius); reflexivity.
Qed.

(** What a returned recommendation holds. *)
Lemma recommend_waypoint_returns
    (db : list Hazard) (radius : Q) (i : nat) (wp : Waypoint) (r : Recommendation) :
  Raising.recommend_waypoint db radius i wp = Ok r ->
  waypoint_index r = i
  /\ location r = {| lat := wp_lat wp; lng := wp_lng wp |}
  /\ speed_limit r = match wp_speed_limit wp with Some v => v | None => 50%Z end
  /\ speed_reduction r = (speed_limit r - recommended_speed r)%Z
  /\ hazards_count r = List.length (hazards r)
  /\ Raising.calculate_recommended_speed {| lat := wp_lat wp; lng := wp_lng wp |}
       (query_hazards db (wp_lat wp) (wp_lng wp) (radius / 111)) (speed_limit r)
     = Ok (recommended_speed r).
Proof.
  unfold Raising.recommend_waypoint. cbv zeta.
  destruct (Raising.calculate_recommended_speed _ _ _) as [rs|e] eqn:Hs; simpl;
    [|discriminate].
  destruct (Raising.hazard_details_of _ _ _ _) as [ds|e] eqn:Hd; simpl; [|discriminate].
  intros H. inversion H; subst; clear H. cbn.
  repeat split; try reflexivity. exact Hs.
Qed.

Lemma recommend_waypoint_raises
    (db : list Hazard) (radius : Q) (i : nat) (wp : Waypoint) (e : exn) :
  Raising.recommend_waypoint db radius i wp = Raise e ->
  e = ValueError \/ e = OverflowError.
Proof.
  unfold Raising.recommend_waypoint. cbv zeta.
  destruct (Raising.calculate_recommended_speed _ _ _) as [rs|e'] eqn:Hs; simpl.
  - destruct (hazard_details_of_cases (wp_lat wp) (wp_lng wp) radius
                (query_hazards db (wp_lat wp) (wp_lng wp) (radius / 111))) as [E|E];
      rewrite E; simpl; intros H; inversion H. left. reflexivity.
  - intros H. inversion H; subst.
    destruct (raising_speed_raises _ _ _ _ Hs) as [E|[E _]]; [left | right]; exact E.
Qed.

Lemma recommend_from_returns
    (db : list Hazard) (radius : Q) (waypoints : list Waypoint) :
  forall (i : nat) (recs : list Recommendation),
    Raising.recommend_from db radius i waypoints = Ok recs ->
    List.length recs = List.length waypoints
    /\ forall (k : nat) (r : Recommendation),
         nth_error recs k = Some r ->
         exists wp : Waypoint,
           nth_error waypoints k = Some wp
           /\ Raising.recommend_waypoint db radius (i + k) wp = Ok r.
Proof.
  induction waypoints as [|w ws IH]; intros i recs; simpl.
  - intros H. inversion H; subst. split; [reflexivity|].
    intros k r Hk. destruct k; discriminate Hk.
  - destruct (Raising.recommend_waypoint db radius i w) as [r0|e] eqn:Hw; simpl;
      [|discriminate].
    destruct (Raising.recommend_from db radius (S i) ws) as [rest|e] eqn:Hrest; simpl;
      [|discriminate].
    intros H. inversion H; subst; clear H.
    destruct (IH (S i) rest Hrest) as [Hlen Hnth].
    split; [simpl; now rewrite Hlen|].
    intros k r Hk. destruct k as [|k]; simpl in Hk.
    + inversion Hk; subst. exists w. split; [reflexivity|].
      rewrite Nat.add_0_r. exact Hw.
    + destruct (Hnth k r Hk) as (wp & Hwp & Hr).
      exists wp. split; [exact Hwp|].
      replace (i + S k)%nat with (S i + k)%nat by lia. exact Hr.
Qed.

Lemma recommend_from_raises
    (db : list Hazard) (radius : Q) (waypoints : list Waypoint) :
  forall (i : nat) (e : exn),
    Raising.recommend_from db radius i waypoints = Raise e ->
    e = ValueError \/ e = OverflowError.
Proof.
  induction waypoints as [|w ws IH]; intros i e; simpl; [discriminate|].
  destruct (Raising.recommend_waypoint db radius i w) as [r0|e0] eqn:Hw; simpl.
  - destruct (Raising.recommend_from db radius (S i) ws) as [rest|e1] eqn:Hrest; simpl.
    + discriminate.
    + intros H. inversion H; subst. exact (IH (S i) e Hrest).
  - intros H. inversion H; subst. exact (recommend_waypoint_raises _ _ _ _ _ Hw).
Qed.

(** Over an empty table, speed limits up to 2^53 are all answered. *)
Lemma recommend_from_empty_table (radius : Q) (waypoints : list Waypoint) :
  (forall wp : Waypoint,
     In wp waypoints ->
     (Z.abs (match wp_speed_limit wp with Some v => v | None => 50 end) <= 2 ^ 53)%Z) ->
  forall i : nat,
    exists recs : list Recommendation,
      Raising.recommend_from [] radius i waypoints = Ok recs.
Proof.
  induction waypoints as [|w ws IH]; intros Hall i; simpl.
  - exists []. reflexivity.
  - unfold Raising.recommend_waypoint. cbv zeta. simpl query_hazards.
    destruct (raising_speed_no_hazards
                (@Build_Location exact (wp_lat w) (wp_lng w))
                (match wp_speed_limit w with Some v => v | None => 50%Z end))
      as [[Hbig _]|[_ E]].
    + exfalso. specialize (Hall w (or_introl eq_refl)).
      rewrite round_to_double_exact in Hbig by exact Hall.
      assert (Hpow : (2 ^ 53 < 2 ^ 1024)%Z) by (apply Z.pow_lt_mono_r; lia). lia.
    + rewrite E. simpl.
      destruct (IH (fun wp Hwp => Hall wp (or_intror Hwp)) (S i)) as [rest Hrest].
      rewrite Hrest. simpl. eexists. reflexivity.
Qed.

(** X6: a request with waypoints is answered either with status 500,
    after a [ValueError] or an [OverflowError] of the engine, or with one
    recommendation per waypoint, in the order of the waypoints: the i-th
    carries index i, the waypoint's coordinates and its speed limit (50 when
    the waypoint names none), the number of the hazards it lists, a
    recommended speed of at least 20 and the limit minus that speed as its
    speed reduction, which lies between 0 and [limit - 20] for a limit from
    20 to 2^53 and is the negative [limit - 20] for a limit below 20.  Over
    an empty table every request whose limits do not exceed 2^53 in
    magnitude is answered with recommendations. *)
Theorem one_recommendation_per_waypoint (request : Request) (db : list Hazard) :
  req_waypoints request <> [] ->
  ((exists e : exn,
      Raising.get_speed_recommendations request db
      = ResponseWithStatus (ErrorBody (str e)) 500
      /\ (e = ValueError \/ e = OverflowError))
   \/ (exists (recs : list Recommendation) (radius : Q),
         Raising.get_speed_recommendations request db
         = Response (RecommendationsBody recs radius (List.length (req_waypoints request)))
         /\ List.length recs = List.length (req_waypoints request)
         /\ forall (i : nat) (r : Recommendation),
              nth_error recs i = Some r ->
              exists wp : Waypoint,
                nth_error (req_waypoints request) i = Some wp
                /\ waypoint_index r = i
                /\ location r = {| lat := wp_lat wp; lng := wp_lng wp |}
                /\ speed_limit r
                   = match wp_speed_limit wp with Some v => v | None => 50%Z end
                /\ speed_reduction r = (speed_limit r - recommended_speed r)%Z
                /\ hazards_count r = List.length (hazards r)
                /\ (20 <= recommended_speed r)%Z
                /\ ((20 <= speed_limit r <= 2 ^ 53)%Z ->
                    (0 <= speed_reduction r <= speed_limit r - 20)%Z)
                /\ ((speed_limit r < 20)%Z ->
                    speed_reduction r = (speed_limit r - 20)%Z)))
  /\ (db = [] ->
      (forall wp : Waypoint,
         In wp (req_waypoints request) ->
         (Z.abs (match wp_speed_limit wp with Some v => v | None => 50 end) <= 2 ^ 53)%Z) ->
      exists (recs : list Recommendation) (radius : Q),
        Raising.get_speed_recommendations request db
        = Response (RecommendationsBody recs radius (List.length (req_waypoints request)))).
Proof.
  intros Hne. unfold Raising.get_speed_recommendations. cbv zeta.
  destruct (req_waypoints request) as [|w ws] eqn:Hw; [contradiction|].
  set (radius := match req_search_radius_km request with Some r => r | None => 1 end).
  split.
  - destruct (Raising.recommend_from db radius 0 (w :: ws)) as [recs|e] eqn:Hrecs.
    + right. exists recs, radius. split; [reflexivity|].
      destruct (recommend_from_returns db radius (w :: ws) 0 recs Hrecs) as [Hlen Hnth].
      split; [exact Hlen|].
      intros i r Hr. destruct (Hnth i r Hr) as (wp & Hwp & Hrec).
      exists wp. split; [exact Hwp|].
      destruct (recommend_waypoint_returns db radius (0 + i) wp r Hrec)
        as (Hi & Hloc & Hlim & Hred & Hcount & Hspeed).
      split; [exact Hi|]. split; [exact Hloc|]. split; [exact Hlim|].
      split; [exact Hred|]. split; [exact Hcount|].
      split; [exact (raising_speed_at_least_20 _ _ _ _ Hspeed)|].
      split.
      * intros Hb. pose proof (raising_speed_bounds _ _ _ _ Hb Hspeed). lia.
      * intros Hb. pose proof (raising_speed_low_limit _ _ _ _ Hb Hspeed). lia.
    + left. exists e. split; [reflexivity|].
      exact (recommend_from_raises db radius (w :: ws) 0 e Hrecs).
  - intros -> Hall.
    destruct (recommend_from_empty_table radius (w :: ws) Hall 0) as [recs Hrecs].
    rewrite Hrecs. exists recs, radius. reflexivity.
Qed.

(** X8: the route-analysis handler never answers with an analysis.  An
    empty waypoint list gets the error response of status 400.  Otherwise it
    calls the recommendation handler and subscripts what that returns: a
    bare response object when the recommendations were computed, which
    raises and gives status 500 with the message of the [TypeError]; or the
    pair of an error and its status when the engine raised, in which the
    handler finds no recommendations and gives status 500 too. *)
Theorem route_analysis_always_fails (request : Request) (db : list Hazard) :
  (req_waypoints request = [] /\
   Raising.analyze_route_safety request db
   = ResponseWithStatus (ErrorBody "No waypoints provided") 400)
  \/ (req_waypoints request <> [] /\
      ((exists (recs : list Recommendation) (radius : Q) (n : nat),
          Raising.get_speed_recommendations request db
          = Response (RecommendationsBody recs radius n)
          /\ Raising.analyze_route_safety request db
             = ResponseWithStatus
                 (ErrorBody "'Response' object is not subscriptable") 500)
       \/ (exists e : exn,
             Raising.get_speed_recommendations request db
             = ResponseWithStatus (ErrorBody (str e)) 500
             /\ (e = ValueError \/ e = OverflowError)
             /\ Raising.analyze_route_safety request db
                = ResponseWithStatus (ErrorBody "Failed to get recommendations") 500))).
Proof.
  unfold Raising.analyze_route_safety, Raising.get_speed_recommendations. cbv zeta.
  destruct (req_waypoints request) as [|w ws] eqn:Hw.
  - left. split; reflexivity.
  - right. split; [discriminate|].
    set (radius := match req_search_radius_km request with Some r => r | None => 1 end).
    destruct (Raising.recommend_from db radius 0 (w :: ws)) as [recs|e] eqn:Hrecs.
    + left. exists recs, radius, (List.length (w :: ws)). split; reflexivity.
    + right. exists e. split; [reflexivity|].
      split; [exact (recommend_from_raises db radius (w :: ws) 0 e Hrecs) | reflexivity].
Qed.

(** The status follows the comparison of the recommended speed with
    four fifths of the limit, for limits whose product with 0.8 a double
    holds closely enough. *)
Lemma safety_status_of_cases (count : nat) (recommended limit : Z) (status : string) :
  Raising.safety_status_of count recommended limit = Ok status ->
  (status = "safe"%string <-> count = 0%nat)
  /\ (status = "safe"%string \/ status = "caution"%string \/ status = "danger"%string)
  /\ ((Z.abs limit <= 2 ^ 40)%Z ->
      (status = "caution"%string -> count <> 0%nat /\ (4 * limit < 5 * recommended)%Z)
      /\ (status = "danger"%string -> count <> 0%nat /\ (5 * recommended <= 4 * limit)%Z)).
Proof.
  unfold Raising.safety_status_of.
  destruct count as [|c]; cbn [Nat.eqb].
  - intros H. inversion H; subst.
    split; [split; reflexivity|]. split; [left; reflexivity|].
    intros _. split; discriminate.
  - destruct (py_float_cases limit) as [[_ Ef]|[_ Ef]]; rewrite Ef; cbn [and_then];
      [discriminate|].
    destruct (Qltb _ _) eqn:Hcmp; intros H; inversion H; subst; clear H;
      (split; [split; discriminate|]).
    + split; [right; left; reflexivity|].
      intros Hb. rewrite round_to_double_exact in Hcmp.
      2:{ assert ((2 ^ 40 <= 2 ^ 53)%Z) by (apply Z.pow_le_mono_r; lia). lia. }
      qbool. split; [|discriminate].
      intros _. split; [discriminate|].
      assert (Hz : (8 * limit < 10 * recommended)%Z).
      { rewrite Zlt_Qlt, !inject_Z_mult.
        change (inject_Z 8) with 8. change (inject_Z 10) with 10. lra. }
      lia.
    + split; [right; right; reflexivity|].
      intros Hb. rewrite round_to_double_exact in Hcmp.
      2:{ assert ((2 ^ 40 <= 2 ^ 53)%Z) by (apply Z.pow_le_mono_r; lia). lia. }
      qbool. split; [discriminate|].
      intros _. split; [discriminate|].
      assert (Hz : (10 * recommended <= 8 * limit)%Z).
      { rewrite Zle_Qle, !inject_Z_mult.
        change (inject_Z 8) with 8. change (inject_Z 10) with 10. lra. }
      lia.
Qed.

Lemma safety_status_of_raises (count : nat) (recommended limit : Z) (e : exn) :
  Raising.safety_status_of count recommended limit = Raise e -> e = OverflowError.
Proof.
  unfold Raising.safety_status_of.
  destruct (count =? 0)%nat; [discriminate|].
  destruct (py_float_cases limit) as [[_ Ef]|[_ Ef]]; rewrite Ef; cbn [and_then].
  - intros H. inversion H. reflexivity.
  - destruct (Qltb _ _); discriminate.
Qed.

(** X15: the location handler rejects with status 400 a request whose
    latitude or longitude is absent, unreadable or exactly zero.  Every
    other request it answers either with status 500, after a [ValueError]
    or an [OverflowError] of the engine, or with a recommendation of at
    least 20, whose [safety_status] is one of 'safe', 'caution' and 'danger'
    and is 'safe' exactly when no hazard is listed.  For a speed limit of
    magnitude up to 2^40 the status is 'caution' only with a reduction below
    a fifth of the limit, and 'danger' only with a limit of at least 25 and
    a reduction of at least a fifth of it. *)
Theorem location_response_cases (args : SpeedLocationRoute.Args) (db : list HazardRow) :
  (not_ (SpeedLocationRoute.arg_lat args) || not_ (SpeedLocationRoute.arg_lng args) = true
   /\ Raising.get_location_speed_recommendation args db
      = SpeedLocationRoute.LocationError "Latitude and longitude are required" 400)
  \/ (exists lat lng : Q,
        SpeedLocationRoute.arg_lat args = Some lat /\ ~ lat == 0
        /\ SpeedLocationRoute.arg_lng args = Some lng /\ ~ lng == 0
        /\ ((exists e : exn,
               Raising.get_location_speed_recommendation args db
               = SpeedLocationRoute.LocationError (str e) 500
               /\ (e = ValueError \/ e = OverflowError))
            \/ (exists b : SpeedLocationRoute.LocationBody,
                  Raising.get_location_speed_recommendation args db
                  = SpeedLocationRoute.LocationResponse b
                  /\ SpeedLocationRoute.loc_location b = {| lat := lat; lng := lng |}
                  /\ SpeedLocationRoute.loc_speed_limit b
                     = match SpeedLocationRoute.arg_speed_limit args with
                       | Some v => v
                       | None => 50%Z
                       end
                  /\ SpeedLocationRoute.loc_hazards_count b
                     = List.length (SpeedLocationRoute.loc_hazards b)
                  /\ (20 <= SpeedLocationRoute.loc_recommended_speed b)%Z
                  /\ SpeedLocationRoute.loc_speed_reduction b
                     = (SpeedLocationRoute.loc_speed_limit b
                        - SpeedLocationRoute.loc_recommended_speed b)%Z
                  /\ (SpeedLocationRoute.safety_status b = "safe"%string
                      <-> SpeedLocationRoute.loc_hazards b = [])
                  /\ (SpeedLocationRoute.safety_status b = "safe"%string
                      \/ SpeedLocationRoute.safety_status b = "caution"%string
                      \/ SpeedLocationRoute.safety_status b = "danger"%string)
                  /\ ((Z.abs (SpeedLocationRoute.loc_speed_limit b) <= 2 ^ 40)%Z ->
                      (SpeedLocationRoute.safety_status b = "caution"%string ->
                       SpeedLocationRoute.loc_hazards b <> []
                       /\ (5 * SpeedLocationRoute.loc_speed_reduction b
                           < SpeedLocationRoute.loc_speed_limit b)%Z)
                      /\ (SpeedLocationRoute.safety_status b = "danger"%string ->
                          SpeedLocationRoute.loc_hazards b <> []
                          /\ (25 <= SpeedLocationRoute.loc_speed_limit b)%Z
                          /\ (SpeedLocationRoute.loc_speed_limit b
                              <= 5 * SpeedLocationRoute.loc_speed_reduction b)%Z))))).
Proof.
  unfold Raising.get_location_speed_recommendation. cbv zeta.
  destruct (not_ (SpeedLocationRoute.arg_lat args)
            || not_ (SpeedLocationRoute.arg_lng args))%bool eqn:Hnot;
    [left; split; reflexivity|].
  right. apply orb_false_iff in Hnot. destruct Hnot as [Hlat Hlng].
  destruct (SpeedLocationRoute.arg_lat args) as [lat|]; [|discriminate].
  destruct (SpeedLocationRoute.arg_lng args) as [lng|]; [|discriminate].
  cbn [not_] in Hlat, Hlng.
  apply Qeq_bool_neq in Hlat. apply Qeq_bool_neq in Hlng.
  exists lat, lng.
  split; [reflexivity|]. split; [exact Hlat|].
  split; [reflexivity|]. split; [exact Hlng|].
  set (limit := match SpeedLocationRoute.arg_speed_limit args with
                | Some v => v
                | None => 50%Z
                end).
  set (radius_km := match SpeedLocationRoute.arg_radius_km args with
                    | Some r => r
                    | None => 1
                    end).
  set (rows := rows_in_box db _ _ _ _).
  destruct (Raising.calculate_recommended_speed (@Build_Location exact lat lng)
              (map columns rows) limit) as [rs|e] eqn:Hs; cbn [and_then].
  2:{ left. exists e. split; [reflexivity|].
      destruct (raising_speed_raises _ _ _ _ Hs) as [E|[E _]]; [left | right]; exact E. }
  destruct (location_details_of_cases lat lng radius_km rows) as [Ed|Ed];
    rewrite Ed; cbn [and_then].
  { left. exists ValueError. split; [reflexivity | left; reflexivity]. }
  set (details := SpeedLocationRoute.location_details_of lat lng radius_km rows).
  destruct (Raising.safety_status_of (List.length details) rs limit) as [status|e] eqn:Hst;
    cbn [and_then].
  2:{ left. exists e. split; [reflexivity|].
      right. exact (safety_status_of_raises _ _ _ _ Hst). }
  right. eexists. split; [reflexivity|].
  cbn [SpeedLocationRoute.loc_location SpeedLocationRoute.loc_speed_limit
       SpeedLocationRoute.loc_recommended_speed SpeedLocationRoute.loc_speed_reduction
       SpeedLocationRoute.loc_hazards_count SpeedLocationRoute.loc_hazards
       SpeedLocationRoute.safety_status].
  pose proof (raising_speed_at_least_20 _ _ _ _ Hs) as Hrs.
  destruct (safety_status_of_cases _ _ _ _ Hst) as (Hsafe & Hone & Hsmall).
  assert (Hnil : List.length details = 0%nat <-> details = []).
  { destruct details; simpl; split; intros H; try reflexivity; discriminate H. }
  split; [reflexivity|]. split; [reflexivity|]. split; [reflexivity|].
  split; [exact Hrs|]. split; [reflexivity|].
  split; [rewrite Hsafe; exact Hnil|].
  split; [exact Hone|].
  intros Hb. destruct (Hsmall Hb) as [Hc Hd]. split.
  - intros Hstatus. destruct (Hc Hstatus) as [Hcount Hcmp].
    split; [rewrite <- Hnil; exact Hcount | lia].
  - intros Hstatus. destruct (Hd Hstatus) as [Hcount Hcmp].
    split; [rewrite <- Hnil; exact Hcount | lia].
Qed.

End RaisingHandlers.

(** An instance of X6: the one-waypoint request over the table of the two
    hazards near the campus. *)
Lemma one_recommendation_per_waypoint_witness :
  exists (recs : list Recommendation) (radius : Q),
    Raising.get_speed_recommendations (M := approx_math)
      (one_waypoint 60) [far_pothole; near_crack]
    = Response (RecommendationsBody recs radius 1)
    /\ List.length recs = 1%nat.
Proof.
  destruct (@one_recommendation_per_waypoint approx_math (one_waypoint 60)
              [far_pothole; near_crack] ltac:(discriminate)) as [Hcases _].
  destruct Hcases as [(e & He & _)|(recs & radius & Hresp & Hlen & _)].
  - exfalso. vm_compute in He. discriminate He.
  - exists recs, radius. split; [exact Hresp | exact Hlen].
Defined.
